(** * The RocksDB database plugin of osquery

    A shallow embedding of [osquery/database/plugins/rocksdb.cpp]: the log
    interceptor [GlogRocksDBLogger::Logv], the life cycle of the plugin
    ([setUp], [close], [repairDB]), the domain router
    ([getHandleForColumnFamily]) and the store operations ([get], [put],
    [putBatch], [remove], [removeRange], [scan]).

    The embedded engine and the filesystem are collaborators of the plugin.
    The open database object is modelled in [Module rocksdb] as an ordered
    in-memory store that follows the documented behaviour of the RocksDB
    calls the plugin makes; opening a store and the filesystem primitives
    are an interface, [Host], that the plugin is generic in. The domain
    list and the name of the events domain, which the database layer
    defines, are parameters too ([Domains]).

    Member functions run in a state and error monad, [M], on the plugin
    object and the process-wide state; every call the plugin makes to the
    outside is recorded in a trace, on which the statements about what the
    plugin issues are made. The model is sequential: the lock of [close]
    and the atomicity of the corruption indicator have no counterpart.
    The typed [get], which parses with [tryTo<int>], and the empty
    [dumpDatabase] are left out. *)

From Stdlib Require Import NArith ZArith Lia Ascii.
From stdpp Require Import base decidable option list sorting strings gmap pretty.

(** ** std::string operations used by the plugin *)

Module Str.

(** [s.find(needle)]: position of the first occurrence, [None] for
    [std::string::npos]. *)
Definition find (s needle : string) : option nat := String.index 0 needle s.

(** [s.find_last_of(c)] for a one-character set. *)
Fixpoint find_last_of (s : string) (c : ascii) : option nat :=
  match s with
  | EmptyString => None
  | String a s' =>
      match find_last_of s' c with
      | Some i => Some (S i)
      | None => if Ascii.eqb a c then Some 0 else None
      end
  end.

Fixpoint drop (n : nat) (s : string) : string :=
  match n, s with
  | 0, _ => s
  | S n', String _ s' => drop n' s'
  | S _, EmptyString => EmptyString
  end.

(** [s.substr(pos)]: the suffix from [pos]; [None] stands for the
    [std::out_of_range] exception raised when [pos > s.size()]. *)
Definition substr (s : string) (pos : nat) : option string :=
  if decide (pos ≤ String.length s) then Some (drop pos s) else None.

(** [buffer[i]] of a zero-initialised character array holding [s]. *)
Definition char_at (s : string) (i : nat) : ascii :=
  match String.get i s with
  | Some c => c
  | None => Ascii.zero
  end.

(** [s1 < s2] and [s1 <= s2] of [std::string]: byte-wise, unsigned. *)
Definition lt (s1 s2 : string) : Prop := String.ltb s1 s2.
Definition le (s1 s2 : string) : Prop := String.leb s1 s2.

#[global] Instance lt_dec : RelDecision lt.
Proof. intros s1 s2. unfold lt. apply _. Defined.
#[global] Instance le_dec : RelDecision le.
Proof. intros s1 s2. unfold le. apply _. Defined.

(** [s] begins with [p], and [s] has an occurrence of [needle]. *)
Definition starts_with (p s : string) : Prop := ∃ rest, s = p +:+ rest.
Definition contains (s needle : string) : Prop := ∃ pre post, s = pre +:+ needle +:+ post.

End Str.

(** ** The embedded engine

    The part of RocksDB the plugin talks to. A status carries a code and a
    text; an open database is an ordered map per column family, whose
    commits fail with the status of the storage medium when that is not
    healthy. *)

Module rocksdb.

Definition kDefaultColumnFamilyName : string := "default".

Inductive Code :=
| kOk | kNotFound | kCorruption | kNotSupported | kInvalidArgument
| kIOError | kMergeInProgress | kIncomplete | kShutdownInProgress
| kTimedOut | kAborted | kBusy | kExpired | kTryAgain.

#[global] Instance Code_eq_dec : EqDecision Code.
Proof. solve_decision. Defined.

(** The numeric value of the enumerators. *)
Definition code_num (c : Code) : Z :=
  match c with
  | kOk => 0 | kNotFound => 1 | kCorruption => 2 | kNotSupported => 3
  | kInvalidArgument => 4 | kIOError => 5 | kMergeInProgress => 6
  | kIncomplete => 7 | kShutdownInProgress => 8 | kTimedOut => 9
  | kAborted => 10 | kBusy => 11 | kExpired => 12 | kTryAgain => 13
  end%Z.

(** [state] is the text that follows the type prefix in [ToString]. *)
Record Status := mkStatus { code : Code; subcode : N; state : string }.

#[global] Instance Status_eq_dec : EqDecision Status.
Proof. solve_decision. Defined.

Definition OK : Status := mkStatus kOk 0 "".
Definition NotFound : Status := mkStatus kNotFound 0 "".

Definition ok (s : Status) : bool := bool_decide (code s = kOk).
Definition IsCorruption (s : Status) : bool := bool_decide (code s = kCorruption).
Definition IsIOError (s : Status) : bool := bool_decide (code s = kIOError).

Definition type_prefix (c : Code) : string :=
  match c with
  | kOk => "OK"
  | kNotFound => "NotFound: "
  | kCorruption => "Corruption: "
  | kNotSupported => "Not implemented: "
  | kInvalidArgument => "Invalid argument: "
  | kIOError => "IO error: "
  | kMergeInProgress => "Merge in progress: "
  | kIncomplete => "Result incomplete: "
  | kShutdownInProgress => "Shutdown in progress: "
  | kTimedOut => "Operation timed out: "
  | kAborted => "Operation aborted: "
  | kBusy => "Resource busy: "
  | kExpired => "Operation expired: "
  | kTryAgain => "Operation failed. Try again.: "
  end.

Definition ToString (s : Status) : string :=
  match code s with
  | kOk => "OK"
  | c => type_prefix c +:+ state s
  end.

(** The options the plugin sets; the defaults are those of RocksDB. *)
Record WriteOptions := mkWriteOptions { sync : bool; disableWAL : bool }.
Definition WriteOptions_default : WriteOptions := mkWriteOptions false false.

#[global] Instance WriteOptions_eq_dec : EqDecision WriteOptions.
Proof. solve_decision. Defined.

Record ReadOptions := mkReadOptions { verify_checksums : bool; fill_cache : bool }.
Definition ReadOptions_default : ReadOptions := mkReadOptions true true.

Inductive InfoLogLevel := DEBUG_LEVEL | INFO_LEVEL | WARN_LEVEL | ERROR_LEVEL.
Inductive CompressionType := kNoCompression | kZSTD.
Inductive CompactionStyle := kCompactionStyleLevel | kCompactionStyleUniversal.

Record Options := mkOptions {
  create_if_missing : bool;
  create_missing_column_families : bool;
  info_log_level : InfoLogLevel;
  log_file_time_to_roll : Z;
  keep_log_file_num : Z;
  max_log_file_size : Z;
  max_open_files : Z;
  stats_dump_period_sec : Z;
  max_manifest_file_size : Z;
  compression : CompressionType;
  compaction_style : CompactionStyle;
  arena_block_size : Z;
  write_buffer_size : Z;
  max_write_buffer_number : Z;
  min_write_buffer_number_to_merge : Z;
  max_background_flushes : Z;
  info_log : bool
}.

Record ColumnFamilyDescriptor := mkDescriptor { cfd_name : string; cfd_options : Options }.

(** A handle is an engine object (it has an address, and is released with
    [delete]) that stands for the column family of its name. *)
Record ColumnFamilyHandle := mkHandle { cfh_addr : nat; cfh_name : string }.

#[global] Instance ColumnFamilyHandle_eq_dec : EqDecision ColumnFamilyHandle.
Proof. solve_decision. Defined.

(** The records of one column family, in ascending key order. *)
Abbreviation Table := (list (string * string)).

Fixpoint table_put (k v : string) (t : Table) : Table :=
  match t with
  | [] => [(k, v)]
  | (k', v') :: t' =>
      match String.compare k k' with
      | Lt => (k, v) :: t
      | Eq => (k, v) :: t'
      | Gt => (k', v') :: table_put k v t'
      end
  end.

Definition table_get (k : string) (t : Table) : option string :=
  snd <$> List.find (λ e, String.eqb (fst e) k) t.

Definition table_delete (k : string) (t : Table) : Table :=
  filter (λ e, fst e ≠ k) t.

(** Range deletion removes the keys of [[lo, hi)]. *)
Definition table_delete_range (lo hi : string) (t : Table) : Table :=
  filter (λ e, ¬ (Str.le lo (fst e) ∧ Str.lt (fst e) hi)) t.

Definition keys (t : Table) : list string := fst <$> t.

(** The order the engine keeps a table in. *)
Definition sorted (t : Table) : Prop := StronglySorted Str.lt (keys t).

(** An open database: the directory it lives in, the tables by column
    family name, and the condition of the storage medium ([OK] when commits go through, otherwise the
    status every commit fails with). *)
Record DB := mkDB { dbname : string; tables : gmap string Table; medium : Status }.

Definition table_of (db : DB) (cfh : ColumnFamilyHandle) : Table :=
  default [] (tables db !! cfh_name cfh).

(** Every table of the database is in key order. *)
Definition wf (db : DB) : Prop := map_Forall (λ _ t, sorted t) (tables db).

#[global] Instance wf_dec (db : DB) : Decision (wf db).
Proof. unfold wf, sorted. apply _. Defined.

Definition update_table (db : DB) (cfh : ColumnFamilyHandle) (f : Table → Table) : DB :=
  mkDB (dbname db) (<[cfh_name cfh := f (table_of db cfh)]> (tables db)) (medium db).

(** A write batch: the [Put]s added to it, in order. *)
Record BatchPut := mkPut { put_cf : ColumnFamilyHandle; put_key : string; put_value : string }.
Abbreviation WriteBatch := (list BatchPut).

#[global] Instance BatchPut_eq_dec : EqDecision BatchPut.
Proof. solve_decision. Defined.

Definition apply_batch (batch : WriteBatch) (db : DB) : DB :=
  foldl (λ d p, update_table d (put_cf p) (table_put (put_key p) (put_value p))) db batch.

(** A commit is applied as a whole when the medium is healthy and leaves
    the store as it is otherwise. *)
Definition commit (f : DB → DB) (db : DB) : Status * DB :=
  if ok (medium db) then (OK, f db) else (medium db, db).

Definition Write (o : WriteOptions) (batch : WriteBatch) (db : DB) : Status * DB :=
  commit (apply_batch batch) db.

Definition Delete (o : WriteOptions) (cfh : ColumnFamilyHandle) (key : string) (db : DB)
  : Status * DB :=
  commit (λ d, update_table d cfh (table_delete key)) db.

Definition DeleteRange (o : WriteOptions) (cfh : ColumnFamilyHandle) (lo hi : string) (db : DB)
  : Status * DB :=
  commit (λ d, update_table d cfh (table_delete_range lo hi)) db.

(** [Get] writes the value only when the key is found. *)
Definition Get (o : ReadOptions) (cfh : ColumnFamilyHandle) (key : string) (db : DB)
  : Status * option string :=
  match table_get key (table_of db cfh) with
  | Some v => (OK, Some v)
  | None => (NotFound, None)
  end.

(** An iterator positioned by [SeekToFirst] walks the keys of the column
    family in ascending order; the engine always returns an iterator. *)
Abbreviation Iterator := (list string).

Definition NewIterator (o : ReadOptions) (cfh : ColumnFamilyHandle) (db : DB) : option Iterator :=
  Some (keys (table_of db cfh)).

(** What [DB::Open] hands back: its status, one handle per descriptor
    ([handles[i]] operates on [column_families[i]]) and the database, or
    no handle and a null database when it fails; and the lines the engine
    wrote to the info log meanwhile. *)
Record OpenResult := mkOpenResult {
  open_status : Status;
  open_handles : list ColumnFamilyHandle;
  open_db : option DB;
  open_log : list string
}.

End rocksdb.

(** ** The plugin's surroundings *)

(** Modelled from the spec: osquery's [Status] class, which is declared
    outside this file. It carries an integer code, [0] for success, and a
    human-readable text. *)
Record Status := mkStatus { getCode : Z; getMessage : string }.

#[global] Instance Status_eq_dec : EqDecision Status.
Proof. solve_decision. Defined.

(** Modelled from the spec: [Status(c)], the constructor of [Status] from a
    code alone. The spec does not give the text of such a status; it is
    taken to be "OK", and no statement below depends on it. *)
Definition Status_of_code (c : Z) : Status := mkStatus c "OK".

(** The status a store operation hands back for the engine's status [s]:
    [Status(s.code(), s.ToString())]. *)
Definition Status_of_engine (s : rocksdb.Status) : Status :=
  mkStatus (rocksdb.code_num (rocksdb.code s)) (rocksdb.ToString s).

Inductive Severity := INFO | WARNING | ERROR | VERBOSE.

#[global] Instance Severity_eq_dec : EqDecision Severity.
Proof. solve_decision. Defined.

(** What the plugin does to the outside, in the order it does it: lines
    sent to the host log, calls to the engine and to the filesystem, and
    the entry into [repairDB]. *)
Inductive Event :=
| EvLog (sev : Severity) (msg : string)
| EvOpen (path : string) (cfs : list string) (s : rocksdb.Status)
| EvRepairDB
| EvRemovePath (path : string) (done : bool)
| EvMovePath (src dst : string) (done : bool)
| EvChmod (path : string) (done : bool)
| EvDeleteHandle (h : rocksdb.ColumnFamilyHandle)
| EvDeleteDB
| EvWrite (o : rocksdb.WriteOptions) (batch : rocksdb.WriteBatch)
| EvDelete (o : rocksdb.WriteOptions) (cfh : rocksdb.ColumnFamilyHandle) (key : string)
| EvDeleteRange (o : rocksdb.WriteOptions) (cfh : rocksdb.ColumnFamilyHandle) (lo hi : string)
| EvFlagUpdate (name value : string).

#[global] Instance Event_eq_dec : EqDecision Event.
Proof. solve_decision. Defined.

(** The collaborators the plugin consumes as black boxes, over a state [W]
    of their own: the filesystem primitives, [rocksdb::DB::Open] and the
    release of the database object, and the [RLOG] macro of the logger. *)
Class Host (W : Type) := {
  pathExists : string → W → bool;
  isReadable : string → W → bool;
  removePath : string → W → bool * W;
  movePath : string → string → W → bool * W;
  platformChmod : string → W → bool * W;
  DB_Open : rocksdb.Options → string → list rocksdb.ColumnFamilyDescriptor → W
            → rocksdb.OpenResult * W;
  DB_delete : rocksdb.DB → W → W;
  RLOG : nat → string
}.

(** The constants of the database layer that the plugin reads, defined
    outside this file: the ordered list of domain names and the name of the
    events domain. *)
Class Domains := { kDomains : list string; kEvents : string }.

(** The command-line flags the plugin reads: the four hidden flags it
    declares (their defaults are 16, 4, 4 and 256) and the database path. *)
Record Flags := mkFlags {
  FLAGS_rocksdb_write_buffer : Z;
  FLAGS_rocksdb_merge_number : Z;
  FLAGS_rocksdb_background_flushes : Z;
  FLAGS_rocksdb_buffer_blocks : Z;
  FLAGS_database_path : string
}.

(** Process-wide state: the collaborators' state, the corruption
    indicator, the switches of [DatabasePlugin] (static members declared in
    the database layer), the flags, and the trace. *)
Record World (W : Type) := mkWorld {
  host : W;
  kRocksDBCorruptionIndicator : bool;
  kDBAllowOpen : bool;
  kDBRequireWrite : bool;
  kDBChecking : bool;
  flags : Flags;
  trace : list Event
}.
Arguments mkWorld {W}.
Arguments host {W}.
Arguments kRocksDBCorruptionIndicator {W}.
Arguments kDBAllowOpen {W}.
Arguments kDBRequireWrite {W}.
Arguments kDBChecking {W}.
Arguments flags {W}.
Arguments trace {W}.

Definition set_host {W} (h : W) (w : World W) : World W :=
  mkWorld h (kRocksDBCorruptionIndicator w) (kDBAllowOpen w) (kDBRequireWrite w)
          (kDBChecking w) (flags w) (trace w).

Definition set_indicator {W} (b : bool) (w : World W) : World W :=
  mkWorld (host w) b (kDBAllowOpen w) (kDBRequireWrite w) (kDBChecking w) (flags w) (trace w).

Definition emit {W} (e : Event) (w : World W) : World W :=
  mkWorld (host w) (kRocksDBCorruptionIndicator w) (kDBAllowOpen w) (kDBRequireWrite w)
          (kDBChecking w) (flags w) (trace w ++ [e]).

(** Modelled from the spec: the members of [RocksDBDatabasePlugin], whose
    class declaration is outside this file, as the member functions use
    them: the engine owns the store handle [db_] (null when closed) and the
    array [handles_] of partition handles; [read_only_] is the degraded
    mode. [logger_] records whether the logger object exists. *)
Record Plugin := mkPlugin {
  initialized_ : bool;
  logger_ : bool;
  options_ : rocksdb.Options;
  column_families_ : list rocksdb.ColumnFamilyDescriptor;
  path_ : string;
  handles_ : list rocksdb.ColumnFamilyHandle;
  db_ : option rocksdb.DB;
  read_only_ : bool
}.

Definition set_handles (hs : list rocksdb.ColumnFamilyHandle) (p : Plugin) : Plugin :=
  mkPlugin (initialized_ p) (logger_ p) (options_ p) (column_families_ p) (path_ p)
           hs (db_ p) (read_only_ p).

Definition set_db (db : option rocksdb.DB) (p : Plugin) : Plugin :=
  mkPlugin (initialized_ p) (logger_ p) (options_ p) (column_families_ p) (path_ p)
           (handles_ p) db (read_only_ p).

Definition set_path (path : string) (p : Plugin) : Plugin :=
  mkPlugin (initialized_ p) (logger_ p) (options_ p) (column_families_ p) path
           (handles_ p) (db_ p) (read_only_ p).

Definition set_read_only (b : bool) (p : Plugin) : Plugin :=
  mkPlugin (initialized_ p) (logger_ p) (options_ p) (column_families_ p) (path_ p)
           (handles_ p) (db_ p) b.

(** Modelled from the spec: a plugin object as constructed, in the state
    Closed: nothing configured, no handle, a null store handle, not
    read-only. *)
Definition new_plugin (o : rocksdb.Options) : Plugin :=
  mkPlugin false false o [] "" [] None false.

(** ** The monad of the member functions

    A member function runs on the plugin object and the process-wide state.
    It ends with a value, or it does not end well: an index past the end of
    a vector, a call through a null pointer, or a [std::out_of_range]
    thrown by the string library; [Crash] keeps the state in which that
    happened. *)

Inductive Fault := OutOfBounds | NullPointer | ThrowOutOfRange.

#[global] Instance Fault_eq_dec : EqDecision Fault.
Proof. solve_decision. Defined.

Record Sys (W : Type) := mkSys { self : Plugin; world : World W }.
Arguments mkSys {W}.
Arguments self {W}.
Arguments world {W}.

Inductive Res (W A : Type) :=
| Ret (a : A) (s : Sys W)
| Crash (f : Fault) (s : Sys W).
Arguments Ret {W A}.
Arguments Crash {W A}.

Definition M (W A : Type) : Type := Sys W → Res W A.

Definition ret {W A} (a : A) : M W A := λ s, Ret a s.

Definition bind {W A B} (m : M W A) (k : A → M W B) : M W B :=
  λ s, match m s with
       | Ret a s' => k a s'
       | Crash f s' => Crash f s'
       end.

Definition crash {W A} (f : Fault) : M W A := λ s, Crash f s.

(** The state a member function stops in. *)
Definition final {W A} (r : Res W A) : Sys W :=
  match r with
  | Ret _ s => s
  | Crash _ s => s
  end.

(** The value a member function returns, when it ends well. *)
Definition returned {W A} (r : Res W A) : option A :=
  match r with
  | Ret a _ => Some a
  | Crash _ _ => None
  end.

Definition this {W} : M W Plugin := λ s, Ret (self s) s.
Definition the_world {W} : M W (World W) := λ s, Ret (world s) s.
Definition modify_self {W} (f : Plugin → Plugin) : M W unit :=
  λ s, Ret tt (mkSys (f (self s)) (world s)).
Definition modify_world {W} (f : World W → World W) : M W unit :=
  λ s, Ret tt (mkSys (self s) (f (world s))).

Declare Scope plugin_scope.
Delimit Scope plugin_scope with plugin.
Notation "x <- m ; k" := (bind m (λ x, k))
  (at level 20, m at level 100, k at level 200, only parsing) : plugin_scope.
Notation "m ;; k" := (bind m (λ _, k))
  (at level 100, k at level 200, only parsing, right associativity) : plugin_scope.
Local Open Scope plugin_scope.

(** [for (auto x : xs) body]. *)
Fixpoint for_each {W A} (xs : list A) (body : A → M W unit) : M W unit :=
  match xs with
  | [] => ret tt
  | x :: xs' => body x;; for_each xs' body
  end.

(** [std::find(xs.begin(), xs.end(), x) - xs.begin()]: the index of the
    first element equal to [x], the size of [xs] when there is none. *)
Fixpoint find_index (xs : list string) (x : string) : nat :=
  match xs with
  | [] => 0
  | y :: ys => if decide (y = x) then 0 else S (find_index ys x)
  end.

(** [size_t] arithmetic. *)
Definition SIZE_MAX : N := (2 ^ 64 - 1)%N.
Definition size_incr (n : N) : N := ((n + 1) mod 2 ^ 64)%N.

(** ** The member functions *)

Section Plugin.

Context {W : Type} `{!Host W} `{!Domains}.

Definition LOG (sev : Severity) (msg : string) : M W unit :=
  modify_world (emit (EvLog sev msg)).

Definition isCorrupted : M W bool :=
  w <- the_world; ret (kRocksDBCorruptionIndicator w).

(** [setCorrupted(corrupted)]; the interceptor calls it without argument,
    for [true]. *)
Definition setCorrupted (corrupted : bool) : M W unit :=
  modify_world (set_indicator corrupted).

(** [vsnprintf(buffer, size, format, ap)] into a zeroed buffer, on the
    text [formatted] that the format and its arguments expand to: at most
    [size - 1] characters are kept. *)
Definition vsnprintf (size : nat) (formatted : string) : string :=
  String.substring 0 (size - 1) formatted.

(** [GlogRocksDBLogger::Logv], on the expansion of [format] and [ap].
    The logger is not a member of the plugin: it acts on the host log and
    on the corruption indicator. *)
Definition Logv (formatted : string) (w : World W) : World W :=
  let buffer := vsnprintf 500 formatted in
  if bool_decide (Str.char_at buffer 0 ≠ "["%char)
     || (bool_decide (Str.char_at buffer 1 ≠ "E"%char)
         && bool_decide (Str.char_at buffer 1 ≠ "W"%char))
  then w
  else
    let log_line := buffer in
    (* There is a spurious warning on first open. *)
    let w :=
      if bool_decide (Str.find log_line "Error when reading" = None)
      then emit (EvLog INFO ("RocksDB: " +:+ log_line)) w
      else w in
    (* If the callback includes 'Corruption' then set the corruption indicator. *)
    if bool_decide (Str.find log_line "Corruption:" ≠ None)
    then set_indicator true w
    else w.

(** The calls to the collaborators, each leaving its event in the trace. *)
Definition do_removePath (path : string) : M W bool :=
  w <- the_world;
  let '(r, h) := removePath path (host w) in
  modify_world (λ w, emit (EvRemovePath path r) (set_host h w));;
  ret r.

Definition do_movePath (src dst : string) : M W bool :=
  w <- the_world;
  let '(r, h) := movePath src dst (host w) in
  modify_world (λ w, emit (EvMovePath src dst r) (set_host h w));;
  ret r.

Definition do_platformChmod (path : string) : M W bool :=
  w <- the_world;
  let '(r, h) := platformChmod path (host w) in
  modify_world (λ w, emit (EvChmod path r) (set_host h w));;
  ret r.

(** [rocksdb::DB::Open(options_, path_, column_families_, &handles_, &db_)];
    the lines the engine logs go to the interceptor when it is installed
    as the info log. *)
Definition do_Open : M W rocksdb.Status :=
  p <- this;
  w <- the_world;
  let '(r, h) := DB_Open (options_ p) (path_ p) (column_families_ p) (host w) in
  modify_world (λ w, emit (EvOpen (path_ p) (rocksdb.cfd_name <$> column_families_ p)
                                  (rocksdb.open_status r))
                          (set_host h w));;
  (if rocksdb.info_log (options_ p)
   then modify_world (λ w, foldl (λ w line, Logv line w) w (rocksdb.open_log r))
   else ret tt);;
  modify_self (λ p, set_db (rocksdb.open_db r) (set_handles (rocksdb.open_handles r) p));;
  ret (rocksdb.open_status r).

Definition repairDB : M W unit :=
  modify_world (emit EvRepairDB);;
  p <- this;
  w <- the_world;
  (* Try to backup the existing database. *)
  let bpath := path_ p +:+ ".backup" in
  proceed <-
    (if pathExists bpath (host w) then
       removed <- do_removePath bpath;
       if negb removed then
         LOG ERROR ("Cannot remove previous RocksDB database backup: " +:+ bpath);;
         ret false
       else
         LOG WARNING ("Removed previous RocksDB database backup: " +:+ bpath);;
         ret true
     else ret true);
  if negb proceed then ret tt
  else
    moved <- do_movePath (path_ p) bpath;
    if moved then
      LOG WARNING ("Backing up RocksDB database: " +:+ bpath);;
      (* ROCKSDB_LITE does not have a RepairDB method. *)
      LOG WARNING "Destroying RocksDB database due to corruption"
    else
      LOG ERROR ("Cannot backup the RocksDB database: " +:+ bpath).

Definition close : M W unit :=
  p <- this;
  for_each (handles_ p) (λ handle, modify_world (emit (EvDeleteHandle handle)));;
  modify_self (set_handles []);;
  (match db_ p with
   | Some db =>
       modify_world (λ w, emit EvDeleteDB (set_host (DB_delete db (host w)) w));;
       modify_self (set_db None)
   | None => ret tt
   end);;
  corrupted <- isCorrupted;
  if corrupted then
    repairDB;;
    setCorrupted false
  else ret tt.

Definition tearDown : M W unit := close.

(** The one-time configuration at the head of [setUp]. The fields that
    [OptimizeForSmallDb] tunes are not among those modelled. *)
Definition configure (fl : Flags) (p : Plugin) : Plugin :=
  let options :=
    rocksdb.mkOptions
      true true rocksdb.ERROR_LEVEL 0 10 (1024 * 1024 * 1) 128 0 (1024 * 500)
      rocksdb.kNoCompression rocksdb.kCompactionStyleLevel
      (4 * 1024)
      (((4 * 1024) * FLAGS_rocksdb_buffer_blocks fl) mod 2 ^ 64)
      (FLAGS_rocksdb_write_buffer fl)
      (FLAGS_rocksdb_merge_number fl)
      (FLAGS_rocksdb_background_flushes fl)
      true in
  mkPlugin true true options
           ((column_families_ p
             ++ [rocksdb.mkDescriptor rocksdb.kDefaultColumnFamilyName options])
            ++ ((λ cf_name, rocksdb.mkDescriptor cf_name options) <$> kDomains))
           (path_ p) (handles_ p) (db_ p) (read_only_ p).

Definition setUp : M W Status :=
  w <- the_world;
  (if negb (kDBAllowOpen w)
   then LOG WARNING (RLOG 1629 +:+ "Not allowed to set up database plugin")
   else ret tt);;
  p <- this;
  (if negb (initialized_ p) then modify_self (configure (flags w)) else ret tt);;
  (* Consume the current settings. *)
  modify_self (set_path (FLAGS_database_path (flags w)));;
  p <- this;
  if pathExists (path_ p) (host w) && negb (isReadable (path_ p) (host w)) then
    ret (mkStatus 1 ("Cannot read RocksDB path: " +:+ path_ p))
  else
    (if negb (kDBChecking w)
     then LOG VERBOSE ("Opening RocksDB handle: " +:+ path_ p)
     else ret tt);;
    (* Tests may trash calls to setUp, make sure subsequent calls do not leak. *)
    close;;
    (* Attempt to create a RocksDB instance and handles. *)
    s <- do_Open;
    s <- (if rocksdb.IsCorruption s then
           (* The database is corrupt - try to repair it *)
           repairDB;;
           do_Open
         else ret s);
    p <- this;
    failed <-
      (if negb (rocksdb.ok s) || bool_decide (db_ p = None) then
         LOG INFO ("Rocksdb open failed (" +:+ pretty (rocksdb.code_num (rocksdb.code s))
                   +:+ ":" +:+ pretty (rocksdb.subcode s) +:+ ") "
                   +:+ rocksdb.ToString s);;
         if kDBRequireWrite w then
           (* A failed open in R/W mode is a runtime error. *)
           ret (Some (mkStatus 1 (rocksdb.ToString s)))
         else
           (if negb (kDBChecking w)
            then LOG INFO "Opening RocksDB failed: Continuing with read-only support"
            else ret tt);;
           (* Also disable event publishers. *)
           modify_world (emit (EvFlagUpdate "disable_events" "true"));;
           modify_self (set_read_only true);;
           ret None
       else ret None);
    match failed with
    | Some status => ret status
    | None =>
        p <- this;
        (* RocksDB may not create/append a directory with acceptable permissions. *)
        if read_only_ p then ret (Status_of_code 0)
        else
          changed <- do_platformChmod (path_ p);
          if negb changed
          then ret (mkStatus 1 ("Cannot set permissions on RocksDB path: " +:+ path_ p))
          else ret (Status_of_code 0)
    end.

Definition getDB : M W (option rocksdb.DB) :=
  p <- this; ret (db_ p).

(** [None] is the null pointer. [handles_[i]] is unchecked: past the end
    of the vector it is undefined behaviour. *)
Definition getHandleForColumnFamily (cf : string)
  : M W (option rocksdb.ColumnFamilyHandle) :=
  p <- this;
  let i := find_index kDomains cf in
  if bool_decide (i ≠ length kDomains) then
    match handles_ p !! i with
    | Some handle => ret (Some handle)
    | None => crash OutOfBounds
    end
  else ret None.

(** A call [getDB()->f(...)] of a commit [f]: through a null pointer it
    is undefined behaviour; otherwise the database is the one [f] leaves. *)
Definition on_db (e : Event) (f : rocksdb.DB → rocksdb.Status * rocksdb.DB)
  : M W rocksdb.Status :=
  db <- getDB;
  match db with
  | None => crash NullPointer
  | Some db =>
      modify_world (emit e);;
      let '(s, db') := f db in
      modify_self (set_db (Some db'));;
      ret s
  end.

(** [get(domain, key, value)]: the status, and [value] as the call
    leaves it. *)
Definition get (domain key value : string) : M W (Status * string) :=
  db <- getDB;
  match db with
  | None => ret (mkStatus 1 "Database not opened", value)
  | Some db =>
      cfh <- getHandleForColumnFamily domain;
      match cfh with
      | None => ret (mkStatus 1 ("Could not get column family for " +:+ domain), value)
      | Some cfh =>
          let '(s, found) := rocksdb.Get rocksdb.ReadOptions_default cfh key db in
          ret (Status_of_engine s, default value found)
      end
  end.

Definition putBatch (domain : string) (data : list (string * string)) : M W Status :=
  p <- this;
  if read_only_ p then ret (mkStatus 0 "Database in readonly mode")
  else
    cfh <- getHandleForColumnFamily domain;
    match cfh with
    | None => ret (mkStatus 1 ("Could not get column family for " +:+ domain))
    | Some cfh =>
        (* Events should be fast, and do not need to force syncs. *)
        let options := rocksdb.WriteOptions_default in
        let options :=
          if bool_decide (kEvents = domain)
          then rocksdb.mkWriteOptions (rocksdb.sync options) true
          else rocksdb.mkWriteOptions true (rocksdb.disableWAL options) in
        let batch := (λ p, rocksdb.mkPut cfh (fst p) (snd p)) <$> data in
        s <- on_db (EvWrite options batch) (rocksdb.Write options batch);
        if bool_decide (rocksdb.code_num (rocksdb.code s) ≠ 0%Z) && rocksdb.IsIOError s then
          (* An error occurred, check if it is an IO error and remove the
             offending specific filename or log name. *)
          let error_string := rocksdb.ToString s in
          match Str.find_last_of error_string ":"%char with
          | Some error_pos =>
              match Str.substr error_string (error_pos + 2) with
              | Some rest =>
                  ret (mkStatus (rocksdb.code_num (rocksdb.code s)) ("IOError: " +:+ rest))
              | None => crash ThrowOutOfRange
              end
          | None => ret (Status_of_engine s)
          end
        else ret (Status_of_engine s)
    end.

Definition put (domain key value : string) : M W Status :=
  putBatch domain [(key, value)].

(** The [int] overload; [std::to_string] prints the decimal numeral. *)
Definition put_int (domain key : string) (value : Z) : M W Status :=
  putBatch domain [(key, pretty value)].

Definition remove (domain key : string) : M W Status :=
  p <- this;
  if read_only_ p then ret (mkStatus 0 "Database in readonly mode")
  else
    cfh <- getHandleForColumnFamily domain;
    match cfh with
    | None => ret (mkStatus 1 ("Could not get column family for " +:+ domain))
    | Some cfh =>
        let options := rocksdb.WriteOptions_default in
        (* We could sync here, but large deletes will cause multi-syncs. *)
        let options :=
          if bool_decide (kEvents ≠ domain)
          then rocksdb.mkWriteOptions true (rocksdb.disableWAL options)
          else options in
        s <- on_db (EvDelete options cfh key) (rocksdb.Delete options cfh key);
        ret (Status_of_engine s)
    end.

Definition removeRange (domain low high : string) : M W Status :=
  p <- this;
  if read_only_ p then ret (mkStatus 0 "Database in readonly mode")
  else
    cfh <- getHandleForColumnFamily domain;
    match cfh with
    | None => ret (mkStatus 1 ("Could not get column family for " +:+ domain))
    | Some cfh =>
        let options := rocksdb.WriteOptions_default in
        (* We could sync here, but large deletes will cause multi-syncs. *)
        let options :=
          if bool_decide (kEvents ≠ domain)
          then rocksdb.mkWriteOptions true (rocksdb.disableWAL options)
          else options in
        s <- on_db (EvDeleteRange options cfh low high)
                   (rocksdb.DeleteRange options cfh low high);
        s <- (if bool_decide (Str.le low high)
              then on_db (EvDelete options cfh high) (rocksdb.Delete options cfh high)
              else ret s);
        ret (Status_of_engine s)
    end.

(** The loop of [scan] over the keys the iterator still has to visit;
    [count] is a [size_t]. *)
Fixpoint scan_loop (it : rocksdb.Iterator) (prefix : string) (max count : N)
         (results : list string) : list string :=
  match it with
  | [] => results
  | key :: it' =>
      if bool_decide (Str.find key prefix = Some 0) then
        let results := results ++ [key] in
        if bool_decide (0 < max)%N then
          let count := size_incr count in
          if bool_decide (max ≤ count)%N then results
          else scan_loop it' prefix max count results
        else scan_loop it' prefix max count results
      else scan_loop it' prefix max count results
  end.

(** [scan(domain, results, prefix, max)]: the status, and [results] as
    the call leaves it. *)
Definition scan (domain : string) (results : list string) (prefix : string) (max : N)
  : M W (Status * list string) :=
  db <- getDB;
  match db with
  | None => ret (mkStatus 1 "Database not opened", results)
  | Some db =>
      cfh <- getHandleForColumnFamily domain;
      match cfh with
      | None => ret (mkStatus 1 ("Could not get column family for " +:+ domain), results)
      | Some cfh =>
          let options := rocksdb.mkReadOptions false false in
          match rocksdb.NewIterator options cfh db with
          | None => ret (mkStatus 1 ("Could not get iterator for " +:+ domain), results)
          | Some it => ret (mkStatus 0 "OK", scan_loop it prefix max 0 results)
          end
      end
  end.

End Plugin.

(** ** A host to run the plugin on

    A filesystem of store directories, each readable or not, pinned (it can
    be neither removed nor renamed) or not, corrupt or not; and the domain
    list of osquery's database layer. *)

Module Sample.

Record Dir := mkDir {
  readable : bool;
  pinned : bool;
  corrupt : bool;
  stored : gmap string rocksdb.Table;
  failing : rocksdb.Status
}.

Definition Disk := gmap string Dir.

Definition handles_for (cfs : list rocksdb.ColumnFamilyDescriptor)
  : list rocksdb.ColumnFamilyHandle :=
  imap (λ i d, rocksdb.mkHandle i (rocksdb.cfd_name d)) cfs.

Definition open_dir (o : rocksdb.Options) (path : string)
           (cfs : list rocksdb.ColumnFamilyDescriptor) (w : Disk)
  : rocksdb.OpenResult * Disk :=
  match w !! path with
  | Some d =>
      if corrupt d then
        (rocksdb.mkOpenResult
           (rocksdb.mkStatus rocksdb.kCorruption 0 "CURRENT file corrupted") [] None
           ["[ERROR] [db/version_set.cc] Corruption: CURRENT file corrupted"], w)
      else
        (rocksdb.mkOpenResult rocksdb.OK (handles_for cfs)
           (Some (rocksdb.mkDB path (stored d) (failing d))) [], w)
  | None =>
      if rocksdb.create_if_missing o then
        (rocksdb.mkOpenResult rocksdb.OK (handles_for cfs)
           (Some (rocksdb.mkDB path ∅ rocksdb.OK)) [],
         <[path := mkDir true false false ∅ rocksdb.OK]> w)
      else
        (rocksdb.mkOpenResult
           (rocksdb.mkStatus rocksdb.kInvalidArgument 0
              (path +:+ ": does not exist (create_if_missing is false)")) [] None [], w)
  end.

#[export] Instance disk_host : Host Disk := {|
  pathExists path w := bool_decide (is_Some (w !! path));
  isReadable path w := match w !! path with Some d => readable d | None => false end;
  removePath path w :=
    match w !! path with
    | Some d => if pinned d then (false, w) else (true, delete path w)
    | None => (false, w)
    end;
  movePath src dst w :=
    match w !! src with
    | Some d => if pinned d then (false, w) else (true, <[dst := d]> (delete src w))
    | None => (false, w)
    end;
  platformChmod path w := (bool_decide (is_Some (w !! path)), w);
  DB_Open := open_dir;
  DB_delete db w :=
    match w !! rocksdb.dbname db with
    | Some d =>
        <[rocksdb.dbname db :=
            mkDir (readable d) (pinned d) (corrupt d) (rocksdb.tables db) (failing d)]> w
    | None => w
    end;
  RLOG n := "[Ref #" +:+ pretty n +:+ "] "
|}.

#[export] Instance domains : Domains := {|
  kDomains := ["configurations"; "queries"; "events"; "logs"; "carves"];
  kEvents := "events"
|}.

Definition options0 : rocksdb.Options :=
  rocksdb.mkOptions false false rocksdb.INFO_LEVEL 0 1000 0 (-1) 600 0
                    rocksdb.kNoCompression rocksdb.kCompactionStyleLevel
                    0 0 2 1 (-1) false.

Definition flags0 : Flags := mkFlags 16 4 4 256 "/var/osquery/osquery.db".

Definition world0 (disk : Disk) (indicator : bool) : World Disk :=
  mkWorld disk indicator true false false flags0 [].

(** A plugin object as constructed, on the given disk. *)
Definition start (disk : Disk) (indicator : bool) : Sys Disk :=
  mkSys (new_plugin options0) (world0 disk indicator).

Definition store_path : string := "/var/osquery/osquery.db".

(** The names of the column families [setUp] asks for, and the status of
    an attempt to open a corrupt store. *)
Definition store_families : list string :=
  ["default"; "configurations"; "queries"; "events"; "logs"; "carves"].

Definition corruption : rocksdb.Status :=
  rocksdb.mkStatus rocksdb.kCorruption 0 "CURRENT file corrupted".

(** The plugin after [setUp] on an empty disk. *)
Definition opened : Sys Disk := final (setUp (start ∅ false)).

Definition opened_db : rocksdb.DB :=
  default (rocksdb.mkDB "" ∅ rocksdb.OK) (db_ (self opened)).

(** The slots the router resolves "logs" and "events" to in [opened]. *)
Definition logs_handle : rocksdb.ColumnFamilyHandle := rocksdb.mkHandle 3 "events".
Definition events_handle : rocksdb.ColumnFamilyHandle := rocksdb.mkHandle 2 "queries".

(** [opened] with the keys "a", "b", "c", "d" written to the domain "logs". *)
Definition abcd : Sys Disk :=
  final (putBatch "logs" [("a", "1"); ("c", "3"); ("b", "2"); ("d", "4")] opened).

Definition abcd_db : rocksdb.DB :=
  default (rocksdb.mkDB "" ∅ rocksdb.OK) (db_ (self abcd)).

(** [opened] with the keys "a1", "b1", "a3", "a2" written to "logs". *)
Definition a123 : Sys Disk :=
  final (putBatch "logs" [("a1", ""); ("b1", ""); ("a3", ""); ("a2", "")] opened).

Definition a123_db : rocksdb.DB :=
  default (rocksdb.mkDB "" ∅ rocksdb.OK) (db_ (self a123)).

(** A store directory that is corrupt and cannot be moved aside: [setUp]
    ends in read-only mode, with no store handle. *)
Definition corrupt_pinned : Disk := {[ store_path := mkDir true true true ∅ rocksdb.OK ]}.

Definition degraded : Sys Disk := final (setUp (start corrupt_pinned false)).

(** [opened] once the corruption indicator has been set. *)
Definition flagged : Sys Disk := mkSys (self opened) (set_indicator true (world opened)).

(** A healthy store beside a previous backup that cannot be removed, and
    the plugin opened on it once the corruption indicator has been set. *)
Definition stuck_backup : Disk :=
  {[ store_path := mkDir true false false ∅ rocksdb.OK;
     store_path +:+ ".backup" := mkDir true true false ∅ rocksdb.OK ]}.

Definition flagged_stuck : Sys Disk :=
  let s := final (setUp (start stuck_backup false)) in
  mkSys (self s) (set_indicator true (world s)).

(** A healthy store directory. *)
Definition healthy : Disk := {[ store_path := mkDir true false false ∅ rocksdb.OK ]}.

(** A store on a full disk: every commit fails with an I/O error. *)
Definition disk_full : rocksdb.Status :=
  rocksdb.mkStatus rocksdb.kIOError 0
    "While appending to file: /var/osquery/osquery.db/000003.log: No space left on device".

Definition full : Disk := {[ store_path := mkDir true false false ∅ disk_full ]}.

Definition on_full_disk : Sys Disk := final (setUp (start full false)).

Definition on_full_disk_db : rocksdb.DB :=
  default (rocksdb.mkDB "" ∅ rocksdb.OK) (db_ (self on_full_disk)).

(** An error line longer than the buffer of the interceptor, with the
    corruption marker past the 499th character. *)
Fixpoint padding (n : nat) : string :=
  match n with
  | 0 => ""
  | S n' => String "x" (padding n')
  end.

Definition long_line : string := "[E" +:+ padding 500 +:+ "Corruption:".

(** A store directory that cannot be read. *)
Definition unreadable : Disk := {[ store_path := mkDir false false false ∅ rocksdb.OK ]}.

(** A plugin object as constructed, in a process that does not allow the
    database to be opened. *)
Definition not_allowed : Sys Disk :=
  mkSys (new_plugin options0) (mkWorld ∅ false false false false flags0 []).

(** A store whose commits fail with an I/O error the text of which ends
    in a colon. *)
Definition cut_short : rocksdb.Status :=
  rocksdb.mkStatus rocksdb.kIOError 0
    "While appending to file: /var/osquery/osquery.db/000003.log:".

Definition truncated : Disk := {[ store_path := mkDir true false false ∅ cut_short ]}.

Definition on_truncated : Sys Disk := final (setUp (start truncated false)).

Definition on_truncated_db : rocksdb.DB :=
  default (rocksdb.mkDB "" ∅ rocksdb.OK) (db_ (self on_truncated)).

(** A store whose commits fail for another reason than an I/O error. *)
Definition busy : rocksdb.Status := rocksdb.mkStatus rocksdb.kBusy 0 "lock held".

Definition locked : Disk := {[ store_path := mkDir true false false ∅ busy ]}.

Definition on_locked : Sys Disk := final (setUp (start locked false)).

Definition on_locked_db : rocksdb.DB :=
  default (rocksdb.mkDB "" ∅ rocksdb.OK) (db_ (self on_locked)).

End Sample.

(** ** Vocabulary of the statements *)

(** The events of the life cycle: the attempts to open the store and the
    entries into [repairDB]; and what a list of events has of them. *)
Definition is_lifecycle (e : Event) : bool :=
  match e with
  | EvOpen _ _ _ | EvRepairDB => true
  | _ => false
  end.

Definition lifecycle (evs : list Event) : list Event := filter (λ e, is_lifecycle e) evs.

(** The calls to the engine and to the filesystem among a list of events:
    the lines sent to the host log are left out. *)
Definition is_call (e : Event) : bool :=
  match e with
  | EvLog _ _ => false
  | _ => true
  end.

Definition calls (evs : list Event) : list Event := filter (λ e, is_call e) evs.

(** The level test of the interceptor: the line begins with '[' followed
    by 'E' or 'W'. *)
Definition level_ok (line : string) : Prop :=
  Str.char_at line 0 = "["%char
  ∧ (Str.char_at line 1 = "E"%char ∨ Str.char_at line 1 = "W"%char).

Section Vocabulary.

Context {W : Type} `{!Host W} `{!Domains}.

(** The router resolves [domain] to the handle [cfh]. *)
Definition resolves (s : Sys W) (domain : string) (cfh : rocksdb.ColumnFamilyHandle) : Prop :=
  getHandleForColumnFamily domain s = Ret (Some cfh) s.

(** The plugin holds the open database [db] and is not read-only. *)
Definition writable (s : Sys W) (db : rocksdb.DB) : Prop :=
  db_ (self s) = Some db ∧ read_only_ (self s) = false.

(** The events a call added to the trace of [s]. *)
Definition added (s s' : Sys W) (evs : list Event) : Prop :=
  trace (world s') = trace (world s) ++ evs.

(** [m] ends well from [s], with a value, a state and added events that
    satisfy [Q]. *)
Definition ends_with {A} (m : M W A) (s : Sys W)
           (Q : A → Sys W → list Event → Prop) : Prop :=
  ∃ a s' evs, m s = Ret a s' ∧ added s s' evs ∧ Q a s' evs.


(** A step that keeps the path of the plugin and the corruption
    indicator, and adds the life-cycle events [L]. *)
Definition keeps (s : Sys W) (L : list Event) : Sys W → list Event → Prop :=
  λ s' evs, path_ (self s') = path_ (self s)
            ∧ kRocksDBCorruptionIndicator (world s') = kRocksDBCorruptionIndicator (world s)
            ∧ lifecycle evs = L.

(** Steps that add no life-cycle event. *)
Definition quiet {A} : A → Sys W → list Event → Prop := λ _ _ evs, lifecycle evs = [].

(** What one call of [setUp] does of the life cycle. *)
Definition setUp_shape (s : Sys W) (evs : list Event) : Prop :=
  let path := FLAGS_database_path (flags (world s)) in
  let in_close := if kRocksDBCorruptionIndicator (world s) then [EvRepairDB] else [] in
  if pathExists path (host (world s)) && negb (isReadable path (host (world s)))
  then lifecycle evs = []
  else (∃ cfs st,
          lifecycle evs = in_close ++ [EvOpen path cfs st]
          ∧ rocksdb.IsCorruption st = false)
       ∨ (∃ cfs st cfs' st',
            lifecycle evs = in_close ++ [EvOpen path cfs st; EvRepairDB; EvOpen path cfs' st']
            ∧ rocksdb.IsCorruption st = true).

End Vocabulary.

(** A key lies in the closed interval [[lo, hi]]. *)
Definition between (lo hi : string) (k : string) : Prop := Str.le lo k ∧ Str.le k hi.

(** The first [max] elements, all of them when [max] is zero. *)
Definition up_to (max : N) (l : list string) : list string :=
  if decide (max = 0%N) then l else take (N.to_nat max) l.

(** ** Vocabulary of the further statements *)

Section FurtherVocabulary.

Context {W : Type} `{!Host W} `{!Domains}.

(** [s'] is [s] but for the database behind the store handle and for the
    events added to the trace. *)
Definition only_store_changed (s s' : Sys W) : Prop :=
  ∃ db' evs,
    s' = mkSys (set_db db' (self s)) (foldl (λ w e, emit e w) (world s) evs).

(** [s'] has the configuration of [s]: what the first [setUp] builds, the
    path of the plugin, and the switches and flags of the process. *)
Definition same_configuration (s s' : Sys W) : Prop :=
  initialized_ (self s') = initialized_ (self s)
  ∧ logger_ (self s') = logger_ (self s)
  ∧ options_ (self s') = options_ (self s)
  ∧ column_families_ (self s') = column_families_ (self s)
  ∧ path_ (self s') = path_ (self s)
  ∧ kDBAllowOpen (world s') = kDBAllowOpen (world s)
  ∧ kDBRequireWrite (world s') = kDBRequireWrite (world s)
  ∧ kDBChecking (world s') = kDBChecking (world s)
  ∧ flags (world s') = flags (world s).

(** [s'] has the settings of [s]: its configuration and its read-only
    mode. The handles, the host state, the corruption indicator and the
    trace are free. *)
Definition same_settings (s s' : Sys W) : Prop :=
  same_configuration s s' ∧ read_only_ (self s') = read_only_ (self s).

(** The plugin as [setUp] has it once it has consumed the settings: the
    configuration built if this is the first run, and the path of the
    flags. *)
Definition settled (s : Sys W) : Sys W :=
  mkSys (set_path (FLAGS_database_path (flags (world s)))
                  (if initialized_ (self s) then self s
                   else configure (flags (world s)) (self s)))
        (world s).

(** What a call of [setUp] from [s] comes to: the status it returns, the
    state [s'] it stops in and the events it adds. *)
Definition setUp_outcome (s : Sys W) (status : Status) (s' : Sys W) (evs : list Event) : Prop :=
  same_configuration (settled s) s'
  ∧ (getCode status = 0%Z ∨ getCode status = 1%Z)
  ∧ (read_only_ (self s) = true → read_only_ (self s') = true)
  ∧ (kDBRequireWrite (world s) = true → read_only_ (self s') = read_only_ (self s))
  ∧ (getCode status = 0%Z → read_only_ (self s') = true ∨ is_Some (db_ (self s')))
  ∧ ∃ rest,
      evs = (if kDBAllowOpen (world s) then []
             else [EvLog WARNING (RLOG 1629 +:+ "Not allowed to set up database plugin")])
            ++ rest.

End FurtherVocabulary.

(** * Properties *)

(** ** Strings *)

Section StringFacts.

Lemma compare_refl (s : string) : String.compare s s = Eq.
Proof.
  pose proof (String.compare_antisym s s) as H.
  destruct (String.compare s s); [done | discriminate H | discriminate H].
Qed.

Lemma compare_Lt_Gt (a b : string) : String.compare a b = Lt ↔ String.compare b a = Gt.
Proof.
  rewrite (String.compare_antisym b a).
  destruct (String.compare a b); simpl; split; congruence.
Qed.

Lemma lt_spec (a b : string) : Str.lt a b ↔ String.compare a b = Lt.
Proof.
  unfold Str.lt, String.ltb. destruct (String.compare a b); simpl; split; (done || congruence).
Qed.

Lemma le_spec (a b : string) : Str.le a b ↔ String.compare a b ≠ Gt.
Proof.
  unfold Str.le, String.leb.
  destruct (String.compare a b); simpl; split; first [done | congruence].
Qed.

Lemma lt_le (a b : string) : Str.lt a b → Str.le a b.
Proof. rewrite lt_spec, le_spec. congruence. Qed.

Lemma lt_neq (a b : string) : Str.lt a b → a ≠ b.
Proof. rewrite lt_spec. intros H ->. rewrite compare_refl in H. discriminate. Qed.

Lemma le_neq_lt (a b : string) : Str.le a b → a ≠ b → Str.lt a b.
Proof.
  rewrite lt_spec, le_spec. intros Hle Hne.
  destruct (String.compare a b) eqn:E; [| done | done].
  apply String.compare_eq_iff in E. done.
Qed.

Lemma le_refl (a : string) : Str.le a a.
Proof. rewrite le_spec, compare_refl. discriminate. Qed.

Lemma le_trans (a b c : string) : Str.le a b → Str.le b c → Str.le a c.
Proof. exact (transitivity (R:=String.le) (x:=a) (y:=b) (z:=c)). Qed.

Lemma le_antisym (a b : string) : Str.le a b → Str.le b a → a = b.
Proof. exact (anti_symm String.le a b). Qed.

Lemma not_le_lt (a b : string) : ¬ Str.le a b ↔ Str.lt b a.
Proof.
  rewrite le_spec, lt_spec, compare_Lt_Gt.
  destruct (String.compare a b); split; intros H; try done.
  - exfalso. apply H. discriminate.
  - exfalso. apply H. discriminate.
  - intros H'. done.
Qed.

Lemma lt_le_trans (a b c : string) : Str.lt a b → Str.le b c → Str.lt a c.
Proof.
  intros Hab Hbc. apply le_neq_lt.
  - eapply le_trans; [by apply lt_le | done].
  - intros ->. apply lt_neq in Hab as Hne. apply Hne.
    apply le_antisym; [by apply lt_le | done].
Qed.

Lemma le_lt_trans (a b c : string) : Str.le a b → Str.lt b c → Str.lt a c.
Proof.
  intros Hab Hbc. apply le_neq_lt.
  - eapply le_trans; [done | by apply lt_le].
  - intros ->. apply lt_neq in Hbc as Hne. apply Hne.
    apply le_antisym; [by apply lt_le | done].
Qed.

#[global] Instance lt_transitive : Transitive Str.lt.
Proof. intros a b c Hab Hbc. eapply lt_le_trans; [done | by apply lt_le]. Qed.

Lemma app_String (a : ascii) (s t : string) : String a s +:+ t = String a (s +:+ t).
Proof. reflexivity. Qed.

Lemma app_empty (t : string) : "" +:+ t = t.
Proof. reflexivity. Qed.

Lemma prefix_starts_with (p s : string) : String.prefix p s = true ↔ Str.starts_with p s.
Proof.
  unfold Str.starts_with. revert s.
  induction p as [|a p IH]; intros s.
  - destruct s; simpl; (split; [intros _; by eexists | done]).
  - destruct s as [|b s]; simpl.
    + split; [done | intros [rest Hrest]; discriminate].
    + destruct (ascii_dec a b) as [->|Hne].
      * rewrite IH. split; intros [rest Hrest]; exists rest;
          rewrite app_String in *; congruence.
      * split; [done | intros [rest Hrest]; rewrite app_String in Hrest; congruence].
Qed.

Lemma find_zero_prefix (s p : string) : Str.find s p = Some 0 ↔ String.prefix p s = true.
Proof.
  unfold Str.find. destruct s as [|b s].
  - destruct p; simpl; split; intros; done.
  - cbn [String.index]. destruct (String.prefix p (String b s)); [done |].
    destruct (String.index 0 p s); split; discriminate.
Qed.

Lemma find_zero_starts_with (s p : string) : Str.find s p = Some 0 ↔ Str.starts_with p s.
Proof. by rewrite find_zero_prefix, prefix_starts_with. Qed.

Lemma find_contains (s needle : string) : Str.find s needle ≠ None ↔ Str.contains s needle.
Proof.
  unfold Str.find, Str.contains.
  induction s as [|b s IH].
  - destruct needle as [|c needle]; simpl; split; try done.
    + intros _. by exists "", "".
    + intros (pre & post & Heq). destruct pre; [rewrite app_empty in Heq|]; discriminate.
  - cbn [String.index]. destruct (String.prefix needle (String b s)) eqn:Hp.
    + split; [intros _ | done].
      apply prefix_starts_with in Hp as [rest Hrest]. by exists "", rest.
    + assert (String.index 0 needle s ≠ None
              ↔ match String.index 0 needle s with
                | Some n => Some (S n)
                | None => None
                end ≠ None) as <-
        by (destruct (String.index 0 needle s); split; done).
      rewrite IH. split.
      * intros (pre & post & ->). by exists (String b pre), post.
      * intros (pre & post & Heq). destruct pre as [|c pre];
          [rewrite app_empty in Heq | rewrite app_String in Heq].
        -- assert (String.prefix needle (String b s) = true); [| congruence].
           apply prefix_starts_with. by exists post.
        -- injection Heq as -> ->. by exists pre, post.
Qed.

End StringFacts.

(** ** The engine *)

Section EngineFacts.

Lemma StronglySorted_filter_keys (P : string * string → Prop) `{!∀ e, Decision (P e)}
      (t : rocksdb.Table) :
  rocksdb.sorted t → rocksdb.sorted (filter P t).
Proof.
  unfold rocksdb.sorted, rocksdb.keys.
  induction t as [|e t IH]; [done |].
  rewrite fmap_cons. intros Hs. apply StronglySorted_inv in Hs as [Ht He].
  rewrite filter_cons. destruct (decide (P e)); [| by apply IH].
  rewrite fmap_cons. constructor; [by apply IH |].
  rewrite Forall_fmap in He |- *. rewrite Forall_forall in He |- *.
  intros x Hx. apply He. by apply list_elem_of_filter in Hx as [_ Hx].
Qed.

Lemma table_delete_sorted (k : string) (t : rocksdb.Table) :
  rocksdb.sorted t → rocksdb.sorted (rocksdb.table_delete k t).
Proof. apply StronglySorted_filter_keys. Qed.

Lemma table_delete_range_sorted (lo hi : string) (t : rocksdb.Table) :
  rocksdb.sorted t → rocksdb.sorted (rocksdb.table_delete_range lo hi t).
Proof. apply StronglySorted_filter_keys. Qed.

Lemma table_put_keys (k v : string) (t : rocksdb.Table) (x : string) :
  x ∈ rocksdb.keys (rocksdb.table_put k v t) → x = k ∨ x ∈ rocksdb.keys t.
Proof.
  unfold rocksdb.keys. induction t as [|[k' v'] t IH]; simpl.
  - rewrite list_elem_of_singleton. auto.
  - destruct (String.compare k k'); simpl; rewrite !elem_of_cons; tauto.
Qed.

Lemma table_put_sorted (k v : string) (t : rocksdb.Table) :
  rocksdb.sorted t → rocksdb.sorted (rocksdb.table_put k v t).
Proof.
  unfold rocksdb.sorted.
  induction t as [|[k' v'] t IH]; simpl.
  - intros _. repeat constructor.
  - intros Hs. apply StronglySorted_inv in Hs as [Ht He]. simpl in He.
    destruct (String.compare k k') eqn:E; simpl.
    + apply String.compare_eq_iff in E as ->. by constructor.
    + apply lt_spec in E. constructor; [by constructor |].
      constructor; [done |].
      eapply Forall_impl; [exact He |]. intros x Hx. by etrans.
    + apply compare_Lt_Gt, lt_spec in E. constructor; [by apply IH |].
      apply Forall_forall. intros x Hx.
      apply table_put_keys in Hx as [-> | Hx]; [done |].
      rewrite Forall_forall in He. by apply He.
Qed.

Lemma table_of_update (db : rocksdb.DB) (cfh cfh' : rocksdb.ColumnFamilyHandle)
      (f : rocksdb.Table → rocksdb.Table) :
  rocksdb.table_of (rocksdb.update_table db cfh f) cfh'
  = if decide (rocksdb.cfh_name cfh = rocksdb.cfh_name cfh')
    then f (rocksdb.table_of db cfh)
    else rocksdb.table_of db cfh'.
Proof.
  unfold rocksdb.table_of, rocksdb.update_table. simpl.
  rewrite lookup_insert. by destruct (decide _).
Qed.

Lemma update_table_wf (db : rocksdb.DB) (cfh : rocksdb.ColumnFamilyHandle)
      (f : rocksdb.Table → rocksdb.Table) :
  (∀ t, rocksdb.sorted t → rocksdb.sorted (f t)) →
  rocksdb.wf db → rocksdb.wf (rocksdb.update_table db cfh f).
Proof.
  unfold rocksdb.wf, rocksdb.update_table. simpl. intros Hf Hwf.
  apply map_Forall_insert_2; [| done].
  apply Hf. unfold rocksdb.table_of.
  destruct (rocksdb.tables db !! rocksdb.cfh_name cfh) as [t|] eqn:E; simpl.
  - by eapply Hwf.
  - constructor.
Qed.

Lemma commit_wf (f : rocksdb.DB → rocksdb.DB) (db : rocksdb.DB) :
  (rocksdb.wf db → rocksdb.wf (f db)) →
  rocksdb.wf db → rocksdb.wf (rocksdb.commit f db).2.
Proof. unfold rocksdb.commit. intros Hf Hwf. destruct (rocksdb.ok _); simpl; auto. Qed.

(** The engine keeps every table in key order: the three commits the
    plugin issues preserve [wf]. *)
Lemma Write_wf (o : rocksdb.WriteOptions) (batch : rocksdb.WriteBatch) (db : rocksdb.DB) :
  rocksdb.wf db → rocksdb.wf (rocksdb.Write o batch db).2.
Proof.
  apply commit_wf. unfold rocksdb.apply_batch. revert db.
  induction batch as [|p batch IH]; intros db Hwf; simpl; [done |].
  apply IH. apply update_table_wf; [| done]. intros t. apply table_put_sorted.
Qed.

Lemma Delete_wf (o : rocksdb.WriteOptions) (cfh : rocksdb.ColumnFamilyHandle)
      (key : string) (db : rocksdb.DB) :
  rocksdb.wf db → rocksdb.wf (rocksdb.Delete o cfh key db).2.
Proof.
  apply commit_wf. apply update_table_wf. intros t. apply table_delete_sorted.
Qed.

Lemma DeleteRange_wf (o : rocksdb.WriteOptions) (cfh : rocksdb.ColumnFamilyHandle)
      (lo hi : string) (db : rocksdb.DB) :
  rocksdb.wf db → rocksdb.wf (rocksdb.DeleteRange o cfh lo hi db).2.
Proof.
  apply commit_wf. apply update_table_wf. intros t. apply table_delete_range_sorted.
Qed.

(** Range deletion followed by the deletion of the upper end removes the
    closed interval. *)
Lemma delete_range_then_delete (lo hi : string) (t : rocksdb.Table) :
  Str.le lo hi →
  rocksdb.table_delete hi (rocksdb.table_delete_range lo hi t)
  = filter (λ e, ¬ between lo hi (fst e)) t.
Proof.
  intros Hle. unfold rocksdb.table_delete, rocksdb.table_delete_range, between.
  induction t as [|e t IH]; [done |].
  rewrite !filter_cons.
  destruct (decide (¬ (Str.le lo e.1 ∧ Str.lt e.1 hi))) as [Hr|Hr].
  - rewrite filter_cons. destruct (decide (e.1 ≠ hi)) as [Hne|Heq].
    + rewrite decide_True; [by rewrite IH |].
      intros [H1 H2]. apply Hr. split; [done |]. by apply le_neq_lt.
    + rewrite decide_False; [done |].
      intros Hn. apply Hn. apply dec_stable in Heq as ->. split; [done | apply le_refl].
  - rewrite decide_False; [done |].
    intros Hn. apply Hr. intros [H1 H2]. apply Hn. split; [done | by apply lt_le].
Qed.

(** A range whose lower end is above its upper end is empty. *)
Lemma delete_range_degenerate (lo hi : string) (t : rocksdb.Table) :
  ¬ Str.le lo hi → rocksdb.table_delete_range lo hi t = t.
Proof.
  intros Hgt. unfold rocksdb.table_delete_range.
  induction t as [|e t IH]; [done |].
  rewrite filter_cons, decide_True; [by rewrite IH |].
  intros [H1 H2]. apply Hgt. eapply le_trans; [done | by apply lt_le].
Qed.

End EngineFacts.

(** ** The domain router *)

Section RouterFacts.

Context {W : Type} `{!Host W} `{!Domains}.

Lemma find_index_le (xs : list string) (x : string) : find_index xs x ≤ length xs.
Proof. induction xs as [|y xs IH]; simpl; [lia |]. destruct (decide (y = x)); lia. Qed.

Lemma find_index_elem (xs : list string) (x : string) :
  x ∈ xs ↔ find_index xs x ≠ length xs.
Proof.
  induction xs as [|y xs IH]; simpl.
  - split; [by intros ?%elem_of_nil | done].
  - rewrite elem_of_cons. destruct (decide (y = x)) as [->|Hne].
    + split; [lia | auto].
    + rewrite IH. split; [intros [?|?]; [done | lia] | intros ?; right; lia].
Qed.

Lemma find_index_lookup (xs : list string) (x : string) :
  x ∈ xs → xs !! find_index xs x = Some x.
Proof.
  induction xs as [|y xs IH]; simpl.
  - by intros ?%elem_of_nil.
  - rewrite elem_of_cons. destruct (decide (y = x)) as [->|Hne]; [done |].
    intros [?|?]; [done | by apply IH].
Qed.

(** [std::find] stops at the first match. *)
Lemma find_index_first (xs : list string) (x : string) (j : nat) :
  j < find_index xs x → xs !! j ≠ Some x.
Proof.
  revert j. induction xs as [|y xs IH]; intros j; simpl; [lia |].
  destruct (decide (y = x)) as [->|Hne]; [lia |].
  destruct j as [|j]; simpl; [congruence |]. intros Hj. apply IH. lia.
Qed.

Lemma find_index_NoDup (xs : list string) (x : string) (i : nat) :
  NoDup xs → xs !! i = Some x → find_index xs x = i.
Proof.
  intros Hnd Hi.
  assert (x ∈ xs) as Hx by (apply list_elem_of_lookup; eauto).
  apply find_index_lookup in Hx. by eapply NoDup_lookup.
Qed.

Lemma getHandle_unfold (cf : string) (s : Sys W) :
  getHandleForColumnFamily cf s
  = if bool_decide (find_index kDomains cf ≠ length kDomains) then
      match handles_ (self s) !! find_index kDomains cf with
      | Some handle => Ret (Some handle) s
      | None => Crash OutOfBounds s
      end
    else Ret None s.
Proof.
  unfold getHandleForColumnFamily, bind, this. simpl.
  destruct (bool_decide _); [| done]. by destruct (_ !! _).
Qed.

(** The router never changes the state. *)
Lemma getHandle_final (cf : string) (s : Sys W) :
  final (getHandleForColumnFamily cf s) = s.
Proof.
  rewrite getHandle_unfold. destruct (bool_decide _); [| done]. by destruct (_ !! _).
Qed.

(** The router reads the handle array and nothing else. *)
Lemma resolves_handles (s s' : Sys W) (domain : string) (cfh : rocksdb.ColumnFamilyHandle) :
  handles_ (self s') = handles_ (self s) → resolves s domain cfh → resolves s' domain cfh.
Proof.
  unfold resolves. rewrite !getHandle_unfold. intros ->.
  destruct (bool_decide _); [| done]. destruct (_ !! _); [| done].
  by intros [= ->].
Qed.

Lemma resolves_lookup (s : Sys W) (domain : string) (cfh : rocksdb.ColumnFamilyHandle) :
  resolves s domain cfh
  ↔ domain ∈ kDomains ∧ handles_ (self s) !! find_index kDomains domain = Some cfh.
Proof.
  unfold resolves. rewrite getHandle_unfold, find_index_elem.
  destruct (decide (find_index kDomains domain ≠ length kDomains)) as [Hi|Hi].
  - rewrite bool_decide_eq_true_2 by done.
    destruct (_ !! _) as [h|]; split.
    + by intros [= ->].
    + by intros [_ [= ->]].
    + intros [=].
    + intros [_ [=]].
  - rewrite bool_decide_eq_false_2 by done. split; [done | tauto].
Qed.

(** An unknown domain name resolves to the null handle. *)
Lemma getHandle_unknown (s : Sys W) (domain : string) :
  domain ∉ kDomains → getHandleForColumnFamily domain s = Ret None s.
Proof.
  rewrite find_index_elem, getHandle_unfold. intros Hi.
  by rewrite bool_decide_eq_false_2.
Qed.

(** Distinct domains resolve to distinct slots of the handle array, so
    to distinct handles when the handles of the array are distinct. *)
Lemma router_injective (s : Sys W) (d1 d2 : string) (cfh : rocksdb.ColumnFamilyHandle) :
  NoDup (handles_ (self s)) → resolves s d1 cfh → resolves s d2 cfh → d1 = d2.
Proof.
  rewrite !resolves_lookup. intros Hnd [Hd1 H1] [Hd2 H2].
  assert (find_index kDomains d1 = find_index kDomains d2) as Heq
    by (eapply NoDup_lookup; eauto).
  apply find_index_lookup in Hd1, Hd2. rewrite Heq in Hd1. congruence.
Qed.

End RouterFacts.

Arguments getHandleForColumnFamily : simpl never.

Section RouterClaims.

Context {W : Type} `{!Host W} `{!Domains}.

(** The descriptors [setUp] builds on its first run: the default column
    family first, then one per domain name, in the order of the list. *)
Lemma configure_column_families (fl : Flags) (o : rocksdb.Options) :
  rocksdb.cfd_name <$> column_families_ (configure fl (new_plugin o))
  = rocksdb.kDefaultColumnFamilyName :: kDomains.
Proof.
  simpl. f_equal. rewrite <- list_fmap_compose.
  induction kDomains as [|d ds IH]; [done |]. simpl. by f_equal.
Qed.

(** C1 (what the code does). On the handle array that the
    engine builds from the descriptors of [setUp] (the default column
    family first, then one per domain name), the router resolves a domain
    to the slot of its index in the domain list. That slot holds the
    handle of the column family listed one place earlier: the default
    column family for the first domain, the preceding domain's otherwise.
    It is not the handle of the domain's own column family. *)
Theorem C1_router_resolves_one_slot_early (s : Sys W) (domain : string) :
  domain ∈ kDomains →
  domain ≠ rocksdb.kDefaultColumnFamilyName →
  rocksdb.cfh_name <$> handles_ (self s) = rocksdb.kDefaultColumnFamilyName :: kDomains →
  ∃ cfh, getHandleForColumnFamily domain s = Ret (Some cfh) s
         ∧ (rocksdb.kDefaultColumnFamilyName :: kDomains) !! find_index kDomains domain
           = Some (rocksdb.cfh_name cfh)
         ∧ rocksdb.cfh_name cfh ≠ domain.
Proof.
  intros Hin Hdef Hnames.
  pose proof (find_index_le kDomains domain) as Hle.
  apply find_index_elem in Hin as Hi.
  destruct (handles_ (self s) !! find_index kDomains domain) as [cfh|] eqn:Hh.
  - exists cfh.
    assert ((rocksdb.kDefaultColumnFamilyName :: kDomains) !! find_index kDomains domain
            = Some (rocksdb.cfh_name cfh)) as Hslot
      by (rewrite <- Hnames, list_lookup_fmap, Hh; done).
    split; [| split; [done |]].
    + apply resolves_lookup. done.
    + intros Heq. rewrite Heq in Hslot.
      destruct (find_index kDomains domain) as [|j] eqn:Hj; simpl in Hslot.
      * congruence.
      * eapply (find_index_first kDomains domain j); [lia | done].
  - exfalso. apply lookup_ge_None in Hh.
    apply (f_equal length) in Hnames. rewrite length_fmap in Hnames. simpl in Hnames. lia.
Qed.

(** C10. On a closed engine (null store handle, empty handle array, not
    read-only) [get] and [scan] return the "Database not opened" error,
    while for every domain of the list the handle lookup of [putBatch],
    [remove] and [removeRange] indexes the empty array out of bounds; and
    were the array populated, [putBatch] would go on to call through the
    null store handle. *)
Theorem C10_writes_do_not_check_for_a_closed_engine
        (s : Sys W) (domain key value low high prefix : string)
        (data : list (string * string)) (results : list string) (max : N)
        (hs : list rocksdb.ColumnFamilyHandle) :
  db_ (self s) = None →
  handles_ (self s) = [] →
  read_only_ (self s) = false →
  domain ∈ kDomains →
  length kDomains ≤ length hs →
  get domain key value s = Ret (mkStatus 1 "Database not opened", value) s
  ∧ scan domain results prefix max s = Ret (mkStatus 1 "Database not opened", results) s
  ∧ getHandleForColumnFamily domain s = Crash OutOfBounds s
  ∧ putBatch domain data s = Crash OutOfBounds s
  ∧ remove domain key s = Crash OutOfBounds s
  ∧ removeRange domain low high s = Crash OutOfBounds s
  ∧ putBatch domain data (mkSys (set_handles hs (self s)) (world s))
    = Crash NullPointer (mkSys (set_handles hs (self s)) (world s)).
Proof.
  intros Hdb Hhs Hro Hin Hlen.
  assert (getHandleForColumnFamily domain s = Crash OutOfBounds s) as Hoob.
  { rewrite getHandle_unfold, Hhs. apply find_index_elem in Hin.
    by rewrite bool_decide_eq_true_2. }
  repeat split.
  - unfold get, getDB, bind, this, ret. simpl. by rewrite Hdb.
  - unfold scan, getDB, bind, this, ret. simpl. by rewrite Hdb.
  - done.
  - unfold putBatch, bind, this. simpl. by rewrite Hro, Hoob.
  - unfold remove, bind, this. simpl. by rewrite Hro, Hoob.
  - unfold removeRange, bind, this. simpl. by rewrite Hro, Hoob.
  - pose proof (find_index_le kDomains domain) as Hle.
    apply find_index_elem in Hin.
    destruct (hs !! find_index kDomains domain) as [cfh|] eqn:Hh;
      [| apply lookup_ge_None in Hh; lia].
    unfold putBatch, bind, this. simpl. rewrite Hro.
    rewrite getHandle_unfold. simpl. rewrite bool_decide_eq_true_2 by done.
    rewrite Hh. unfold on_db, getDB, bind, this, ret. simpl. by rewrite Hdb.
Qed.

End RouterClaims.

(** ** The store operations *)

Arguments on_db : simpl never.

Section StoreFacts.

Context {W : Type} `{!Host W} `{!Domains}.

Lemma on_db_Some (e : Event) (f : rocksdb.DB → rocksdb.Status * rocksdb.DB)
      (s : Sys W) (db : rocksdb.DB) :
  db_ (self s) = Some db →
  on_db e f s = Ret (f db).1 (mkSys (set_db (Some (f db).2) (self s)) (emit e (world s))).
Proof.
  intros Hdb. unfold on_db, getDB, bind, this, ret, modify_world, modify_self. simpl.
  rewrite Hdb. by destruct (f db).
Qed.

Lemma on_db_None (e : Event) (f : rocksdb.DB → rocksdb.Status * rocksdb.DB) (s : Sys W) :
  db_ (self s) = None → on_db e f s = Crash NullPointer s.
Proof.
  intros Hdb. unfold on_db, getDB, bind, this, ret. simpl. by rewrite Hdb.
Qed.

(** The options of a delete commit, as [remove] and [removeRange] set them. *)
Lemma delete_options (domain : string) :
  (if bool_decide (kEvents ≠ domain)
   then rocksdb.mkWriteOptions true (rocksdb.disableWAL rocksdb.WriteOptions_default)
   else rocksdb.WriteOptions_default)
  = rocksdb.mkWriteOptions (bool_decide (kEvents ≠ domain)) false.
Proof. by destruct (bool_decide _). Qed.

(** The options of a write commit, as [putBatch] sets them. *)
Lemma write_options (domain : string) :
  (if bool_decide (kEvents = domain)
   then rocksdb.mkWriteOptions (rocksdb.sync rocksdb.WriteOptions_default) true
   else rocksdb.mkWriteOptions true (rocksdb.disableWAL rocksdb.WriteOptions_default))
  = rocksdb.mkWriteOptions (bool_decide (kEvents ≠ domain)) (bool_decide (kEvents = domain)).
Proof.
  destruct (decide (kEvents = domain)) as [Heq|Hne].
  - rewrite bool_decide_eq_true_2, bool_decide_eq_false_2 by auto. done.
  - rewrite bool_decide_eq_false_2, bool_decide_eq_true_2 by auto. done.
Qed.

Lemma commit_ok (f : rocksdb.DB → rocksdb.DB) (db : rocksdb.DB) :
  rocksdb.ok (rocksdb.medium db) = true → rocksdb.commit f db = (rocksdb.OK, f db).
Proof. unfold rocksdb.commit. by intros ->. Qed.

Lemma commit_failed (f : rocksdb.DB → rocksdb.DB) (db : rocksdb.DB) :
  rocksdb.ok (rocksdb.medium db) = false → rocksdb.commit f db = (rocksdb.medium db, db).
Proof. unfold rocksdb.commit. by intros ->. Qed.

Lemma StronglySorted_sublist (l1 l2 : list string) :
  l1 `sublist_of` l2 → StronglySorted Str.lt l2 → StronglySorted Str.lt l1.
Proof.
  induction 1 as [|x l1 l2 Hsub IH|x l1 l2 Hsub IH]; intros Hs.
  - constructor.
  - apply StronglySorted_inv in Hs as [Hs Hx]. constructor; [by apply IH |].
    apply Forall_forall. intros y Hy. rewrite Forall_forall in Hx.
    apply Hx. by eapply elem_of_sublist.
  - apply StronglySorted_inv in Hs as [Hs _]. by apply IH.
Qed.

Lemma up_to_sublist (max : N) (l : list string) : up_to max l `sublist_of` l.
Proof. unfold up_to. destruct (decide _); [done | apply sublist_take]. Qed.

Lemma size_incr_small (n max : N) :
  (max ≤ SIZE_MAX)%N → (n < max)%N → size_incr n = (n + 1)%N.
Proof.
  unfold SIZE_MAX, size_incr. intros Hmax Hn. apply N.mod_small. lia.
Qed.

(** The loop collects the keys that begin with the prefix, in the order
    of the iterator, and leaves once [max] of them are in. *)
Lemma scan_loop_spec (it : list string) (prefix : string) (max count : N)
      (results : list string) :
  (max ≤ SIZE_MAX)%N →
  (max = 0 ∨ count < max)%N →
  scan_loop it prefix max count results
  = results ++ (if decide (max = 0%N)
                then filter (λ key, String.prefix prefix key) it
                else take (N.to_nat (max - count))
                          (filter (λ key, String.prefix prefix key) it)).
Proof.
  intros Hmax. revert count results.
  induction it as [|key it IH]; intros count results Hcount; simpl.
  - rewrite filter_nil. destruct (decide _); [| rewrite take_nil]; by rewrite app_nil_r.
  - rewrite filter_cons.
    destruct (decide (String.prefix prefix key)) as [Hp|Hp].
    + rewrite bool_decide_eq_true_2
        by (apply find_zero_prefix; by apply Is_true_true).
      destruct (decide (max = 0%N)) as [->|Hpos].
      * rewrite bool_decide_eq_false_2 by lia.
        rewrite IH by auto. simpl. by rewrite <- app_assoc.
      * rewrite bool_decide_eq_true_2 by lia.
        assert (count < max)%N as Hlt by (destruct Hcount; [done | done]).
        rewrite (size_incr_small count max) by done.
        destruct (decide (max ≤ count + 1)%N) as [Hle|Hgt].
        -- rewrite bool_decide_eq_true_2 by done.
           replace (N.to_nat (max - count)) with 1 by lia. simpl. by rewrite take_0.
        -- rewrite bool_decide_eq_false_2 by done.
           rewrite IH by lia.
           replace (N.to_nat (max - count)) with (S (N.to_nat (max - (count + 1)))) by lia.
           simpl. by rewrite <- app_assoc.
    + rewrite bool_decide_eq_false_2; [by apply IH |].
      intros Hf. apply Hp. apply Is_true_true. by apply find_zero_prefix.
Qed.

End StoreFacts.

Section StoreClaims.

Context {W : Type} `{!Host W} `{!Domains}.

Lemma removeRange_commit (s : Sys W) (db : rocksdb.DB) (domain low high : string)
      (cfh : rocksdb.ColumnFamilyHandle) :
  writable s db →
  resolves s domain cfh →
  let o := rocksdb.mkWriteOptions (bool_decide (kEvents ≠ domain)) false in
  let r1 := rocksdb.DeleteRange o cfh low high db in
  let r2 := if decide (Str.le low high) then rocksdb.Delete o cfh high r1.2 else r1 in
  let evs := EvDeleteRange o cfh low high
             :: if decide (Str.le low high) then [EvDelete o cfh high] else [] in
  removeRange domain low high s
  = Ret (Status_of_engine r2.1)
        (mkSys (set_db (Some r2.2) (self s)) (foldl (λ w e, emit e w) (world s) evs)).
Proof.
  intros [Hdb Hro] Hres o r1 r2 evs.
  unfold removeRange, bind, this. simpl. rewrite Hro, Hres, delete_options. fold o.
  rewrite (on_db_Some _ _ _ db) by done. fold r1.
  subst r2 evs. destruct (decide (Str.le low high)) as [Hle|Hgt].
  - rewrite bool_decide_eq_true_2 by done.
    erewrite on_db_Some by reflexivity. done.
  - rewrite bool_decide_eq_false_2 by done. unfold ret. simpl.
    by destruct (self s).
Qed.

Lemma trace_emit_all (w : World W) (evs : list Event) :
  trace (foldl (λ w e, emit e w) w evs) = trace w ++ evs.
Proof.
  revert w. induction evs as [|e evs IH]; intros w; simpl.
  - by rewrite app_nil_r.
  - rewrite IH. simpl. by rewrite <- app_assoc.
Qed.

(** C2. On a writable engine and a domain that resolves, [removeRange]
    issues the range deletion of [[low, high)] and, exactly when
    [low <= high], one point deletion of [high]. When the commits go
    through, the keys of the closed interval [[low, high]] are gone and
    every other record is as before; when [low > high] no record is
    removed. Other column families are untouched. *)
Theorem C2_removeRange_deletes_the_closed_interval
        (s : Sys W) (db : rocksdb.DB) (domain low high : string)
        (cfh : rocksdb.ColumnFamilyHandle) :
  writable s db →
  resolves s domain cfh →
  let o := rocksdb.mkWriteOptions (bool_decide (kEvents ≠ domain)) false in
  ∃ status s',
    removeRange domain low high s = Ret status s'
    ∧ added s s' (EvDeleteRange o cfh low high
                  :: if decide (Str.le low high) then [EvDelete o cfh high] else [])
    ∧ (rocksdb.ok (rocksdb.medium db) = true →
       status = mkStatus 0 "OK"
       ∧ ∃ db', db_ (self s') = Some db'
         ∧ rocksdb.table_of db' cfh
           = (if decide (Str.le low high)
              then filter (λ e, ¬ between low high (fst e)) (rocksdb.table_of db cfh)
              else rocksdb.table_of db cfh)
         ∧ ∀ cfh', rocksdb.cfh_name cfh' ≠ rocksdb.cfh_name cfh →
                   rocksdb.table_of db' cfh' = rocksdb.table_of db cfh').
Proof.
  intros Hw Hres o.
  rewrite (removeRange_commit s db domain low high cfh) by done. fold o.
  eexists _, _. split; [reflexivity |]. split.
  { exact (trace_emit_all _ _). }
  intros Hok. unfold rocksdb.DeleteRange, rocksdb.Delete. rewrite (commit_ok _ db) by done.
  destruct (decide (Str.le low high)) as [Hle|Hgt]; simpl.
  - rewrite commit_ok by done. simpl.
    split; [done |]. eexists. split; [reflexivity |]. split.
    + rewrite !table_of_update, !decide_True by done.
      by apply delete_range_then_delete.
    + intros cfh' Hne. rewrite !table_of_update, !decide_False by done. done.
  - split; [done |]. eexists. split; [reflexivity |]. split.
    + rewrite table_of_update, decide_True by done.
      by apply delete_range_degenerate.
    + intros cfh' Hne. by rewrite table_of_update, decide_False.
Qed.

(** C3 (as the code has it). In read-only mode [put], [putBatch], [remove] and
    [removeRange] return success and leave the whole state as it is,
    whatever the domain name (the check comes before the router). A
    [get] after such a write therefore returns what it returned before:
    NotFound for a key that is not stored when the store handle is
    present and the domain resolves, and the "Database not opened" error
    when the degraded engine holds no store handle. *)
Theorem C3_read_only_writes_are_no_ops
        (s : Sys W) (domain key value low high : string) (n : Z)
        (data : list (string * string)) :
  read_only_ (self s) = true →
  let unchanged := Ret (mkStatus 0 "Database in readonly mode") s in
  put domain key value s = unchanged
  ∧ put_int domain key n s = unchanged
  ∧ putBatch domain data s = unchanged
  ∧ remove domain key s = unchanged
  ∧ removeRange domain low high s = unchanged
  ∧ (∀ v0, get domain key v0 (final (put domain key value s)) = get domain key v0 s)
  ∧ (∀ db cfh v0,
       db_ (self s) = Some db → resolves s domain cfh →
       rocksdb.table_get key (rocksdb.table_of db cfh) = None →
       get domain key v0 (final (put domain key value s))
       = Ret (Status_of_engine rocksdb.NotFound, v0) s)
  ∧ (∀ v0,
       db_ (self s) = None →
       get domain key v0 (final (put domain key value s))
       = Ret (mkStatus 1 "Database not opened", v0) s).
Proof.
  intros Hro unchanged.
  assert (∀ d, putBatch domain d s = unchanged) as Hput.
  { intros d. unfold putBatch, bind, this. simpl. by rewrite Hro. }
  assert (put domain key value s = unchanged) as Hp by apply Hput.
  repeat split.
  - done.
  - apply Hput.
  - apply Hput.
  - unfold remove, bind, this. simpl. by rewrite Hro.
  - unfold removeRange, bind, this. simpl. by rewrite Hro.
  - intros v0. by rewrite Hp.
  - intros db cfh v0 Hdb Hres Hget. rewrite Hp. simpl.
    unfold get, getDB, bind, this, ret. simpl. rewrite Hdb, Hres.
    unfold rocksdb.Get. by rewrite Hget.
  - intros v0 Hdb. rewrite Hp. simpl.
    unfold get, getDB, bind, this, ret. simpl. by rewrite Hdb.
Qed.

Lemma putBatch_commit (s : Sys W) (db : rocksdb.DB) (domain : string)
      (cfh : rocksdb.ColumnFamilyHandle) (data : list (string * string)) :
  writable s db →
  resolves s domain cfh →
  let o := rocksdb.mkWriteOptions (bool_decide (kEvents ≠ domain))
                                  (bool_decide (kEvents = domain)) in
  let batch := (λ p, rocksdb.mkPut cfh (fst p) (snd p)) <$> data in
  let st := (rocksdb.Write o batch db).1 in
  let s' := mkSys (set_db (Some (rocksdb.Write o batch db).2) (self s))
                  (emit (EvWrite o batch) (world s)) in
  putBatch domain data s
  = if bool_decide (rocksdb.code_num (rocksdb.code st) ≠ 0%Z) && rocksdb.IsIOError st then
      match Str.find_last_of (rocksdb.ToString st) ":"%char with
      | Some error_pos =>
          match Str.substr (rocksdb.ToString st) (error_pos + 2) with
          | Some rest =>
              Ret (mkStatus (rocksdb.code_num (rocksdb.code st)) ("IOError: " +:+ rest)) s'
          | None => Crash ThrowOutOfRange s'
          end
      | None => Ret (Status_of_engine st) s'
      end
    else Ret (Status_of_engine st) s'.
Proof.
  intros [Hdb Hro] Hres o batch st s'.
  unfold putBatch, bind, this. simpl. rewrite Hro, Hres, write_options.
  rewrite (on_db_Some _ _ _ db) by done. fold o batch st s'.
  destruct (_ && _); [| done].
  destruct (Str.find_last_of _ _); [| done].
  by destruct (Str.substr _ _).
Qed.

Lemma remove_commit (s : Sys W) (db : rocksdb.DB) (domain key : string)
      (cfh : rocksdb.ColumnFamilyHandle) :
  writable s db →
  resolves s domain cfh →
  let o := rocksdb.mkWriteOptions (bool_decide (kEvents ≠ domain)) false in
  remove domain key s
  = Ret (Status_of_engine (rocksdb.Delete o cfh key db).1)
        (mkSys (set_db (Some (rocksdb.Delete o cfh key db).2) (self s))
               (emit (EvDelete o cfh key) (world s))).
Proof.
  intros [Hdb Hro] Hres o.
  unfold remove, bind, this. simpl. rewrite Hro, Hres, delete_options.
  by rewrite (on_db_Some _ _ _ db).
Qed.

(** C4 (as the code has it). On a writable engine the options of a commit depend on
    the domain name and on the operation only. [putBatch] commits the
    events domain with the write-ahead log disabled and no sync, and every
    other domain with a sync. [remove] and [removeRange] commit every
    other domain with a sync too, but the events domain with the default
    options: no sync, and the write-ahead log left enabled. *)
Theorem C4_durability_by_domain_and_operation
        (s : Sys W) (db : rocksdb.DB) (domain key low high : string)
        (cfh : rocksdb.ColumnFamilyHandle) (data : list (string * string)) :
  writable s db →
  resolves s domain cfh →
  let is_events := bool_decide (kEvents = domain) in
  let others := bool_decide (kEvents ≠ domain) in
  let batch := (λ p, rocksdb.mkPut cfh (fst p) (snd p)) <$> data in
  added s (final (putBatch domain data s))
        [EvWrite (rocksdb.mkWriteOptions others is_events) batch]
  ∧ added s (final (remove domain key s))
          [EvDelete (rocksdb.mkWriteOptions others false) cfh key]
  ∧ added s (final (removeRange domain low high s))
          (EvDeleteRange (rocksdb.mkWriteOptions others false) cfh low high
           :: if decide (Str.le low high)
              then [EvDelete (rocksdb.mkWriteOptions others false) cfh high]
              else []).
Proof.
  intros Hw Hres is_events others batch. repeat split.
  - rewrite (putBatch_commit s db domain cfh) by done.
    destruct (_ && _); [| done].
    destruct (Str.find_last_of _ _); [| done].
    by destruct (Str.substr _ _).
  - by rewrite (remove_commit s db domain key cfh).
  - rewrite (removeRange_commit s db domain low high cfh) by done.
    exact (trace_emit_all _ _).
Qed.

(** C5. On an open engine and a domain that resolves, [scan] appends to
    [results] the keys of the domain's column family that begin with the
    prefix, in the order of the keys, all of them when [max] is zero and
    the first [max] otherwise, and returns OK, also when fewer than [max]
    keys match or none does. The keys are in ascending order, the tables
    of the engine being in key order. *)
Theorem C5_scan_returns_the_first_matches_in_key_order
        (s : Sys W) (db : rocksdb.DB) (domain prefix : string)
        (cfh : rocksdb.ColumnFamilyHandle) (results : list string) (max : N) :
  db_ (self s) = Some db →
  resolves s domain cfh →
  (max ≤ SIZE_MAX)%N →
  let matches := filter (λ key, String.prefix prefix key)
                        (rocksdb.keys (rocksdb.table_of db cfh)) in
  scan domain results prefix max s
  = Ret (mkStatus 0 "OK", results ++ up_to max matches) s
  ∧ (∀ key, key ∈ matches
            ↔ key ∈ rocksdb.keys (rocksdb.table_of db cfh) ∧ Str.starts_with prefix key)
  ∧ (rocksdb.wf db → StronglySorted Str.lt (up_to max matches)).
Proof.
  intros Hdb Hres Hmax matches. split; [| split].
  - unfold scan, getDB, bind, this, ret. simpl. rewrite Hdb, Hres. simpl.
    rewrite scan_loop_spec by (done || lia). unfold up_to. fold matches.
    destruct (decide (max = 0%N)); [done |]. by rewrite N.sub_0_r.
  - intros key. unfold matches. rewrite list_elem_of_filter, <- prefix_starts_with.
    rewrite Is_true_true. tauto.
  - intros Hwf. eapply StronglySorted_sublist.
    { etrans; [apply up_to_sublist | apply sublist_filter]. }
    unfold rocksdb.table_of.
    destruct (rocksdb.tables db !! rocksdb.cfh_name cfh) as [t|] eqn:E; simpl.
    + by eapply Hwf.
    + constructor.
Qed.

End StoreClaims.

(** ** Failed commits *)

Section CommitFailures.

Context {W : Type} `{!Host W} `{!Domains}.

Lemma find_last_of_None_drop (s : string) (c : ascii) (n : nat) :
  Str.find_last_of s c = None → Str.find_last_of (Str.drop n s) c = None.
Proof.
  revert n. induction s as [|a s IH]; intros n; simpl.
  - by destruct n.
  - destruct (Str.find_last_of s c) eqn:E; [done |].
    destruct (Ascii.eqb a c) eqn:Ea; [done |]. intros _.
    destruct n as [|n]; simpl; [by rewrite E, Ea | by apply IH].
Qed.

(** Nothing after the position [find_last_of] returns holds the character. *)
Lemma find_last_of_drop (s : string) (c : ascii) (i n : nat) :
  Str.find_last_of s c = Some i → i < n → Str.find_last_of (Str.drop n s) c = None.
Proof.
  revert i n. induction s as [|a s IH]; intros i n; simpl; [done |].
  destruct (Str.find_last_of s c) as [j|] eqn:E.
  - intros [= <-] Hn. destruct n as [|n]; [lia |]. simpl. apply (IH j); [done | lia].
  - destruct (Ascii.eqb a c); [| done]. intros [= <-] Hn.
    destruct n as [|n]; [lia |]. simpl. by apply find_last_of_None_drop.
Qed.

Lemma find_last_of_app_l (a b : string) (c : ascii) :
  is_Some (Str.find_last_of a c) → is_Some (Str.find_last_of (a +:+ b) c).
Proof.
  induction a as [|x a IH]; simpl; [by intros [? ?] |].
  destruct (Str.find_last_of a c) eqn:E.
  - intros _. destruct IH as [j ->]; [done | eauto].
  - destruct (Ascii.eqb x c); [| by intros [? ?]]. intros _.
    destruct (Str.find_last_of (a +:+ b) c); eauto.
Qed.

(** The text of an I/O error always has a colon: that of its type prefix. *)
Lemma IOError_text_has_colon (st : rocksdb.Status) :
  rocksdb.code st = rocksdb.kIOError →
  is_Some (Str.find_last_of (rocksdb.ToString st) ":"%char).
Proof.
  intros Hc. unfold rocksdb.ToString. rewrite Hc.
  change (is_Some (Str.find_last_of ("IO error: " +:+ rocksdb.state st) ":"%char)).
  apply find_last_of_app_l. by eexists.
Qed.

Lemma Write_failed (o : rocksdb.WriteOptions) (batch : rocksdb.WriteBatch) (db : rocksdb.DB) :
  rocksdb.ok (rocksdb.medium db) = false → rocksdb.Write o batch db = (rocksdb.medium db, db).
Proof. apply commit_failed. Qed.

(** What [putBatch] surfaces for a write commit that fails with an I/O
    error: the code of the engine, and "IOError: " followed by what comes
    two characters after the last colon of the engine's text, which has no
    colon of its own. When the text ends at that colon, [substr] throws. *)
Lemma putBatch_io_error (s : Sys W) (db : rocksdb.DB) (domain : string)
      (cfh : rocksdb.ColumnFamilyHandle) (data : list (string * string)) :
  writable s db →
  resolves s domain cfh →
  rocksdb.code (rocksdb.medium db) = rocksdb.kIOError →
  let text := rocksdb.ToString (rocksdb.medium db) in
  ∃ error_pos s',
    Str.find_last_of text ":"%char = Some error_pos
    ∧ added s s' [EvWrite (rocksdb.mkWriteOptions (bool_decide (kEvents ≠ domain))
                                                 (bool_decide (kEvents = domain)))
                          ((λ p, rocksdb.mkPut cfh (fst p) (snd p)) <$> data)]
    ∧ if decide (error_pos + 2 ≤ String.length text) then
        putBatch domain data s
        = Ret (mkStatus 5 ("IOError: " +:+ Str.drop (error_pos + 2) text)) s'
        ∧ Str.find_last_of (Str.drop (error_pos + 2) text) ":"%char = None
      else putBatch domain data s = Crash ThrowOutOfRange s'.
Proof.
  intros Hw Hres Hcode text.
  destruct (IOError_text_has_colon _ Hcode) as [error_pos Hpos]. fold text in Hpos.
  assert (rocksdb.ok (rocksdb.medium db) = false) as Hfail
    by (unfold rocksdb.ok; rewrite Hcode; done).
  rewrite (putBatch_commit s db domain cfh) by done.
  rewrite Write_failed by done. simpl.
  unfold rocksdb.IsIOError. rewrite Hcode. simpl. fold text. rewrite Hpos.
  eexists error_pos, (mkSys (set_db (Some db) (self s)) (emit _ (world s))).
  split; [done |]. split; [reflexivity |].
  unfold Str.substr. destruct (decide (error_pos + 2 ≤ String.length text)); [| done].
  split; [done |]. eapply find_last_of_drop; [done | lia].
Qed.

(** Failures of a write commit that are not I/O errors are surfaced with
    the engine's full text. *)
Lemma putBatch_other_failure (s : Sys W) (db : rocksdb.DB) (domain : string)
      (cfh : rocksdb.ColumnFamilyHandle) (data : list (string * string)) :
  writable s db →
  resolves s domain cfh →
  rocksdb.ok (rocksdb.medium db) = false →
  rocksdb.code (rocksdb.medium db) ≠ rocksdb.kIOError →
  ∃ s', putBatch domain data s = Ret (Status_of_engine (rocksdb.medium db)) s'.
Proof.
  intros Hw Hres Hfail Hcode.
  rewrite (putBatch_commit s db domain cfh) by done.
  rewrite Write_failed by done. simpl.
  unfold rocksdb.IsIOError. rewrite (bool_decide_eq_false_2 _ Hcode).
  rewrite andb_false_r. eauto.
Qed.

(** C8 (what the code does). A delete commit that fails is
    surfaced with the engine's code and the engine's full text, whatever
    the failure: for an I/O error the message of [remove] and of
    [removeRange] is "IO error: " followed by the engine's text, file
    names and log names included. Only [putBatch] trims it. *)
Theorem C8_delete_commits_surface_the_full_engine_text
        (s : Sys W) (db : rocksdb.DB) (domain key low high : string)
        (cfh : rocksdb.ColumnFamilyHandle) :
  writable s db →
  resolves s domain cfh →
  rocksdb.code (rocksdb.medium db) = rocksdb.kIOError →
  let surfaced := mkStatus 5 ("IO error: " +:+ rocksdb.state (rocksdb.medium db)) in
  (∃ s', remove domain key s = Ret surfaced s')
  ∧ (∃ s', removeRange domain low high s = Ret surfaced s').
Proof.
  intros Hw Hres Hcode surfaced.
  assert (rocksdb.ok (rocksdb.medium db) = false) as Hfail
    by (unfold rocksdb.ok; rewrite Hcode; done).
  assert (Status_of_engine (rocksdb.medium db) = surfaced) as Hs
    by (unfold Status_of_engine, rocksdb.ToString; rewrite Hcode; done).
  split.
  - rewrite (remove_commit s db domain key cfh) by done.
    unfold rocksdb.Delete. rewrite commit_failed by done. simpl. rewrite Hs. eauto.
  - rewrite (removeRange_commit s db domain low high cfh) by done.
    unfold rocksdb.DeleteRange, rocksdb.Delete. rewrite (commit_failed _ db) by done.
    destruct (decide (Str.le low high)); simpl.
    + rewrite commit_failed by done. simpl. rewrite Hs. eauto.
    + rewrite Hs. eauto.
Qed.

(** On an open engine whose handle array covers the domain list the
    router and the delete operations end well for every domain name, and
    so does [putBatch] when the commit goes through. *)
Lemma writes_end_well_when_open (s : Sys W) (db : rocksdb.DB) (domain key low high : string)
      (data : list (string * string)) :
  writable s db →
  length kDomains ≤ length (handles_ (self s)) →
  (∃ cfh, getHandleForColumnFamily domain s = Ret cfh s)
  ∧ (∃ status s', remove domain key s = Ret status s')
  ∧ (∃ status s', removeRange domain low high s = Ret status s')
  ∧ (rocksdb.ok (rocksdb.medium db) = true →
     ∃ status s', putBatch domain data s = Ret status s').
Proof.
  intros Hw Hlen.
  destruct (decide (domain ∈ kDomains)) as [Hin|Hout].
  - pose proof (find_index_le kDomains domain) as Hle.
    apply find_index_elem in Hin as Hi.
    destruct (handles_ (self s) !! find_index kDomains domain) as [cfh|] eqn:Hh;
      [| apply lookup_ge_None in Hh; lia].
    assert (resolves s domain cfh) as Hres by (by apply resolves_lookup).
    split; [by exists (Some cfh) |]. split; [| split].
    + rewrite (remove_commit s db domain key cfh) by done. eauto.
    + rewrite (removeRange_commit s db domain low high cfh) by done. eauto.
    + intros Hok. rewrite (putBatch_commit s db domain cfh) by done.
      unfold rocksdb.Write. rewrite commit_ok by done. simpl. eauto.
  - destruct Hw as [Hdb Hro]. pose proof (getHandle_unknown s domain Hout) as Hnone.
    split; [by exists None |]. split; [| split].
    + unfold remove, bind, this, ret. simpl. rewrite Hro, Hnone. eauto.
    + unfold removeRange, bind, this, ret. simpl. rewrite Hro, Hnone. eauto.
    + intros _. unfold putBatch, bind, this, ret. simpl. rewrite Hro, Hnone. eauto.
Qed.

End CommitFailures.

(** ** The log interceptor *)

Section Interceptor.

Context {W : Type}.

Lemma char_at_vsnprintf (line : string) (i : nat) :
  i < 499 → Str.char_at (vsnprintf 500 line) i = Str.char_at line i.
Proof.
  intros Hi. unfold Str.char_at, vsnprintf.
  rewrite String.substring_correct1 by (simpl; lia). by rewrite Nat.add_0_r.
Qed.

(** The test at the head of [Logv] lets a line through exactly when it
    has the level mark. *)
Lemma level_test (line : string) :
  bool_decide (Str.char_at (vsnprintf 500 line) 0 ≠ "["%char)
  || (bool_decide (Str.char_at (vsnprintf 500 line) 1 ≠ "E"%char)
      && bool_decide (Str.char_at (vsnprintf 500 line) 1 ≠ "W"%char)) = false
  ↔ level_ok line.
Proof.
  rewrite !char_at_vsnprintf by lia. unfold level_ok.
  rewrite orb_false_iff, andb_false_iff, !bool_decide_eq_false.
  split; intros [H0 H1]; (split; [by apply dec_stable in H0 || by auto |]).
  - destruct H1 as [H1|H1]; apply dec_stable in H1; auto.
  - destruct H1 as [H1|H1]; auto.
Qed.

(** C9 (as the code has it). The interceptor works on the first 499 characters of
    the line. After it has run the indicator is set exactly when it was
    set before, or the line has the level mark and those 499 characters
    contain "Corruption:". A line without the level mark leaves the world
    as it is: nothing goes to the host log and the indicator is not
    touched. The interceptor never clears the indicator. *)
Theorem C9_interceptor_and_the_indicator (line : string) (w : World W) :
  (kRocksDBCorruptionIndicator (Logv line w) = true
   ↔ kRocksDBCorruptionIndicator w = true
     ∨ (level_ok line ∧ Str.contains (vsnprintf 500 line) "Corruption:"))
  ∧ (¬ level_ok line → Logv line w = w)
  ∧ (kRocksDBCorruptionIndicator w = true
     → kRocksDBCorruptionIndicator (Logv line w) = true).
Proof.
  assert (kRocksDBCorruptionIndicator (Logv line w) = true
          ↔ kRocksDBCorruptionIndicator w = true
            ∨ (level_ok line ∧ Str.contains (vsnprintf 500 line) "Corruption:")) as Hiff.
  { unfold Logv. rewrite <- level_test, <- find_contains.
    destruct (_ || _); [split; [auto | by intros [? | [[=] _]]] |].
    destruct (decide (Str.find (vsnprintf 500 line) "Corruption:" ≠ None)) as [Hc|Hc].
    - rewrite (bool_decide_eq_true_2 _ Hc). simpl. split; auto.
    - rewrite (bool_decide_eq_false_2 _ Hc).
      destruct (bool_decide (Str.find _ "Error when reading" = None)); simpl; tauto. }
  split; [done |]. split.
  - intros Hlevel. unfold Logv. rewrite <- level_test in Hlevel.
    by destruct (_ || _).
  - intros Hset. apply Hiff. by left.
Qed.

(** What the interceptor leaves alone, and what it adds to the trace. *)
Lemma Logv_world (line : string) (w : World W) :
  ∃ evs, Logv line w
         = mkWorld (host w) (kRocksDBCorruptionIndicator (Logv line w)) (kDBAllowOpen w)
                   (kDBRequireWrite w) (kDBChecking w) (flags w) (trace w ++ evs)
         ∧ lifecycle evs = [].
Proof.
  unfold Logv. destruct (_ || _).
  - exists []. rewrite app_nil_r. by destruct w.
  - destruct (bool_decide (Str.find _ "Error when reading" = None));
      destruct (bool_decide (Str.find _ "Corruption:" ≠ None)); simpl.
    + by eexists [_].
    + by eexists [_].
    + exists []. by rewrite app_nil_r.
    + exists []. rewrite app_nil_r. by destruct w.
Qed.

Lemma Logv_all_world (lines : list string) (w : World W) :
  ∃ evs b, foldl (λ w line, Logv line w) w lines
           = mkWorld (host w) b (kDBAllowOpen w) (kDBRequireWrite w) (kDBChecking w)
                     (flags w) (trace w ++ evs)
           ∧ lifecycle evs = [].
Proof.
  revert w. induction lines as [|line lines IH]; intros w; simpl.
  - exists [], (kRocksDBCorruptionIndicator w). rewrite app_nil_r. by destruct w.
  - destruct (Logv_world line w) as (evs1 & -> & Hq1).
    destruct (IH (mkWorld (host w) (kRocksDBCorruptionIndicator (Logv line w))
                          (kDBAllowOpen w) (kDBRequireWrite w) (kDBChecking w) (flags w)
                          (trace w ++ evs1))) as (evs2 & b & -> & Hq2).
    exists (evs1 ++ evs2), b. simpl. rewrite app_assoc. split; [done |].
    unfold lifecycle in *. by rewrite filter_app, Hq1, Hq2.
Qed.

End Interceptor.

(** ** The life cycle *)

(** Closes an equation between two worlds that differ by the events
    emitted one after the other. *)
Ltac by_trace :=
  cbv [emit set_host set_indicator host kRocksDBCorruptionIndicator kDBAllowOpen
       kDBRequireWrite kDBChecking flags trace];
  rewrite <- ?app_assoc; reflexivity.

Section LifeCycle.

Context {W : Type} `{!Host W} `{!Domains}.

Ltac world_eq :=
  unfold emit, set_host, set_indicator; simpl;
  do 3 f_equal; rewrite <- ?app_assoc; simpl; reflexivity.

Lemma lifecycle_app (evs1 evs2 : list Event) :
  lifecycle (evs1 ++ evs2) = lifecycle evs1 ++ lifecycle evs2.
Proof. apply filter_app. Qed.

(** The calls [repairDB] makes, and the state it leaves the filesystem
    in, by the answers of the filesystem. *)
Lemma repairDB_calls (s : Sys W) :
  let path := path_ (self s) in
  let bpath := path_ (self s) +:+ ".backup" in
  ∃ h' rest,
    repairDB s
    = Ret tt (mkSys (self s)
                    (mkWorld h' (kRocksDBCorruptionIndicator (world s))
                             (kDBAllowOpen (world s)) (kDBRequireWrite (world s))
                             (kDBChecking (world s)) (flags (world s))
                             (trace (world s) ++ EvRepairDB :: rest)))
    ∧ lifecycle rest = []
    ∧ if pathExists bpath (host (world s)) then
        ∃ removed h1,
          removePath bpath (host (world s)) = (removed, h1)
          ∧ if removed then
              ∃ moved, movePath path bpath h1 = (moved, h')
                       ∧ calls rest = [EvRemovePath bpath true; EvMovePath path bpath moved]
            else h' = h1 ∧ calls rest = [EvRemovePath bpath false]
      else
        ∃ moved, movePath path bpath (host (world s)) = (moved, h')
                 ∧ calls rest = [EvMovePath path bpath moved].
Proof.
  destruct s as [p [h i a r c f t]]. intros path bpath. simpl in path, bpath.
  unfold repairDB, do_removePath, do_movePath, LOG, bind, this, the_world, ret,
    modify_world. simpl. fold bpath. fold path.
  destruct (pathExists bpath h); simpl.
  - destruct (removePath bpath h) as [[|] h1] eqn:Hrm; simpl.
    + destruct (movePath path bpath h1) as [moved h2] eqn:Hmv.
      destruct moved; simpl.
      * eexists h2, _. split; [by_trace |]. split; [done |].
        exists true, h1. split; [reflexivity |]. by exists true.
      * eexists h2, _. split; [by_trace |]. split; [done |].
        exists true, h1. split; [reflexivity |]. by exists false.
    + eexists h1, _. split; [by_trace |]. split; [done |].
      by exists false, h1.
  - destruct (movePath path bpath h) as [moved h2] eqn:Hmv.
    destruct moved; simpl.
    + eexists h2, _. split; [by_trace |]. split; [done |]. by exists true.
    + eexists h2, _. split; [by_trace |]. split; [done |]. by exists false.
Qed.

(** [repairDB] ends well, on the filesystem only: it asks for the move of
    the store directory to its ".backup" sibling, unless a previous backup
    exists and cannot be removed. *)
Lemma repairDB_spec (s : Sys W) :
  let path := path_ (self s) in
  let bpath := path_ (self s) +:+ ".backup" in
  ∃ h' evs,
    repairDB s
    = Ret tt (mkSys (self s)
                    (mkWorld h' (kRocksDBCorruptionIndicator (world s))
                             (kDBAllowOpen (world s)) (kDBRequireWrite (world s))
                             (kDBChecking (world s)) (flags (world s))
                             (trace (world s) ++ EvRepairDB :: evs)))
    ∧ lifecycle evs = []
    ∧ ((∃ moved, EvMovePath path bpath moved ∈ evs)
       ∨ (EvRemovePath bpath false ∈ evs)).
Proof.
  cbv zeta.
  destruct (repairDB_calls s) as (h' & evs & Hrun & Hq & Hcalls). cbv zeta in Hcalls.
  exists h', evs. split; [exact Hrun |]. split; [exact Hq |].
  assert (∀ e l, calls evs = l → e ∈ l → e ∈ evs) as Hin.
  { intros e l <- He. unfold calls in He. by apply list_elem_of_filter in He as [_ He]. }
  destruct (pathExists _ (host (world s))).
  - destruct Hcalls as (removed & h1 & _ & Hcalls). destruct removed.
    + destruct Hcalls as (moved & _ & Hcalls). left. exists moved.
      eapply Hin; [exact Hcalls |]. apply elem_of_cons. right. apply elem_of_cons. by left.
    + destruct Hcalls as (_ & Hcalls). right.
      eapply Hin; [exact Hcalls |]. apply elem_of_cons. by left.
  - destruct Hcalls as (moved & _ & Hcalls). left. exists moved.
    eapply Hin; [exact Hcalls |]. apply elem_of_cons. by left.
Qed.

Lemma delete_handles (hs : list rocksdb.ColumnFamilyHandle) (s : Sys W) :
  for_each hs (λ handle, modify_world (emit (EvDeleteHandle handle))) s
  = Ret tt (mkSys (self s)
                  (mkWorld (host (world s)) (kRocksDBCorruptionIndicator (world s))
                           (kDBAllowOpen (world s)) (kDBRequireWrite (world s))
                           (kDBChecking (world s)) (flags (world s))
                           (trace (world s) ++ (EvDeleteHandle <$> hs)))).
Proof.
  revert s. induction hs as [|h hs IH]; intros s; simpl.
  - unfold ret. rewrite app_nil_r. by destruct s as [p []].
  - unfold bind, modify_world. simpl. rewrite IH. world_eq.
Qed.

Lemma close_spec (s : Sys W) :
  let path := path_ (self s) in
  let bpath := path_ (self s) +:+ ".backup" in
  ∃ s' evs,
    close s = Ret tt s'
    ∧ path_ (self s') = path_ (self s)
    ∧ handles_ (self s') = []
    ∧ db_ (self s') = None
    ∧ kRocksDBCorruptionIndicator (world s') = false
    ∧ added s s' ((EvDeleteHandle <$> handles_ (self s))
                  ++ match db_ (self s) with Some _ => [EvDeleteDB] | None => [] end
                  ++ evs)
    ∧ if kRocksDBCorruptionIndicator (world s) then
        ∃ rest, evs = EvRepairDB :: rest
                ∧ lifecycle rest = []
                ∧ ((∃ moved, EvMovePath path bpath moved ∈ rest)
                   ∨ EvRemovePath bpath false ∈ rest)
      else evs = [].
Proof.
  intros path bpath.
  unfold close. unfold bind at 1. unfold this at 1. unfold bind at 1.
  rewrite delete_handles.
  unfold bind at 1. unfold modify_self at 1. unfold bind at 1.
  set (s1 := mkSys (set_handles [] _) _).
  assert (∃ s2, (match db_ (self s) with
                 | Some db =>
                     modify_world (λ w, emit EvDeleteDB (set_host (DB_delete db (host w)) w));;
                     modify_self (set_db None)
                 | None => ret tt
                 end) s1 = Ret tt s2
                ∧ handles_ (self s2) = [] ∧ db_ (self s2) = None
                ∧ path_ (self s2) = path_ (self s)
                ∧ kRocksDBCorruptionIndicator (world s2)
                  = kRocksDBCorruptionIndicator (world s)
                ∧ trace (world s2)
                  = trace (world s)
                    ++ (EvDeleteHandle <$> handles_ (self s))
                    ++ match db_ (self s) with Some _ => [EvDeleteDB] | None => [] end)
    as (s2 & -> & Hhs & Hdb & Hpath & Hind & Htr).
  { destruct (db_ (self s)) as [db|] eqn:Edb.
    - eexists. split; [reflexivity |]. simpl. by rewrite <- app_assoc.
    - eexists. split; [reflexivity |]. simpl. rewrite Edb, app_nil_r. done. }
  unfold bind, isCorrupted, the_world, ret. simpl. rewrite Hind.
  destruct (kRocksDBCorruptionIndicator (world s)).
  - destruct (repairDB_spec s2) as (h' & rest & -> & Hq & Hmove).
    rewrite Hpath in Hmove. unfold setCorrupted, modify_world. simpl.
    eexists _, (EvRepairDB :: rest). split; [reflexivity |].
    split; [done |]. split; [done |]. split; [done |]. split; [done |]. split.
    + unfold added. simpl. rewrite Htr, <- !app_assoc. done.
    + by exists rest.
  - exists s2, []. split; [done |].
    split; [done |]. split; [done |]. split; [done |]. split; [done |]. split; [| done].
    unfold added. by rewrite Htr, !app_nil_r.
Qed.

(** C7 (as the code has it). [close] always ends well. It releases every
    partition handle and empties the handle array, releases the store
    handle if there is one and nulls it, and leaves the corruption
    indicator unset. When the indicator was not set it does nothing more.
    When it was set, [close] runs [repairDB] once, on the filesystem as the
    release of the store left it. If no previous backup exists, or the
    previous backup is removed, [repairDB] moves the store directory to
    its ".backup" sibling: this is the one move it asks for, and the
    filesystem after [close] is the filesystem as that move left it. If a
    previous backup exists and cannot be removed, [repairDB] asks for no
    move: the filesystem is as the failed removal left it, and the
    indicator is cleared all the same. *)
Theorem C7_close_releases_and_repairs (s : Sys W) :
  let path := path_ (self s) in
  let bpath := path_ (self s) +:+ ".backup" in
  let released :=
    match db_ (self s) with
    | Some db => DB_delete db (host (world s))
    | None => host (world s)
    end in
  ∃ s' evs,
    close s = Ret tt s'
    ∧ handles_ (self s') = []
    ∧ db_ (self s') = None
    ∧ kRocksDBCorruptionIndicator (world s') = false
    ∧ added s s' ((EvDeleteHandle <$> handles_ (self s))
                  ++ match db_ (self s) with Some _ => [EvDeleteDB] | None => [] end
                  ++ evs)
    ∧ if kRocksDBCorruptionIndicator (world s) then
        ∃ rest,
          evs = EvRepairDB :: rest
          ∧ lifecycle rest = []
          ∧ if pathExists bpath released then
              ∃ removed h1,
                removePath bpath released = (removed, h1)
                ∧ if removed then
                    ∃ moved,
                      movePath path bpath h1 = (moved, host (world s'))
                      ∧ calls rest = [EvRemovePath bpath true; EvMovePath path bpath moved]
                  else
                    host (world s') = h1
                    ∧ calls rest = [EvRemovePath bpath false]
            else
              ∃ moved,
                movePath path bpath released = (moved, host (world s'))
                ∧ calls rest = [EvMovePath path bpath moved]
      else evs = [] ∧ host (world s') = released.
Proof.
  intros path bpath released.
  unfold close. unfold bind at 1. unfold this at 1. unfold bind at 1.
  rewrite delete_handles.
  unfold bind at 1. unfold modify_self at 1. unfold bind at 1.
  set (s1 := mkSys (set_handles [] _) _).
  assert (∃ s2, (match db_ (self s) with
                 | Some db =>
                     modify_world (λ w, emit EvDeleteDB (set_host (DB_delete db (host w)) w));;
                     modify_self (set_db None)
                 | None => ret tt
                 end) s1 = Ret tt s2
                ∧ handles_ (self s2) = [] ∧ db_ (self s2) = None
                ∧ path_ (self s2) = path_ (self s)
                ∧ host (world s2) = released
                ∧ kRocksDBCorruptionIndicator (world s2)
                  = kRocksDBCorruptionIndicator (world s)
                ∧ trace (world s2)
                  = trace (world s)
                    ++ (EvDeleteHandle <$> handles_ (self s))
                    ++ match db_ (self s) with Some _ => [EvDeleteDB] | None => [] end)
    as (s2 & -> & Hhs & Hdb & Hpath & Hhost & Hind & Htr).
  { subst released. destruct (db_ (self s)) as [db|] eqn:Edb.
    - eexists. split; [reflexivity |]. simpl. by rewrite <- app_assoc.
    - eexists. split; [reflexivity |]. simpl. rewrite Edb, app_nil_r. done. }
  unfold bind, isCorrupted, the_world, ret. simpl. rewrite Hind.
  destruct (kRocksDBCorruptionIndicator (world s)).
  - destruct (repairDB_calls s2) as (h' & rest & -> & Hq & Hcalls).
    rewrite Hpath, Hhost in Hcalls. fold path bpath in Hcalls.
    unfold setCorrupted, modify_world. simpl.
    eexists _, (EvRepairDB :: rest). split; [reflexivity |].
    split; [done |]. split; [done |]. split; [done |]. split.
    + unfold added. simpl. rewrite Htr, <- !app_assoc. done.
    + exists rest. split; [done |]. split; [exact Hq | exact Hcalls].
  - exists s2, []. split; [done |].
    split; [done |]. split; [done |]. split; [done |]. split; [| done].
    unfold added. by rewrite Htr, !app_nil_r.
Qed.

(** *** Composing runs *)

Lemma ends_with_ret {A} (a : A) (s : Sys W) (Q : A → Sys W → list Event → Prop) :
  Q a s [] → ends_with (ret a) s Q.
Proof.
  intros HQ. exists a, s, []. split; [done |]. split; [| done].
  unfold added. by rewrite app_nil_r.
Qed.

Lemma ends_with_bind {A B} (m : M W A) (k : A → M W B) (s : Sys W)
      (Q1 : A → Sys W → list Event → Prop) (Q2 : B → Sys W → list Event → Prop) :
  ends_with m s Q1 →
  (∀ a s1 evs1, Q1 a s1 evs1 → ends_with (k a) s1 (λ b s2 evs2, Q2 b s2 (evs1 ++ evs2))) →
  ends_with (bind m k) s Q2.
Proof.
  intros (a & s1 & evs1 & Hm & Hadd1 & HQ1) Hk.
  destruct (Hk a s1 evs1 HQ1) as (b & s2 & evs2 & Hka & Hadd2 & HQ2).
  exists b, s2, (evs1 ++ evs2). unfold bind. rewrite Hm. split; [done |]. split; [| done].
  unfold added in *. by rewrite Hadd2, Hadd1, app_assoc.
Qed.

Lemma ends_with_weaken {A} (m : M W A) (s : Sys W)
      (Q Q' : A → Sys W → list Event → Prop) :
  ends_with m s Q → (∀ a s' evs, Q a s' evs → Q' a s' evs) → ends_with m s Q'.
Proof. intros (a & s' & evs & ? & ? & ?) HQ. exists a, s', evs. auto. Qed.

Lemma LOG_keeps (sev : Severity) (msg : string) (s : Sys W) :
  ends_with (LOG sev msg) s (λ _, keeps s []).
Proof. eexists tt, _, [_]. split; [reflexivity |]. by repeat split. Qed.

Lemma repairDB_keeps (s : Sys W) :
  ends_with repairDB s (λ _, keeps s [EvRepairDB]).
Proof.
  destruct (repairDB_spec s) as (h' & evs & Hrun & Hq & _).
  eexists tt, _, (EvRepairDB :: evs). split; [exact Hrun |].
  split; [done |]. repeat split. simpl.
  change (EvRepairDB :: evs) with ([EvRepairDB] ++ evs). by rewrite lifecycle_app, Hq.
Qed.

Lemma do_Open_keeps (s : Sys W) :
  ends_with do_Open s
            (λ st s' evs, path_ (self s') = path_ (self s)
                          ∧ ∃ cfs, lifecycle evs = [EvOpen (path_ (self s)) cfs st]).
Proof.
  unfold ends_with, do_Open, bind, this, the_world, ret, modify_world, modify_self. simpl.
  destruct (DB_Open (options_ (self s)) (path_ (self s)) (column_families_ (self s))
                    (host (world s))) as [r h] eqn:Hopen.
  simpl.
  destruct (rocksdb.info_log (options_ (self s))); simpl.
  - destruct (Logv_all_world (rocksdb.open_log r)
                (emit (EvOpen (path_ (self s))
                              (rocksdb.cfd_name <$> column_families_ (self s))
                              (rocksdb.open_status r))
                      (set_host h (world s)))) as (evs & b & -> & Hq).
    eexists _, _, (_ :: evs). split; [reflexivity |]. split.
    + unfold added. simpl. by rewrite <- app_assoc.
    + split; [done |]. eexists.
      change (?e :: evs) with ([e] ++ evs). by rewrite lifecycle_app, Hq.
  - eexists _, _, [_]. split; [reflexivity |]. split; [done |]. split; [done |].
    by eexists.
Qed.

Lemma do_platformChmod_quiet (path : string) (s : Sys W) :
  ends_with (do_platformChmod path) s (λ _ _ evs, lifecycle evs = []).
Proof.
  unfold ends_with, do_platformChmod, bind, the_world, ret, modify_world. simpl.
  destruct (platformChmod path _) as [r h]. simpl.
  eexists _, _, [_]. split; [reflexivity |]. by split.
Qed.

Lemma lifecycle_delete_handles (hs : list rocksdb.ColumnFamilyHandle) :
  lifecycle (EvDeleteHandle <$> hs) = [].
Proof.
  unfold lifecycle. induction hs as [|h hs IH]; [done |].
  rewrite fmap_cons, filter_cons. simpl. done.
Qed.

Lemma close_keeps (s : Sys W) :
  ends_with close s
            (λ _ s' evs,
               path_ (self s') = path_ (self s)
               ∧ lifecycle evs
                 = if kRocksDBCorruptionIndicator (world s) then [EvRepairDB] else []).
Proof.
  destruct (close_spec s) as (s' & evs & Hrun & Hpath & _ & _ & _ & Hadd & Hevs).
  eexists tt, s', _. split; [exact Hrun |]. split; [exact Hadd |]. split; [done |].
  rewrite !lifecycle_app, lifecycle_delete_handles. simpl.
  assert (lifecycle (match db_ (self s) with Some _ => [EvDeleteDB] | None => [] end) = [])
    as -> by (by destruct (db_ (self s))).
  simpl. destruct (kRocksDBCorruptionIndicator (world s)).
  - destruct Hevs as (rest & -> & Hq & _).
    change (EvRepairDB :: rest) with ([EvRepairDB] ++ rest). by rewrite lifecycle_app, Hq.
  - by rewrite Hevs.
Qed.

Lemma ends_with_the_world {A} (k : World W → M W A) (s : Sys W)
      (Q : A → Sys W → list Event → Prop) :
  ends_with (k (world s)) s Q → ends_with (bind the_world k) s Q.
Proof. exact id. Qed.

Lemma ends_with_this {A} (k : Plugin → M W A) (s : Sys W)
      (Q : A → Sys W → list Event → Prop) :
  ends_with (k (self s)) s Q → ends_with (bind this k) s Q.
Proof. exact id. Qed.

Lemma quiet_bind {A B} (m : M W A) (k : A → M W B) (s : Sys W) :
  ends_with m s quiet → (∀ a s1, ends_with (k a) s1 quiet) → ends_with (bind m k) s quiet.
Proof.
  intros Hm Hk. eapply ends_with_bind; [exact Hm |].
  intros a s1 evs1 Hq1. eapply ends_with_weaken; [apply Hk |].
  intros b s2 evs2 Hq2. unfold quiet in *. by rewrite lifecycle_app, Hq1, Hq2.
Qed.

Lemma quiet_ret {A} (a : A) (s : Sys W) : ends_with (ret a) s quiet.
Proof. by apply ends_with_ret. Qed.

Lemma quiet_LOG (sev : Severity) (msg : string) (s : Sys W) :
  ends_with (LOG sev msg) s quiet.
Proof. eapply ends_with_weaken; [apply LOG_keeps |]. by intros ? ? ? (_ & _ & ?). Qed.

Lemma quiet_modify_self (f : Plugin → Plugin) (s : Sys W) :
  ends_with (modify_self f) s quiet.
Proof. eexists tt, _, []. split; [reflexivity |]. split; [| done].
       unfold added. simpl. by rewrite app_nil_r. Qed.

Lemma modify_self_keeps (f : Plugin → Plugin) (s : Sys W) :
  path_ (f (self s)) = path_ (self s) → ends_with (modify_self f) s (λ _, keeps s []).
Proof.
  intros Hf. eexists tt, _, []. split; [reflexivity |]. split; [| done].
  unfold added. simpl. by rewrite app_nil_r.
Qed.

(** The part of [setUp] that follows the attempts to open the store. *)
Lemma after_open_quiet (w : World W) (st : rocksdb.Status) (s : Sys W) :
  ends_with
    (p <- this;
     failed <-
       (if negb (rocksdb.ok st) || bool_decide (db_ p = None) then
          LOG INFO ("Rocksdb open failed (" +:+ pretty (rocksdb.code_num (rocksdb.code st))
                    +:+ ":" +:+ pretty (rocksdb.subcode st) +:+ ") "
                    +:+ rocksdb.ToString st);;
          if kDBRequireWrite w then
            ret (Some (mkStatus 1 (rocksdb.ToString st)))
          else
            (if negb (kDBChecking w)
             then LOG INFO "Opening RocksDB failed: Continuing with read-only support"
             else ret tt);;
            modify_world (emit (EvFlagUpdate "disable_events" "true"));;
            modify_self (set_read_only true);;
            ret None
        else ret None);
     match failed with
     | Some status => ret status
     | None =>
         p <- this;
         if read_only_ p then ret (Status_of_code 0)
         else
           changed <- do_platformChmod (path_ p);
           if negb changed
           then ret (mkStatus 1 ("Cannot set permissions on RocksDB path: " +:+ path_ p))
           else ret (Status_of_code 0)
     end) s quiet.
Proof.
  apply ends_with_this. apply quiet_bind.
  - destruct (_ || _); [| apply quiet_ret].
    apply quiet_bind; [apply quiet_LOG |]. intros _ s1.
    destruct (kDBRequireWrite w); [apply quiet_ret |].
    apply quiet_bind; [destruct (negb _); [apply quiet_LOG | apply quiet_ret] |].
    intros _ s2. apply quiet_bind.
    { eexists tt, _, [_]. split; [reflexivity |]. by split. }
    intros _ s3. apply quiet_bind; [apply quiet_modify_self |].
    intros _ s4. apply quiet_ret.
  - intros [status|] s1; [apply quiet_ret |].
    apply ends_with_this. destruct (read_only_ (self s1)); [apply quiet_ret |].
    apply quiet_bind; [apply do_platformChmod_quiet |].
    intros changed s2. destruct (negb changed); apply quiet_ret.
Qed.

Lemma setUp_spec (s : Sys W) : ends_with setUp s (λ _ _ evs, setUp_shape s evs).
Proof.
  unfold setUp. apply ends_with_the_world.
  eapply (ends_with_bind _ _ _ (λ _, keeps s [])).
  { destruct (negb _); [apply LOG_keeps | by apply ends_with_ret]. }
  intros _ s1 evs1 (Hp1 & Hi1 & Hq1). apply ends_with_this.
  eapply (ends_with_bind _ _ _ (λ _, keeps s1 [])).
  { destruct (negb _); [by apply modify_self_keeps | by apply ends_with_ret]. }
  intros _ s2 evs2 (Hp2 & Hi2 & Hq2).
  eapply (ends_with_bind _ _ _
            (λ _ s' evs, path_ (self s') = FLAGS_database_path (flags (world s))
                         ∧ kRocksDBCorruptionIndicator (world s')
                           = kRocksDBCorruptionIndicator (world s2)
                         ∧ lifecycle evs = [])).
  { eexists tt, _, []. split; [reflexivity |]. split; [| done].
    unfold added. simpl. by rewrite app_nil_r. }
  intros _ s3 evs3 (Hp3 & Hi3 & Hq3). apply ends_with_this.
  unfold setUp_shape. rewrite Hp3.
  destruct (pathExists _ _ && negb _).
  { apply ends_with_ret. by rewrite !lifecycle_app, Hq1, Hq2, Hq3. }
  eapply (ends_with_bind _ _ _ (λ _, keeps s3 [])).
  { destruct (negb _); [apply LOG_keeps | by apply ends_with_ret]. }
  intros _ s4 evs4 (Hp4 & Hi4 & Hq4).
  eapply ends_with_bind; [apply close_keeps |].
  intros _ s5 evs5 (Hp5 & Hq5).
  rewrite Hi4, Hi3, Hi2, Hi1 in Hq5.
  eapply ends_with_bind; [apply do_Open_keeps |].
  intros st s6 evs6 (Hp6 & cfs & Hq6).
  rewrite Hp5, Hp4, Hp3 in Hp6, Hq6.
  destruct (rocksdb.IsCorruption st) eqn:Hcorrupt.
  - eapply ends_with_bind.
    { eapply ends_with_bind; [apply repairDB_keeps |].
      intros _ s7 evs7 (Hp7 & _ & Hq7).
      eapply ends_with_weaken; [apply do_Open_keeps |].
      intros st' s8 evs8 (Hp8 & cfs' & Hq8).
      rewrite Hp7, Hp6 in Hq8.
      instantiate (1 := λ _ _ evs, ∃ cfs' st',
                           lifecycle evs
                           = [EvRepairDB;
                              EvOpen (FLAGS_database_path (flags (world s))) cfs' st']).
      simpl. exists cfs', st'. by rewrite lifecycle_app, Hq7, Hq8. }
    intros st' s7 evs7 (cfs' & st'' & Hq7).
    eapply ends_with_weaken; [apply after_open_quiet |].
    intros status s8 evs8 Hq8. right. exists cfs, st, cfs', st''. split; [| done].
    rewrite !lifecycle_app, Hq1, Hq2, Hq3, Hq4, Hq5, Hq6, Hq7, Hq8. simpl.
    done.
  - eapply (ends_with_bind _ _ _ quiet); [apply quiet_ret |].
    intros st' s7 evs7 Hq7.
    eapply ends_with_weaken; [apply after_open_quiet |].
    intros status s8 evs8 Hq8. left. exists cfs, st. split; [| done].
    rewrite !lifecycle_app, Hq1, Hq2, Hq3, Hq4, Hq5, Hq6, Hq7, Hq8. simpl.
    done.
Qed.

(** C6 (as the code has it). [setUp] always ends well. When the path exists and is
    not readable it neither opens nor repairs. Otherwise its open step
    opens the store, and runs [repairDB] and opens a second and last time
    exactly when the first attempt reports corruption; a first attempt
    that fails otherwise leads to no repair by the open step. Before
    that, the [close] at the head of [setUp] runs [repairDB] once of its
    own when the corruption indicator is set on entry: a call makes at
    most two attempts to open and at most two repairs. *)
Theorem C6_setUp_opens_at_most_twice (s : Sys W) :
  let path := FLAGS_database_path (flags (world s)) in
  let in_close := if kRocksDBCorruptionIndicator (world s) then [EvRepairDB] else [] in
  ∃ status s' evs,
    setUp s = Ret status s'
    ∧ added s s' evs
    ∧ if pathExists path (host (world s)) && negb (isReadable path (host (world s)))
      then lifecycle evs = []
      else (∃ cfs st,
              lifecycle evs = in_close ++ [EvOpen path cfs st]
              ∧ rocksdb.IsCorruption st = false)
           ∨ (∃ cfs st cfs' st',
                lifecycle evs
                = in_close ++ [EvOpen path cfs st; EvRepairDB; EvOpen path cfs' st']
                ∧ rocksdb.IsCorruption st = true).
Proof. exact (setUp_spec s). Qed.

End LifeCycle.

(** * The properties at work

    Each property above that has premises, applied on the sample host; and
    the inputs at which the plugin departs from what was expected of it. *)

Section AtWork.

Import Sample.

Ltac by_decide := refine (bool_decide_unpack _ _); vm_compute; exact I.

Lemma C1_witness :
  "configurations" ∈ kDomains
  ∧ "configurations" ≠ rocksdb.kDefaultColumnFamilyName
  ∧ rocksdb.cfh_name <$> handles_ (self opened) = rocksdb.kDefaultColumnFamilyName :: kDomains
  ∧ ∃ cfh, getHandleForColumnFamily "configurations" opened = Ret (Some cfh) opened
           ∧ rocksdb.cfh_name cfh = "default"
           ∧ rocksdb.cfh_name cfh ≠ "configurations".
Proof.
  assert ("configurations" ∈ kDomains) as H1 by by_decide.
  assert ("configurations" ≠ rocksdb.kDefaultColumnFamilyName) as H2 by by_decide.
  assert (rocksdb.cfh_name <$> handles_ (self opened)
          = rocksdb.kDefaultColumnFamilyName :: kDomains) as H3 by (vm_compute; reflexivity).
  split; [exact H1 |]. split; [exact H2 |]. split; [exact H3 |].
  destruct (C1_router_resolves_one_slot_early opened "configurations" H1 H2 H3)
    as (cfh & Hrun & Hslot & Hne).
  exists cfh. split; [exact Hrun |]. split; [| exact Hne].
  vm_compute in Hslot. injection Hslot as Hname. symmetry. exact Hname.
Defined.

Lemma C2_witness :
  writable abcd abcd_db
  ∧ resolves abcd "logs" logs_handle
  ∧ ∃ s' db', removeRange "logs" "a" "c" abcd = Ret (mkStatus 0 "OK") s'
              ∧ db_ (self s') = Some db'
              ∧ rocksdb.keys (rocksdb.table_of db' logs_handle) = ["d"].
Proof.
  assert (writable abcd abcd_db) as H1 by (split; vm_compute; reflexivity).
  assert (resolves abcd "logs" logs_handle) as H2 by (vm_compute; reflexivity).
  split; [exact H1 |]. split; [exact H2 |].
  destruct (C2_removeRange_deletes_the_closed_interval abcd abcd_db "logs" "a" "c"
              logs_handle H1 H2) as (status & s' & Hrun & _ & Hok).
  destruct (Hok eq_refl) as (-> & db' & Hdb' & Htable & _).
  exists s', db'. split; [exact Hrun |]. split; [exact Hdb' |].
  rewrite Htable. vm_compute. reflexivity.
Defined.

Lemma C3_witness :
  read_only_ (self degraded) = true
  ∧ put "logs" "k" "v" degraded = Ret (mkStatus 0 "Database in readonly mode") degraded
  ∧ remove "no such domain" "k" degraded
    = Ret (mkStatus 0 "Database in readonly mode") degraded
  ∧ get "logs" "k" "" (final (put "logs" "k" "v" degraded))
    = Ret (mkStatus 1 "Database not opened", "") degraded.
Proof.
  assert (read_only_ (self degraded) = true) as H1 by (vm_compute; reflexivity).
  split; [exact H1 |].
  destruct (C3_read_only_writes_are_no_ops degraded "logs" "k" "v" "" "" 0 [] H1)
    as (Hput & _ & _ & _ & _ & _ & _ & Hclosed).
  destruct (C3_read_only_writes_are_no_ops degraded "no such domain" "k" "v" "" "" 0 [] H1)
    as (_ & _ & _ & Hremove & _).
  split; [exact Hput |]. split; [exact Hremove |].
  apply Hclosed. vm_compute. reflexivity.
Defined.

Lemma C4_witness :
  writable opened opened_db
  ∧ resolves opened "events" events_handle
  ∧ added opened (final (putBatch "events" [("k", "v")] opened))
          [EvWrite (rocksdb.mkWriteOptions false true) [rocksdb.mkPut events_handle "k" "v"]]
  ∧ added opened (final (remove "events" "k" opened))
          [EvDelete (rocksdb.mkWriteOptions false false) events_handle "k"].
Proof.
  assert (writable opened opened_db) as H1 by (split; vm_compute; reflexivity).
  assert (resolves opened "events" events_handle) as H2 by (vm_compute; reflexivity).
  split; [exact H1 |]. split; [exact H2 |].
  destruct (C4_durability_by_domain_and_operation opened opened_db "events" "k" "" ""
              events_handle [("k", "v")] H1 H2) as (Hput & Hremove & _).
  split; [exact Hput | exact Hremove].
Defined.

Lemma C5_witness :
  db_ (self a123) = Some a123_db
  ∧ resolves a123 "logs" logs_handle
  ∧ (2 ≤ SIZE_MAX)%N
  ∧ rocksdb.wf a123_db
  ∧ scan "logs" [] "a" 2 a123 = Ret (mkStatus 0 "OK", ["a1"; "a2"]) a123
  ∧ StronglySorted Str.lt ["a1"; "a2"].
Proof.
  assert (db_ (self a123) = Some a123_db) as H1 by (vm_compute; reflexivity).
  assert (resolves a123 "logs" logs_handle) as H2 by (vm_compute; reflexivity).
  assert (2 ≤ SIZE_MAX)%N as H3 by (unfold SIZE_MAX; lia).
  assert (rocksdb.wf a123_db) as H4 by by_decide.
  split; [exact H1 |]. split; [exact H2 |]. split; [exact H3 |]. split; [exact H4 |].
  destruct (C5_scan_returns_the_first_matches_in_key_order a123 a123_db "logs" "a"
              logs_handle [] 2 H1 H2 H3) as (Hscan & _ & Hsorted).
  split.
  - rewrite Hscan. vm_compute. reflexivity.
  - apply Hsorted in H4. vm_compute in H4. exact H4.
Defined.

Lemma C8_witness :
  writable on_full_disk on_full_disk_db
  ∧ resolves on_full_disk "logs" logs_handle
  ∧ rocksdb.code (rocksdb.medium on_full_disk_db) = rocksdb.kIOError
  ∧ ∃ s', remove "logs" "k" on_full_disk
          = Ret (mkStatus 5 "IO error: While appending to file: /var/osquery/osquery.db/000003.log: No space left on device") s'.
Proof.
  assert (writable on_full_disk on_full_disk_db) as H1 by (split; vm_compute; reflexivity).
  assert (resolves on_full_disk "logs" logs_handle) as H2 by (vm_compute; reflexivity).
  assert (rocksdb.code (rocksdb.medium on_full_disk_db) = rocksdb.kIOError) as H3
    by (vm_compute; reflexivity).
  split; [exact H1 |]. split; [exact H2 |]. split; [exact H3 |].
  destruct (C8_delete_commits_surface_the_full_engine_text on_full_disk on_full_disk_db
              "logs" "k" "" "" logs_handle H1 H2 H3) as (Hremove & _).
  exact Hremove.
Defined.

Lemma C10_witness :
  db_ (self (start ∅ false)) = None
  ∧ handles_ (self (start ∅ false)) = []
  ∧ read_only_ (self (start ∅ false)) = false
  ∧ "logs" ∈ kDomains
  ∧ length kDomains ≤ length (handles_ (self opened))
  ∧ get "logs" "k" "" (start ∅ false)
    = Ret (mkStatus 1 "Database not opened", "") (start ∅ false)
  ∧ putBatch "logs" [("k", "v")] (start ∅ false) = Crash OutOfBounds (start ∅ false).
Proof.
  assert ("logs" ∈ kDomains) as H4 by by_decide.
  assert (length kDomains ≤ length (handles_ (self opened))) as H5 by (vm_compute; lia).
  split; [reflexivity |]. split; [reflexivity |]. split; [reflexivity |].
  split; [exact H4 |]. split; [exact H5 |].
  destruct (C10_writes_do_not_check_for_a_closed_engine
              (start ∅ false) "logs" "k" "" "" "" "" [("k", "v")] [] 0
              (handles_ (self opened)) eq_refl eq_refl eq_refl H4 H5)
    as (Hget & _ & _ & Hput & _).
  split; [exact Hget | exact Hput].
Defined.

(** On the sample host the router hands each domain the handle of the
    column family listed before its own. *)
Example router_on_the_sample_domains :
  (λ d, rocksdb.cfh_name <$> default None (returned (getHandleForColumnFamily d opened)))
    <$> kDomains
  = [Some "default"; Some "configurations"; Some "queries"; Some "events"; Some "logs"].
Proof. vm_compute. reflexivity. Qed.

(** A range whose lower end is above its upper end removes nothing. *)
Example removeRange_c_a_keeps_all_four :
  ∃ s' db', removeRange "logs" "c" "a" abcd = Ret (mkStatus 0 "OK") s'
            ∧ db_ (self s') = Some db'
            ∧ rocksdb.keys (rocksdb.table_of db' logs_handle) = ["a"; "b"; "c"; "d"].
Proof. eexists _, _. vm_compute. repeat split; reflexivity. Qed.

(** On the sample host, with the indicator set, [close] moves the store
    directory to its ".backup" sibling and clears the indicator. *)
Example close_quarantines_the_store :
  let s' := final (close flagged) in
  dom (host (world flagged)) = {[ store_path ]}
  ∧ dom (host (world s')) = {[ store_path +:+ ".backup" ]}
  ∧ kRocksDBCorruptionIndicator (world s') = false
  ∧ handles_ (self s') = [] ∧ db_ (self s') = None.
Proof. vm_compute. repeat split; reflexivity. Qed.

(** On the store of the full disk [putBatch] trims the text of the
    engine, which [remove] and [removeRange] hand back whole. *)
Example putBatch_trims_the_engine_text :
  returned (putBatch "logs" [("k", "v")] on_full_disk)
  = Some (mkStatus 5 "IOError: No space left on device").
Proof. vm_compute. reflexivity. Qed.

(** C3 does not hold as the specification words it: in the read-only mode
    that [setUp] leaves behind when the store cannot be opened there is no
    store handle, and the [get] that follows a write returns the "Database
    not opened" error, which is not the NotFound status of the engine. *)
Lemma C3_counterexample :
  read_only_ (self degraded) = true
  ∧ put "logs" "k" "v" degraded = Ret (mkStatus 0 "Database in readonly mode") degraded
  ∧ returned (get "logs" "k" "" (final (put "logs" "k" "v" degraded)))
    = Some (mkStatus 1 "Database not opened", "")
  ∧ mkStatus 1 "Database not opened" ≠ Status_of_engine rocksdb.NotFound.
Proof.
  split; [vm_compute; reflexivity |]. split; [vm_compute; reflexivity |].
  split; [vm_compute; reflexivity |]. vm_compute. discriminate.
Qed.

(** C4 does not hold as the specification words it: the delete commits of
    the events domain leave the write-ahead log enabled. *)
Lemma C4_counterexample :
  kEvents = "events"
  ∧ writable opened opened_db
  ∧ resolves opened "events" events_handle
  ∧ ∃ o, added opened (final (remove "events" "k" opened)) [EvDelete o events_handle "k"]
         ∧ added opened (final (removeRange "events" "a" "b" opened))
                 [EvDeleteRange o events_handle "a" "b"; EvDelete o events_handle "b"]
         ∧ rocksdb.disableWAL o = false.
Proof.
  split; [reflexivity |]. split; [split; vm_compute; reflexivity |].
  split; [vm_compute; reflexivity |].
  exists (rocksdb.mkWriteOptions false false).
  split; [vm_compute; reflexivity |]. split; [vm_compute; reflexivity | reflexivity].
Qed.

(** C6 does not hold as the specification words it: with the corruption
    indicator set on entry, [setUp] repairs although its first attempt to
    open reports no corruption, and repairs twice when that attempt does
    report it. *)
Lemma C6_counterexample :
  kRocksDBCorruptionIndicator (world (start healthy true)) = true
  ∧ lifecycle (trace (world (final (setUp (start healthy true)))))
    = [EvRepairDB; EvOpen store_path store_families rocksdb.OK]
  ∧ lifecycle (trace (world (final (setUp (start corrupt_pinned true)))))
    = [EvRepairDB; EvOpen store_path store_families corruption;
       EvRepairDB; EvOpen store_path store_families corruption].
Proof. repeat split; vm_compute; reflexivity. Qed.

(** C7 does not hold as the specification words it: with the corruption
    indicator set, [close] on a healthy store that sits beside a previous
    backup that cannot be removed runs [repairDB], which asks for no move;
    the store directory is still at its path, the backup is the old one,
    and the indicator is cleared. No move has failed: none was asked for. *)
Lemma C7_counterexample :
  let s' := final (close flagged_stuck) in
  kRocksDBCorruptionIndicator (world flagged_stuck) = true
  ∧ close flagged_stuck = Ret tt s'
  ∧ kRocksDBCorruptionIndicator (world s') = false
  ∧ calls (drop (length (trace (world flagged_stuck))) (trace (world s')))
    = (EvDeleteHandle <$> handles_ (self flagged_stuck))
      ++ [EvDeleteDB; EvRepairDB; EvRemovePath (store_path +:+ ".backup") false]
  ∧ pathExists store_path (host (world s')) = true
  ∧ host (world s') !! (store_path +:+ ".backup")
    = stuck_backup !! (store_path +:+ ".backup").
Proof. vm_compute. repeat split; reflexivity. Qed.

(** C9 does not hold as the specification words it: an error line that
    contains the marker past its 499th character does not set the
    indicator. *)
Lemma C9_counterexample :
  level_ok long_line
  ∧ Str.contains long_line "Corruption:"
  ∧ kRocksDBCorruptionIndicator (world0 ∅ false) = false
  ∧ kRocksDBCorruptionIndicator (Logv long_line (world0 ∅ false)) = false.
Proof.
  split; [split; [| left]; vm_compute; reflexivity |].
  split; [exists ("[E" +:+ padding 500), ""; vm_compute; reflexivity |].
  split; vm_compute; reflexivity.
Qed.

End AtWork.

(** * Further properties *)

(** ** Records of a table *)

Section TableFacts.

Lemma find_key_cons (k k' v' : string) (t : rocksdb.Table) :
  rocksdb.table_get k ((k', v') :: t)
  = if decide (k' = k) then Some v' else rocksdb.table_get k t.
Proof.
  unfold rocksdb.table_get. simpl.
  destruct (decide (k' = k)) as [->|Hne].
  - by rewrite String.eqb_refl.
  - apply String.eqb_neq in Hne. by rewrite Hne.
Qed.

Lemma table_get_put_eq (k v : string) (t : rocksdb.Table) :
  rocksdb.table_get k (rocksdb.table_put k v t) = Some v.
Proof.
  induction t as [|[k' v'] t IH]; simpl.
  - by rewrite find_key_cons, decide_True.
  - destruct (String.compare k k') eqn:E.
    + by rewrite find_key_cons, decide_True.
    + by rewrite find_key_cons, decide_True.
    + rewrite find_key_cons, decide_False; [done |].
      intros ->. by rewrite compare_refl in E.
Qed.

Lemma table_get_put_ne (k k' v : string) (t : rocksdb.Table) :
  k' ≠ k → rocksdb.table_get k' (rocksdb.table_put k v t) = rocksdb.table_get k' t.
Proof.
  intros Hne. induction t as [|[k0 v0] t IH]; simpl.
  - by rewrite find_key_cons, decide_False.
  - destruct (String.compare k k0) eqn:E.
    + apply String.compare_eq_iff in E as <-.
      by rewrite !find_key_cons, !decide_False.
    + by rewrite (find_key_cons k' k), decide_False.
    + rewrite !find_key_cons. by destruct (decide (k0 = k')).
Qed.

(** Looking a key up after the records whose key fails [Q] are gone. *)
Lemma table_get_filter (Q : string → Prop) `{!∀ k, Decision (Q k)}
      (k : string) (t : rocksdb.Table) :
  rocksdb.table_get k (filter (λ e, Q (fst e)) t)
  = if decide (Q k) then rocksdb.table_get k t else None.
Proof.
  induction t as [|[k' v'] t IH]; simpl.
  - by destruct (decide (Q k)).
  - rewrite filter_cons. simpl. destruct (decide (Q k')) as [Hq|Hq].
    + rewrite !find_key_cons, IH. destruct (decide (k' = k)) as [->|Hne]; [| done].
      by destruct (decide (Q k)).
    + rewrite find_key_cons, IH. destruct (decide (k' = k)) as [->|Hne]; [| done].
      by destruct (decide (Q k)).
Qed.

Lemma table_get_delete (k k' : string) (t : rocksdb.Table) :
  rocksdb.table_get k' (rocksdb.table_delete k t)
  = if decide (k' = k) then None else rocksdb.table_get k' t.
Proof.
  unfold rocksdb.table_delete.
  etrans; [exact (table_get_filter (λ x, x ≠ k) k' t) |].
  destruct (decide (k' = k)) as [->|Hne].
  - by rewrite decide_False by auto.
  - by rewrite decide_True.
Qed.

Lemma table_put_keys_iff (k v : string) (t : rocksdb.Table) (x : string) :
  x ∈ rocksdb.keys (rocksdb.table_put k v t) ↔ x = k ∨ x ∈ rocksdb.keys t.
Proof.
  unfold rocksdb.keys. induction t as [|[k' v'] t IH]; simpl.
  - rewrite list_elem_of_singleton, elem_of_nil. tauto.
  - destruct (String.compare k k') eqn:E; simpl; rewrite !elem_of_cons.
    + apply String.compare_eq_iff in E as <-. tauto.
    + tauto.
    + rewrite IH. tauto.
Qed.

Lemma sorted_NoDup (t : rocksdb.Table) : rocksdb.sorted t → NoDup (rocksdb.keys t).
Proof.
  unfold rocksdb.sorted. induction 1 as [|x l Hs IH Hx]; constructor; [| done].
  intros Hin. rewrite Forall_forall in Hx. by apply Hx, lt_neq in Hin.
Qed.

Lemma table_get_None (k : string) (t : rocksdb.Table) :
  rocksdb.table_get k t = None ↔ k ∉ rocksdb.keys t.
Proof.
  unfold rocksdb.keys. induction t as [|[k' v'] t IH].
  - split; [intros _; apply not_elem_of_nil | done].
  - rewrite find_key_cons, fmap_cons, not_elem_of_cons. simpl.
    destruct (decide (k' = k)) as [->|Hne]; [split; [done | tauto] |].
    rewrite IH. split; [auto | tauto].
Qed.

End TableFacts.

(** ** Reading what was written *)

Section StoreRoundTrips.

Context {W : Type} `{!Host W} `{!Domains}.

(** [get] on an open engine and a domain that resolves is the lookup in
    the domain's table. *)
Lemma get_lookup (s : Sys W) (db : rocksdb.DB) (domain key v0 : string)
      (cfh : rocksdb.ColumnFamilyHandle) :
  db_ (self s) = Some db →
  resolves s domain cfh →
  get domain key v0 s
  = Ret (match rocksdb.table_get key (rocksdb.table_of db cfh) with
         | Some v => (mkStatus 0 "OK", v)
         | None => (mkStatus 1 "NotFound: ", v0)
         end) s.
Proof.
  intros Hdb Hres. unfold get, getDB, bind, this, ret. simpl. rewrite Hdb, Hres.
  unfold rocksdb.Get. by destruct (rocksdb.table_get _ _).
Qed.

(** The state [putBatch] leaves when the commit goes through. *)
Lemma putBatch_ok (s : Sys W) (db : rocksdb.DB) (domain : string)
      (cfh : rocksdb.ColumnFamilyHandle) (data : list (string * string)) :
  writable s db →
  resolves s domain cfh →
  rocksdb.ok (rocksdb.medium db) = true →
  let o := rocksdb.mkWriteOptions (bool_decide (kEvents ≠ domain))
                                  (bool_decide (kEvents = domain)) in
  let batch := (λ p, rocksdb.mkPut cfh (fst p) (snd p)) <$> data in
  putBatch domain data s
  = Ret (mkStatus 0 "OK")
        (mkSys (set_db (Some (rocksdb.apply_batch batch db)) (self s))
               (emit (EvWrite o batch) (world s))).
Proof.
  intros Hw Hres Hok o batch.
  rewrite (putBatch_commit s db domain cfh) by done.
  unfold rocksdb.Write. rewrite commit_ok by done. done.
Qed.

Lemma remove_ok (s : Sys W) (db : rocksdb.DB) (domain key : string)
      (cfh : rocksdb.ColumnFamilyHandle) :
  writable s db →
  resolves s domain cfh →
  rocksdb.ok (rocksdb.medium db) = true →
  let o := rocksdb.mkWriteOptions (bool_decide (kEvents ≠ domain)) false in
  remove domain key s
  = Ret (mkStatus 0 "OK")
        (mkSys (set_db (Some (rocksdb.update_table db cfh (rocksdb.table_delete key)))
                       (self s))
               (emit (EvDelete o cfh key) (world s))).
Proof.
  intros Hw Hres Hok o.
  rewrite (remove_commit s db domain key cfh) by done.
  unfold rocksdb.Delete. rewrite commit_ok by done. done.
Qed.

(** X1. On a writable engine whose commits go through, [put] followed by
    [get] of the same domain and key returns OK and the value put, the
    empty string included, whatever was stored before and whatever the
    caller's variable held. *)
Theorem put_then_get (s : Sys W) (db : rocksdb.DB) (domain key value : string)
        (cfh : rocksdb.ColumnFamilyHandle) :
  writable s db →
  resolves s domain cfh →
  rocksdb.ok (rocksdb.medium db) = true →
  ∃ s', put domain key value s = Ret (mkStatus 0 "OK") s'
        ∧ ∀ v0, get domain key v0 s' = Ret (mkStatus 0 "OK", value) s'.
Proof.
  intros Hw Hres Hok. unfold put.
  rewrite (putBatch_ok s db domain cfh) by done.
  eexists. split; [reflexivity |]. intros v0.
  erewrite get_lookup; [| reflexivity | by eapply resolves_handles; [| exact Hres]].
  simpl. by rewrite table_of_update, decide_True, table_get_put_eq.
Qed.

(** X2. Writing a key twice keeps the second value. *)
Theorem put_twice_keeps_the_last (s : Sys W) (db : rocksdb.DB)
        (domain key v1 v2 : string) (cfh : rocksdb.ColumnFamilyHandle) :
  writable s db →
  resolves s domain cfh →
  rocksdb.ok (rocksdb.medium db) = true →
  ∃ s1 s2, put domain key v1 s = Ret (mkStatus 0 "OK") s1
           ∧ put domain key v2 s1 = Ret (mkStatus 0 "OK") s2
           ∧ ∀ v0, get domain key v0 s2 = Ret (mkStatus 0 "OK", v2) s2.
Proof.
  intros Hw Hres Hok. unfold put.
  rewrite (putBatch_ok s db domain cfh) by done.
  eexists _, _. split; [reflexivity |].
  erewrite putBatch_ok;
    [| split; [reflexivity | apply Hw] | by eapply resolves_handles; [| exact Hres] | done].
  split; [reflexivity |]. intros v0.
  erewrite get_lookup; [| reflexivity | by eapply resolves_handles; [| exact Hres]].
  simpl. by rewrite table_of_update, decide_True, table_get_put_eq.
Qed.

End StoreRoundTrips.

(** ** What the store operations leave alone *)

Section StoreFrames.

Context {W : Type} `{!Host W} `{!Domains}.

Lemma scan_all (s : Sys W) (db : rocksdb.DB) (domain : string)
      (cfh : rocksdb.ColumnFamilyHandle) (results : list string) :
  db_ (self s) = Some db →
  resolves s domain cfh →
  scan domain results "" 0 s
  = Ret (mkStatus 0 "OK", results ++ rocksdb.keys (rocksdb.table_of db cfh)) s.
Proof.
  intros Hdb Hres. unfold scan, getDB, bind, this, ret. simpl. rewrite Hdb, Hres. simpl.
  rewrite scan_loop_spec by (unfold SIZE_MAX; lia). simpl.
  do 3 f_equal. induction (rocksdb.keys _) as [|x l IH]; [done |].
  rewrite filter_cons. destruct x; simpl; by rewrite IH.
Qed.

(** X3. After a [put], a scan of the whole domain lists the key put
    and the keys that were there, each key once. *)
Theorem put_then_scan (s : Sys W) (db : rocksdb.DB) (domain key value : string)
        (cfh : rocksdb.ColumnFamilyHandle) :
  writable s db →
  resolves s domain cfh →
  rocksdb.ok (rocksdb.medium db) = true →
  rocksdb.wf db →
  ∃ s' listed,
    put domain key value s = Ret (mkStatus 0 "OK") s'
    ∧ scan domain [] "" 0 s' = Ret (mkStatus 0 "OK", listed) s'
    ∧ NoDup listed
    ∧ ∀ k, k ∈ listed ↔ k = key ∨ k ∈ rocksdb.keys (rocksdb.table_of db cfh).
Proof.
  intros Hw Hres Hok Hwf. unfold put.
  rewrite (putBatch_ok s db domain cfh) by done.
  eexists _, _. split; [reflexivity |].
  erewrite scan_all; [| reflexivity | by eapply resolves_handles; [| exact Hres]].
  split; [reflexivity |]. simpl. rewrite table_of_update, decide_True by done.
  split.
  - apply sorted_NoDup, table_put_sorted. unfold rocksdb.table_of.
    destruct (rocksdb.tables db !! rocksdb.cfh_name cfh) as [t|] eqn:E; simpl.
    + by eapply Hwf.
    + constructor.
  - intros k. apply table_put_keys_iff.
Qed.

(** X4. [get] of a key that is not stored returns the NotFound status of
    the engine, code 1 with the text "NotFound: ", and leaves the caller's
    variable as it was. *)
Theorem get_of_a_missing_key (s : Sys W) (db : rocksdb.DB) (domain key v0 : string)
        (cfh : rocksdb.ColumnFamilyHandle) :
  db_ (self s) = Some db →
  resolves s domain cfh →
  key ∉ rocksdb.keys (rocksdb.table_of db cfh) →
  get domain key v0 s = Ret (mkStatus 1 "NotFound: ", v0) s.
Proof.
  intros Hdb Hres Hkey. rewrite (get_lookup s db domain key v0 cfh) by done.
  apply table_get_None in Hkey. by rewrite Hkey.
Qed.

(** X5. A [put] changes what [get] returns for its own domain and key
    only: another key of the domain, and any key of a domain that resolves
    to another column family, read as before. *)
Theorem put_leaves_the_other_records (s : Sys W) (db : rocksdb.DB)
        (domain key value domain' key' v0 : string)
        (cfh cfh' : rocksdb.ColumnFamilyHandle) :
  writable s db →
  resolves s domain cfh →
  resolves s domain' cfh' →
  rocksdb.ok (rocksdb.medium db) = true →
  rocksdb.cfh_name cfh' ≠ rocksdb.cfh_name cfh ∨ key' ≠ key →
  ∃ s', put domain key value s = Ret (mkStatus 0 "OK") s'
        ∧ returned (get domain' key' v0 s') = returned (get domain' key' v0 s).
Proof.
  intros Hw Hres Hres' Hok Hother. unfold put.
  rewrite (putBatch_ok s db domain cfh) by done.
  eexists. split; [reflexivity |].
  erewrite get_lookup; [| reflexivity | by eapply resolves_handles; [| exact Hres']].
  rewrite (get_lookup s db domain' key' v0 cfh') by (done || apply Hw).
  simpl. rewrite table_of_update.
  destruct (decide (rocksdb.cfh_name cfh = rocksdb.cfh_name cfh')) as [Heq|Hne]; [| done].
  destruct Hother as [Hname|Hkey]; [by rewrite Heq in Hname |].
  rewrite table_get_put_ne by done. unfold rocksdb.table_of. by rewrite Heq.
Qed.

(** X6. After [remove] the key reads as NotFound, whether it was stored or
    not, and every other key of the domain reads as before. *)
Theorem remove_then_get (s : Sys W) (db : rocksdb.DB) (domain key key' v0 : string)
        (cfh : rocksdb.ColumnFamilyHandle) :
  writable s db →
  resolves s domain cfh →
  rocksdb.ok (rocksdb.medium db) = true →
  ∃ s', remove domain key s = Ret (mkStatus 0 "OK") s'
        ∧ get domain key v0 s' = Ret (mkStatus 1 "NotFound: ", v0) s'
        ∧ (key' ≠ key → returned (get domain key' v0 s') = returned (get domain key' v0 s)).
Proof.
  intros Hw Hres Hok.
  rewrite (remove_ok s db domain key cfh) by done.
  eexists. split; [reflexivity |]. split.
  - erewrite get_lookup; [| reflexivity | by eapply resolves_handles; [| exact Hres]].
    simpl. by rewrite table_of_update, decide_True, table_get_delete, decide_True.
  - intros Hne.
    erewrite get_lookup; [| reflexivity | by eapply resolves_handles; [| exact Hres]].
    rewrite (get_lookup s db domain key' v0 cfh) by (done || apply Hw).
    simpl. by rewrite table_of_update, decide_True, table_get_delete, decide_False.
Qed.

(** X7. For a domain name that is not in the list every operation returns
    the error "Could not get column family for <domain>" with code 1,
    issues nothing to the engine and leaves the state as it is: the writes
    whenever the plugin is not read-only, [get] and [scan] whenever the
    store handle is present. *)
Theorem unknown_domain_is_an_error (s : Sys W) (domain key value low high prefix : string)
        (data : list (string * string)) (results : list string) (max : N) :
  domain ∉ kDomains →
  let error := mkStatus 1 ("Could not get column family for " +:+ domain) in
  (read_only_ (self s) = false →
   putBatch domain data s = Ret error s
   ∧ remove domain key s = Ret error s
   ∧ removeRange domain low high s = Ret error s)
  ∧ (is_Some (db_ (self s)) →
     get domain key value s = Ret (error, value) s
     ∧ scan domain results prefix max s = Ret (error, results) s).
Proof.
  intros Hout error. pose proof (getHandle_unknown s domain Hout) as Hnone. split.
  - intros Hro. repeat split.
    + unfold putBatch, bind, this, ret. simpl. by rewrite Hro, Hnone.
    + unfold remove, bind, this, ret. simpl. by rewrite Hro, Hnone.
    + unfold removeRange, bind, this, ret. simpl. by rewrite Hro, Hnone.
  - intros [db Hdb]. split.
    + unfold get, getDB, bind, this, ret. simpl. by rewrite Hdb, Hnone.
    + unfold scan, getDB, bind, this, ret. simpl. by rewrite Hdb, Hnone.
Qed.

(** X8. An empty batch is committed all the same: [putBatch] issues one
    write of the empty batch under the options of the domain, returns OK
    when the commit goes through, and the database is as before. *)
Theorem putBatch_of_nothing (s : Sys W) (db : rocksdb.DB) (domain : string)
        (cfh : rocksdb.ColumnFamilyHandle) :
  writable s db →
  resolves s domain cfh →
  rocksdb.ok (rocksdb.medium db) = true →
  ∃ s', putBatch domain [] s = Ret (mkStatus 0 "OK") s'
        ∧ self s' = self s
        ∧ added s s' [EvWrite (rocksdb.mkWriteOptions (bool_decide (kEvents ≠ domain))
                                                       (bool_decide (kEvents = domain))) []].
Proof.
  intros Hw Hres Hok.
  rewrite (putBatch_ok s db domain cfh) by done.
  eexists. split; [reflexivity |]. split; [| reflexivity].
  simpl. destruct Hw as [Hdb _]. destruct s as [p w]. destruct p. simpl in *. by subst.
Qed.

Lemma getHandle_cases (cf : string) (s : Sys W) :
  getHandleForColumnFamily cf s = Ret None s
  ∨ (∃ cfh, getHandleForColumnFamily cf s = Ret (Some cfh) s)
  ∨ getHandleForColumnFamily cf s = Crash OutOfBounds s.
Proof.
  rewrite getHandle_unfold. destruct (bool_decide _); [| by left].
  destruct (_ !! _); [right; left; by eexists | by right; right].
Qed.

(** X9. [get], [scan] and the router never change anything: whatever the
    state and the arguments, and also when they fail, they stop in the
    state they started from. *)
Theorem reads_change_nothing (s : Sys W) (domain key value prefix : string)
        (results : list string) (max : N) :
  final (getHandleForColumnFamily domain s) = s
  ∧ final (get domain key value s) = s
  ∧ final (scan domain results prefix max s) = s.
Proof.
  split; [apply getHandle_final |]. split.
  - unfold get, getDB, bind, this, ret. simpl.
    destruct (db_ (self s)) as [db|]; [| done].
    destruct (getHandle_cases domain s) as [-> | [[cfh ->] | ->]]; [done | | done].
    by destruct (rocksdb.Get _ _ _ _).
  - unfold scan, getDB, bind, this, ret. simpl.
    destruct (db_ (self s)) as [db|]; [| done].
    destruct (getHandle_cases domain s) as [-> | [[cfh ->] | ->]]; done.
Qed.

Lemma only_store_changed_refl (s : Sys W) : only_store_changed s s.
Proof. exists (db_ (self s)), []. by destruct s as [[] w]. Qed.

Lemma only_store_changed_on_db (e : Event) (f : rocksdb.DB → rocksdb.Status * rocksdb.DB)
      (s : Sys W) :
  only_store_changed s (final (on_db e f s)).
Proof.
  destruct (db_ (self s)) as [db|] eqn:Hdb.
  - rewrite (on_db_Some _ _ _ db) by done. by eexists _, [_].
  - rewrite on_db_None by done. apply only_store_changed_refl.
Qed.

Lemma only_store_changed_trans (s1 s2 s3 : Sys W) :
  only_store_changed s1 s2 → only_store_changed s2 s3 → only_store_changed s1 s3.
Proof.
  intros (db2 & evs2 & ->) (db3 & evs3 & ->). exists db3, (evs2 ++ evs3).
  simpl. by rewrite foldl_app.
Qed.

(** X10. [putBatch], [remove] and [removeRange] change nothing but the
    database behind the store handle and the trace, whatever the state and
    the arguments and also when they fail: the handle array, the path, the
    configuration, the read-only mode, the filesystem and the corruption
    indicator are as before, so that a domain resolves after the call to
    what it resolved to before. *)
Theorem writes_change_the_store_only (s : Sys W) (domain key low high : string)
        (data : list (string * string)) :
  only_store_changed s (final (putBatch domain data s))
  ∧ only_store_changed s (final (remove domain key s))
  ∧ only_store_changed s (final (removeRange domain low high s))
  ∧ ∀ s', only_store_changed s s' →
          handles_ (self s') = handles_ (self s)
          ∧ read_only_ (self s') = read_only_ (self s)
          ∧ path_ (self s') = path_ (self s)
          ∧ column_families_ (self s') = column_families_ (self s)
          ∧ host (world s') = host (world s)
          ∧ kRocksDBCorruptionIndicator (world s') = kRocksDBCorruptionIndicator (world s)
          ∧ ∀ d cfh, resolves s d cfh ↔ resolves s' d cfh.
Proof.
  split; [| split; [| split]].
  - unfold putBatch, bind, this, ret. simpl.
    destruct (read_only_ (self s)); [apply only_store_changed_refl |].
    destruct (getHandle_cases domain s) as [-> | [[cfh ->] | ->]];
      [apply only_store_changed_refl | | apply only_store_changed_refl].
    match goal with
    | |- context [on_db ?e ?f s] =>
        pose proof (only_store_changed_on_db e f s) as Hon; destruct (on_db e f s) as [st s1|fl s1]
    end; [| exact Hon].
    simpl in Hon. destruct (_ && _); [| exact Hon].
    destruct (Str.find_last_of _ _); [| exact Hon].
    destruct (Str.substr _ _); exact Hon.
  - unfold remove, bind, this, ret. simpl.
    destruct (read_only_ (self s)); [apply only_store_changed_refl |].
    destruct (getHandle_cases domain s) as [-> | [[cfh ->] | ->]];
      [apply only_store_changed_refl | | apply only_store_changed_refl].
    match goal with
    | |- context [on_db ?e ?f s] =>
        pose proof (only_store_changed_on_db e f s) as Hon; destruct (on_db e f s) as [st s1|fl s1]
    end; exact Hon.
  - unfold removeRange, bind, this, ret. simpl.
    destruct (read_only_ (self s)); [apply only_store_changed_refl |].
    destruct (getHandle_cases domain s) as [-> | [[cfh ->] | ->]];
      [apply only_store_changed_refl | | apply only_store_changed_refl].
    match goal with
    | |- context [on_db ?e ?f s] =>
        pose proof (only_store_changed_on_db e f s) as Hon; destruct (on_db e f s) as [st s1|fl s1]
    end; [| exact Hon].
    simpl in Hon. destruct (bool_decide (Str.le low high)); [| exact Hon].
    eapply only_store_changed_trans; [exact Hon |].
    match goal with
    | |- context [on_db ?e ?f s1] =>
        pose proof (only_store_changed_on_db e f s1) as Hon2;
        destruct (on_db e f s1) as [st2 s2|fl2 s2]
    end; exact Hon2.
  - intros s' (db' & evs & ->). simpl.
    assert (∀ (w : World W) l,
              host (foldl (λ w e, emit e w) w l) = host w
              ∧ kRocksDBCorruptionIndicator (foldl (λ w e, emit e w) w l)
                = kRocksDBCorruptionIndicator w) as Hw.
    { intros w l. revert w. induction l as [|e l IH]; intros w; [done |]. simpl.
      destruct (IH (emit e w)) as [-> ->]. done. }
    repeat split; try apply Hw.
    + apply resolves_handles. done.
    + apply resolves_handles. done.
Qed.

End StoreFrames.

(** ** What the life cycle leaves alone *)

Section LifeCycleFrames.

Context {W : Type} `{!Host W} `{!Domains}.

Lemma same_configuration_trans (s1 s2 s3 : Sys W) :
  same_configuration s1 s2 → same_configuration s2 s3 → same_configuration s1 s3.
Proof.
  unfold same_configuration. intros H12 H23. destruct_and!.
  repeat split; etrans; eauto.
Qed.

Lemma same_settings_refl (s : Sys W) : same_settings s s.
Proof. by repeat split. Qed.

Lemma same_settings_trans (s1 s2 s3 : Sys W) :
  same_settings s1 s2 → same_settings s2 s3 → same_settings s1 s3.
Proof.
  intros [H12 R12] [H23 R23]. split; [by eapply same_configuration_trans |].
  by rewrite R23.
Qed.

Lemma same_settings_emit (e : Event) (s : Sys W) :
  same_settings s (mkSys (self s) (emit e (world s))).
Proof. by repeat split. Qed.

Ltac in_list H :=
  repeat (apply elem_of_cons in H as [H|H]; [try by simplify_eq |]);
  try by apply elem_of_nil in H.

(** The whole of what [repairDB] does, by the answers of the filesystem. *)
Lemma repairDB_run (s : Sys W) :
  let path := path_ (self s) in
  let bpath := path_ (self s) +:+ ".backup" in
  ∃ h' evs,
    repairDB s
    = Ret tt (mkSys (self s)
                    (mkWorld h' (kRocksDBCorruptionIndicator (world s))
                             (kDBAllowOpen (world s)) (kDBRequireWrite (world s))
                             (kDBChecking (world s)) (flags (world s))
                             (trace (world s) ++ EvRepairDB :: evs)))
    ∧ (if pathExists bpath (host (world s)) then
         ∃ removed h1, removePath bpath (host (world s)) = (removed, h1)
           ∧ if removed then
               ∃ moved log, movePath path bpath h1 = (moved, h')
                 ∧ evs = [EvRemovePath bpath true;
                          EvLog WARNING ("Removed previous RocksDB database backup: " +:+ bpath);
                          EvMovePath path bpath moved] ++ log
                 ∧ Forall (λ e, ∃ sev msg, e = EvLog sev msg) log
             else
               h' = h1
               ∧ evs = [EvRemovePath bpath false;
                        EvLog ERROR ("Cannot remove previous RocksDB database backup: "
                                     +:+ bpath)]
       else
         ∃ moved log, movePath path bpath (host (world s)) = (moved, h')
           ∧ evs = [EvMovePath path bpath moved] ++ log
           ∧ Forall (λ e, ∃ sev msg, e = EvLog sev msg) log).
Proof.
  destruct s as [p [h i a r c f t]]. intros path bpath. simpl in path, bpath.
  unfold repairDB, do_removePath, do_movePath, LOG, bind, this, the_world, ret,
    modify_world. simpl. fold bpath. fold path.
  destruct (pathExists bpath h); simpl.
  - destruct (removePath bpath h) as [[|] h1] eqn:Hrm; simpl.
    + destruct (movePath path bpath h1) as [moved h2] eqn:Hmv.
      destruct moved; simpl.
      * eexists h2, _. split; [by_trace |].
        exists true, h1. split; [reflexivity |].
        eexists true, _. split; [first [exact Hmv | reflexivity] |]. split; [reflexivity |].
        repeat constructor; by eexists _, _.
      * eexists h2, _. split; [by_trace |].
        exists true, h1. split; [reflexivity |].
        eexists false, _. split; [first [exact Hmv | reflexivity] |]. split; [reflexivity |].
        repeat constructor; by eexists _, _.
    + eexists h1, _. split; [by_trace |].
      exists false, h1. split; [reflexivity |]. done.
  - destruct (movePath path bpath h) as [moved h2] eqn:Hmv.
    destruct moved; simpl.
    + eexists h2, _. split; [by_trace |].
      eexists true, _. split; [first [exact Hmv | reflexivity] |]. split; [reflexivity |].
      repeat constructor; by eexists _, _.
    + eexists h2, _. split; [by_trace |].
      eexists false, _. split; [first [exact Hmv | reflexivity] |]. split; [reflexivity |].
      repeat constructor; by eexists _, _.
Qed.

(** X11. [repairDB] never removes anything but the ".backup" sibling of
    the store directory, and only when it exists; it moves nothing but the
    store directory, onto that sibling; and when the old backup cannot be
    removed it moves nothing, so that the store stays where it is. It
    always ends well, and it leaves the plugin object, the corruption
    indicator, the switches and the flags as they are. *)
Theorem repairDB_touches_the_backup_only (s : Sys W) :
  let path := path_ (self s) in
  let bpath := path_ (self s) +:+ ".backup" in
  ∃ s' evs,
    repairDB s = Ret tt s'
    ∧ added s s' (EvRepairDB :: evs)
    ∧ self s' = self s
    ∧ same_settings s s'
    ∧ kRocksDBCorruptionIndicator (world s') = kRocksDBCorruptionIndicator (world s)
    ∧ (∀ p done, EvRemovePath p done ∈ evs
                 → p = bpath ∧ pathExists bpath (host (world s)) = true)
    ∧ (∀ src dst done, EvMovePath src dst done ∈ evs → src = path ∧ dst = bpath)
    ∧ (EvRemovePath bpath false ∈ evs → ∀ src dst done, EvMovePath src dst done ∉ evs).
Proof.
  intros path bpath.
  destruct (repairDB_run s) as (h' & evs & Hrun & Hevs). subst path bpath. cbv zeta in Hevs.
  eexists _, evs. split; [exact Hrun |]. split; [reflexivity |]. split; [done |].
  split; [by repeat split |]. split; [done |].
  assert (∀ log : list Event,
            Forall (λ e, ∃ sev msg, e = EvLog sev msg) log →
            (∀ p d, EvRemovePath p d ∉ log) ∧ (∀ a b d, EvMovePath a b d ∉ log)) as Hlog.
  { intros log Hall. split.
    - intros p d Hin. rewrite Forall_forall in Hall.
      by destruct (Hall _ Hin) as (? & ? & ?).
    - intros a b d Hin. rewrite Forall_forall in Hall.
      by destruct (Hall _ Hin) as (? & ? & ?). }
  destruct (pathExists _ (host (world s))).
  - destruct Hevs as (removed & h1 & Hrm & Hevs). destruct removed.
    + destruct Hevs as (moved & log & Hmv & -> & Hall).
      destruct (Hlog log Hall) as [Hnr Hnm].
      split; [| split].
      * intros p d Hin. apply elem_of_app in Hin as [Hin|Hin]; [| by apply Hnr in Hin].
        in_list Hin.
      * intros a b d Hin. apply elem_of_app in Hin as [Hin|Hin]; [| by apply Hnm in Hin].
        in_list Hin.
      * intros Hin. apply elem_of_app in Hin as [Hin|Hin]; [| by apply Hnr in Hin].
        in_list Hin.
    + destruct Hevs as (-> & ->). split; [| split].
      * intros p d Hin. in_list Hin.
      * intros a b d Hin. in_list Hin.
      * intros _ a b d Hin. in_list Hin.
  - destruct Hevs as (moved & log & Hmv & -> & Hall).
    destruct (Hlog log Hall) as [Hnr Hnm].
    split; [| split].
    + intros p d Hin. apply elem_of_app in Hin as [Hin|Hin]; [| by apply Hnr in Hin].
      in_list Hin.
    + intros a b d Hin. apply elem_of_app in Hin as [Hin|Hin]; [| by apply Hnm in Hin].
      in_list Hin.
    + intros Hin. apply elem_of_app in Hin as [Hin|Hin]; [| by apply Hnr in Hin].
      in_list Hin.
Qed.

Lemma close_closed (s : Sys W) :
  handles_ (self s) = [] → db_ (self s) = None →
  kRocksDBCorruptionIndicator (world s) = false →
  close s = Ret tt s.
Proof.
  intros Hhs Hdb Hind.
  unfold close, bind, this, isCorrupted, the_world, ret, modify_self. simpl.
  rewrite Hhs, Hdb. simpl. rewrite Hind.
  destruct s as [[] w]. simpl in *. by subst.
Qed.

Lemma close_run (s : Sys W) :
  ∃ s', close s = Ret tt s'
        ∧ self s' = set_db None (set_handles [] (self s))
        ∧ same_settings s s'
        ∧ kRocksDBCorruptionIndicator (world s') = false.
Proof.
  unfold close. unfold bind at 1. unfold this at 1. unfold bind at 1.
  rewrite delete_handles.
  unfold bind at 1. unfold modify_self at 1. unfold bind at 1.
  set (s1 := mkSys (set_handles [] _) _).
  assert (∃ s2, (match db_ (self s) with
                 | Some db =>
                     modify_world (λ w, emit EvDeleteDB (set_host (DB_delete db (host w)) w));;
                     modify_self (set_db None)
                 | None => ret tt
                 end) s1 = Ret tt s2
                ∧ self s2 = set_db None (set_handles [] (self s))
                ∧ same_settings s s2
                ∧ kRocksDBCorruptionIndicator (world s2)
                  = kRocksDBCorruptionIndicator (world s))
    as (s2 & -> & Hself & Hset & Hind).
  { destruct (db_ (self s)) as [db|] eqn:Edb.
    - eexists. split; [reflexivity |]. by repeat split.
    - eexists. split; [reflexivity |]. simpl. split; [| by repeat split].
      destruct s as [[] w]. simpl in *. by subst. }
  unfold bind, isCorrupted, the_world, ret. simpl. rewrite Hind.
  destruct (kRocksDBCorruptionIndicator (world s)) eqn:Hcorrupt.
  - destruct (repairDB_run s2) as (h' & rest & -> & _).
    unfold setCorrupted, modify_world. simpl.
    eexists. split; [reflexivity |]. split; [done |]. split; [| done].
    eapply same_settings_trans; [exact Hset |]. by repeat split.
  - by exists s2.
Qed.

(** X12. [close], and [tearDown] with it, always ends well and touches
    nothing of the settings: the configuration, the path and, in
    particular, the read-only mode survive it, so that a plugin that fell
    back to read-only stays read-only once closed. A second [close] right
    after the first does nothing at all. *)
Theorem close_keeps_the_settings_and_is_idempotent (s : Sys W) :
  ∃ s', close s = Ret tt s'
        ∧ tearDown s = Ret tt s'
        ∧ self s' = set_db None (set_handles [] (self s))
        ∧ same_settings s s'
        ∧ close s' = Ret tt s'.
Proof.
  destruct (close_run s) as (s' & Hrun & Hself & Hset & Hind).
  exists s'. split; [exact Hrun |]. split; [exact Hrun |]. split; [exact Hself |].
  split; [exact Hset |].
  apply close_closed; [by rewrite Hself | by rewrite Hself | exact Hind].
Qed.

(** *** The steps of [setUp] *)

Lemma LOG_settings (sev : Severity) (msg : string) (s : Sys W) :
  ends_with (LOG sev msg) s (λ _ s' _, self s' = self s ∧ same_settings s s').
Proof. eexists tt, _, [_]. split; [reflexivity |]. by repeat split. Qed.

Lemma close_settings (s : Sys W) :
  ends_with close s (λ _ s' _, same_settings s s').
Proof.
  destruct (close_run s) as (s' & Hrun & _ & Hset & _).
  destruct (close_keeps s) as (a & s'' & evs & Hrun' & Hadd & _).
  rewrite Hrun in Hrun'. simplify_eq. by exists tt, s'', evs.
Qed.

Lemma repairDB_settings (s : Sys W) :
  ends_with repairDB s (λ _ s' _, same_settings s s').
Proof.
  destruct (repairDB_run s) as (h' & evs & Hrun & _).
  eexists tt, _, _. split; [exact Hrun |]. split; [reflexivity |]. by repeat split.
Qed.

Lemma do_Open_settings (s : Sys W) :
  ends_with do_Open s (λ _ s' _, same_settings s s').
Proof.
  destruct (do_Open_keeps s) as (st & s' & evs & Hrun & Hadd & _).
  exists st, s', evs. split; [exact Hrun |]. split; [exact Hadd |].
  revert Hrun. unfold do_Open, bind, this, the_world, ret, modify_world, modify_self. simpl.
  destruct (DB_Open (options_ (self s)) (path_ (self s)) (column_families_ (self s))
                    (host (world s))) as [r h] eqn:Hopen.
  simpl. destruct (rocksdb.info_log (options_ (self s))); simpl.
  - destruct (Logv_all_world (rocksdb.open_log r)
                (emit (EvOpen (path_ (self s))
                              (rocksdb.cfd_name <$> column_families_ (self s))
                              (rocksdb.open_status r))
                      (set_host h (world s)))) as (evs' & b & -> & _).
    intros [= _ <-]. by repeat split.
  - intros [= _ <-]. by repeat split.
Qed.

(** What the part of [setUp] that follows the attempts to open the store
    decides, on the status [st] of the last attempt. *)
Lemma after_open_outcome (w : World W) (st : rocksdb.Status) (s : Sys W) :
  ends_with
    (p <- this;
     failed <-
       (if negb (rocksdb.ok st) || bool_decide (db_ p = None) then
          LOG INFO ("Rocksdb open failed (" +:+ pretty (rocksdb.code_num (rocksdb.code st))
                    +:+ ":" +:+ pretty (rocksdb.subcode st) +:+ ") "
                    +:+ rocksdb.ToString st);;
          if kDBRequireWrite w then
            ret (Some (mkStatus 1 (rocksdb.ToString st)))
          else
            (if negb (kDBChecking w)
             then LOG INFO "Opening RocksDB failed: Continuing with read-only support"
             else ret tt);;
            modify_world (emit (EvFlagUpdate "disable_events" "true"));;
            modify_self (set_read_only true);;
            ret None
        else ret None);
     match failed with
     | Some status => ret status
     | None =>
         p <- this;
         if read_only_ p then ret (Status_of_code 0)
         else
           changed <- do_platformChmod (path_ p);
           if negb changed
           then ret (mkStatus 1 ("Cannot set permissions on RocksDB path: " +:+ path_ p))
           else ret (Status_of_code 0)
     end) s
    (λ status s' _,
       same_configuration s s'
       ∧ (getCode status = 0%Z ∨ getCode status = 1%Z)
       ∧ (read_only_ (self s) = true → read_only_ (self s') = true)
       ∧ (kDBRequireWrite w = true → read_only_ (self s') = read_only_ (self s))
       ∧ (getCode status = 0%Z → read_only_ (self s') = true ∨ is_Some (db_ (self s')))).
Proof.
  unfold ends_with, bind, this, LOG, modify_world, modify_self, ret, do_platformChmod,
    the_world. simpl.
  destruct (negb (rocksdb.ok st) || bool_decide (db_ (self s) = None)) eqn:Hfail; simpl.
  - destruct (kDBRequireWrite w) eqn:Hrw; simpl.
    + eexists _, _, [_]. split; [reflexivity |]. split; [reflexivity |].
      repeat split; simpl; auto; try (intros ?; discriminate).
    + destruct (negb (kDBChecking w)); simpl.
      * eexists _, _, [_; _; _]. split; [reflexivity |]. split.
        { unfold added. simpl. by rewrite <- !app_assoc. }
        repeat split; simpl; auto; try (intros ?; discriminate).
      * eexists _, _, [_; _]. split; [reflexivity |]. split.
        { unfold added. simpl. by rewrite <- !app_assoc. }
        repeat split; simpl; auto; try (intros ?; discriminate).
  - apply orb_false_iff in Hfail as [_ Hdb]. apply bool_decide_eq_false in Hdb.
    assert (is_Some (db_ (self s))) as Hsome.
    { destruct (db_ (self s)); [by eexists | done]. }
    destruct (read_only_ (self s)) eqn:Hro; simpl.
    + eexists _, _, []. split; [reflexivity |]. split.
      { unfold added. by rewrite app_nil_r. }
      repeat split; simpl; auto; try (intros ?; discriminate).
    + unfold bind, the_world, modify_world, ret. simpl.
      destruct (platformChmod (path_ (self s)) (host (world s))) as [[|] h]; simpl.
      * eexists _, _, [_]. split; [reflexivity |]. split; [reflexivity |].
        repeat split; simpl; auto; try (intros ?; discriminate).
      * eexists _, _, [_]. split; [reflexivity |]. split; [reflexivity |].
        repeat split; simpl; auto; try (intros ?; discriminate).
Qed.

Lemma setUp_run (s : Sys W) : ends_with setUp s (setUp_outcome s).
Proof.
  unfold setUp. apply ends_with_the_world.
  eapply (ends_with_bind _ _ _
            (λ _ s1 evs1,
               self s1 = self s ∧ same_settings s s1
               ∧ evs1 = if kDBAllowOpen (world s) then []
                        else [EvLog WARNING
                                (RLOG 1629 +:+ "Not allowed to set up database plugin")])).
  { destruct (kDBAllowOpen (world s)); simpl.
    - apply ends_with_ret. split; [done |]. split; [apply same_settings_refl | done].
    - eexists tt, _, [_]. split; [reflexivity |]. split; [reflexivity |]. by repeat split. }
  intros _ s1 evs1 (Hself1 & Hset1 & Hevs1). apply ends_with_this.
  eapply (ends_with_bind _ _ _
            (λ _ s2 _,
               self s2 = (if initialized_ (self s) then self s
                          else configure (flags (world s)) (self s))
               ∧ world s2 = world s1)).
  { rewrite Hself1. destruct (initialized_ (self s)); simpl.
    - by apply ends_with_ret.
    - eexists tt, _, []. split; [reflexivity |]. split; [| by rewrite <- Hself1].
      unfold added. simpl. by rewrite app_nil_r. }
  intros _ s2 evs2 (Hself2 & Hworld2).
  eapply (ends_with_bind _ _ _ (λ _ s3 _, same_settings (settled s) s3)).
  { eexists tt, _, []. split; [reflexivity |]. split.
    { unfold added. simpl. by rewrite app_nil_r. }
    destruct Hset1 as [(_ & _ & _ & _ & _ & ? & ? & ? & ?) _].
    unfold settled. simpl. rewrite Hself2, Hworld2. by repeat split. }
  intros ? s3 evs3 Hset3. apply ends_with_this.
  assert (read_only_ (self (settled s)) = read_only_ (self s)) as Hro0.
  { unfold settled. simpl. by destruct (initialized_ (self s)). }
  assert (∀ rest, ∃ rest', evs1 ++ rest
                  = (if kDBAllowOpen (world s) then []
                     else [EvLog WARNING
                             (RLOG 1629 +:+ "Not allowed to set up database plugin")])
                    ++ rest') as Hevs.
  { intros rest. exists rest. by rewrite Hevs1. }
  destruct (pathExists _ _ && negb _).
  { apply ends_with_ret. destruct Hset3 as [Hc3 Hr3].
    split; [exact Hc3 |]. split; [by right |].
    split; [intros Hro; by rewrite Hr3, Hro0 |].
    split; [intros _; by rewrite Hr3, Hro0 |].
    split; [intros [=] |]. apply Hevs. }
  eapply (ends_with_bind _ _ _ (λ _ s4 _, same_settings s3 s4)).
  { destruct (negb _); [| apply ends_with_ret, same_settings_refl].
    eapply ends_with_weaken; [apply LOG_settings |]. by intros ? ? ? [_ ?]. }
  intros ? s4 evs4 Hset4.
  eapply ends_with_bind; [apply close_settings |]. intros ? s5 evs5 Hset5.
  eapply ends_with_bind; [apply do_Open_settings |]. intros st s6 evs6 Hset6.
  eapply (ends_with_bind _ _ _ (λ _ s7 _, same_settings s6 s7)).
  { destruct (rocksdb.IsCorruption st); [| apply ends_with_ret, same_settings_refl].
    eapply ends_with_bind; [apply repairDB_settings |]. intros ? s' evs' Hset'.
    eapply ends_with_weaken; [apply do_Open_settings |].
    intros ? s'' ? Hset''. simpl in *. eapply same_settings_trans; eassumption. }
  intros st' s7 evs7 Hset7.
  eapply ends_with_weaken; [apply after_open_outcome |].
  intros status s8 evs8 (Hconf & Hcode & Hsticky & Hrw & Hzero).
  assert (same_settings (settled s) s7) as [Hc7 Hr7].
  { eapply same_settings_trans; [exact Hset3 |].
    eapply same_settings_trans; [exact Hset4 |].
    eapply same_settings_trans; [exact Hset5 |].
    eapply same_settings_trans; [exact Hset6 | exact Hset7]. }
  rewrite Hro0 in Hr7.
  split; [by eapply same_configuration_trans |]. split; [exact Hcode |].
  split; [intros Hro; apply Hsticky; by rewrite Hr7 |].
  split; [intros Hw; by rewrite Hrw, Hr7 |].
  split; [exact Hzero |]. apply Hevs.
Qed.

(** X13. When the path of the flags exists and cannot be read, [setUp]
    returns the error "Cannot read RocksDB path: <path>" with code 1
    before it closes or opens anything: the handles and the store handle
    of a store opened earlier are kept as they are, and nothing is asked of
    the filesystem or of the engine. The plugin has all the same taken the
    new path, and its configuration if this was the first run. *)
Theorem setUp_on_an_unreadable_path (s : Sys W) :
  let path := FLAGS_database_path (flags (world s)) in
  pathExists path (host (world s)) = true →
  isReadable path (host (world s)) = false →
  ∃ s', setUp s = Ret (mkStatus 1 ("Cannot read RocksDB path: " +:+ path)) s'
        ∧ self s' = self (settled s)
        ∧ path_ (self s') = path
        ∧ handles_ (self s') = handles_ (self s)
        ∧ db_ (self s') = db_ (self s)
        ∧ read_only_ (self s') = read_only_ (self s)
        ∧ world s' = (if kDBAllowOpen (world s) then world s
                      else emit (EvLog WARNING
                                   (RLOG 1629 +:+ "Not allowed to set up database plugin"))
                                (world s)).
Proof.
  intros path Hexists Hreadable.
  unfold setUp, bind, the_world, this, LOG, modify_world, modify_self, ret. simpl.
  destruct (kDBAllowOpen (world s)); simpl;
    destruct (initialized_ (self s)) eqn:Hinit; simpl;
    fold path; rewrite Hexists, Hreadable; simpl;
    (eexists; split; [reflexivity |]); by repeat split.
Qed.


(** X15. [setUp] returns code 0 or code 1. It returns code 0 only with
    the store open or in read-only mode. It never leaves the read-only
    mode: a plugin that is read-only stays so, also when the store opens
    this time. And it never enters it when [kDBRequireWrite] is set. *)
Theorem setUp_status_and_mode (s : Sys W) :
  ∃ status s',
    setUp s = Ret status s'
    ∧ (getCode status = 0%Z ∨ getCode status = 1%Z)
    ∧ (getCode status = 0%Z → read_only_ (self s') = true ∨ is_Some (db_ (self s')))
    ∧ (read_only_ (self s) = true → read_only_ (self s') = true)
    ∧ (kDBRequireWrite (world s) = true → read_only_ (self s') = read_only_ (self s)).
Proof.
  destruct (setUp_run s)
    as (status & s' & evs & Hrun & _ & _ & Hcode & Hsticky & Hrw & Hzero & _).
  by exists status, s'.
Qed.

(** X16. [kDBAllowOpen] does not stop [setUp]: when it is unset, [setUp]
    logs the warning "Not allowed to set up database plugin" first and
    goes on to open the store at the path of the flags all the same,
    unless that path exists and cannot be read. *)
Theorem setUp_warns_and_opens_when_not_allowed (s : Sys W) :
  let path := FLAGS_database_path (flags (world s)) in
  kDBAllowOpen (world s) = false →
  pathExists path (host (world s)) && negb (isReadable path (host (world s))) = false →
  ∃ status s' rest,
    setUp s = Ret status s'
    ∧ added s s' (EvLog WARNING (RLOG 1629 +:+ "Not allowed to set up database plugin")
                  :: rest)
    ∧ ∃ cfs st, EvOpen path cfs st ∈ rest.
Proof.
  intros path Hallow Hreadable.
  destruct (setUp_run s) as (status & s' & evs & Hrun & Hadd & Hout).
  destruct Hout as (_ & _ & _ & _ & _ & rest & ->). rewrite Hallow in Hadd. simpl in Hadd.
  exists status, s', rest. split; [exact Hrun |]. split; [exact Hadd |].
  destruct (setUp_spec s) as (status' & s'' & evs' & Hrun' & Hadd' & Hshape).
  rewrite Hrun in Hrun'. simplify_eq.
  unfold added in Hadd, Hadd'. rewrite Hadd in Hadd'. apply app_inv_head in Hadd'. subst evs'.
  unfold setUp_shape in Hshape. fold path in Hshape. rewrite Hreadable in Hshape.
  assert (∃ cfs st, EvOpen path cfs st
                    ∈ lifecycle (EvLog WARNING
                                   (RLOG 1629 +:+ "Not allowed to set up database plugin")
                                 :: rest)) as (cfs & st & Hin).
  { destruct Hshape as [(cfs & st & -> & _) | (cfs & st & cfs' & st' & -> & _)];
      exists cfs, st; apply elem_of_app; right; apply elem_of_cons; by left. }
  exists cfs, st. unfold lifecycle in Hin. apply list_elem_of_filter in Hin as [_ Hin].
  apply elem_of_cons in Hin as [[=] | Hin]. exact Hin.
Qed.

End LifeCycleFrames.

(** ** What the interceptor forwards *)

Section InterceptorForwarding.

Context {W : Type}.

(** X17. The interceptor forwards a line of the engine to the host log,
    as "RocksDB: " followed by its first 499 characters at the level INFO,
    exactly when the line has the level mark and those characters do not
    contain "Error when reading"; it adds nothing else to the trace. It
    never touches the filesystem, the switches or the flags. *)
Theorem Logv_forwards_errors_and_warnings (line : string) (w : World W) :
  let kept := vsnprintf 500 line in
  ∃ evs,
    Logv line w
    = mkWorld (host w) (kRocksDBCorruptionIndicator (Logv line w)) (kDBAllowOpen w)
              (kDBRequireWrite w) (kDBChecking w) (flags w) (trace w ++ evs)
    ∧ (evs = [EvLog INFO ("RocksDB: " +:+ kept)] ∨ evs = [])
    ∧ (evs ≠ [] ↔ level_ok line ∧ ¬ Str.contains kept "Error when reading").
Proof.
  intros kept.
  pose proof (level_test line) as Hlevel.
  pose proof (find_contains kept "Error when reading") as Hfind.
  unfold Logv. fold kept. fold kept in Hlevel.
  destruct (_ || _).
  - exists []. rewrite app_nil_r. split; [by destruct w |]. split; [by right |].
    split; [done |]. intros [Hl _]. by apply Hlevel in Hl.
  - assert (level_ok line) as Hl by (by apply Hlevel).
    destruct (decide (Str.find kept "Error when reading" = None)) as [Hnone|Hsome].
    + rewrite (bool_decide_eq_true_2 _ Hnone).
      exists [EvLog INFO ("RocksDB: " +:+ kept)]. split.
      * by destruct (bool_decide (Str.find kept "Corruption:" ≠ None)).
      * split; [by left |]. split; [| done]. intros _. split; [done |].
        intros Hc. by apply Hfind in Hc.
    + rewrite (bool_decide_eq_false_2 _ Hsome).
      exists []. rewrite app_nil_r. split.
      * destruct (bool_decide (Str.find kept "Corruption:" ≠ None)); by destruct w.
      * split; [by right |]. split; [done |]. intros [_ Hc]. destruct Hc. by apply Hfind.
Qed.

End InterceptorForwarding.

(** ** The router and the failures of a write, in full *)

Section RouterAndFailures.

Context {W : Type} `{!Host W} `{!Domains}.

(** X18. The three outcomes of the router. It returns the null handle
    exactly for the names that are not in the domain list. For a listed
    name it reads the slot of the name's index in the list: past the end
    of the handle array exactly when the array has no such slot, and a
    handle of the array otherwise. Distinct domains get distinct handles
    when the handles of the array are distinct. *)
Theorem router_outcomes (s : Sys W) (domain : string) :
  (getHandleForColumnFamily domain s = Ret None s ↔ domain ∉ kDomains)
  ∧ (getHandleForColumnFamily domain s = Crash OutOfBounds s
     ↔ domain ∈ kDomains ∧ length (handles_ (self s)) ≤ find_index kDomains domain)
  ∧ (∀ cfh, resolves s domain cfh → cfh ∈ handles_ (self s))
  ∧ (NoDup (handles_ (self s)) →
     ∀ other cfh, resolves s domain cfh → resolves s other cfh → other = domain).
Proof.
  rewrite getHandle_unfold, !find_index_elem.
  split; [| split; [| split]].
  - destruct (decide (find_index kDomains domain ≠ length kDomains)) as [Hi|Hi].
    + rewrite bool_decide_eq_true_2 by done.
      destruct (_ !! _); split; intros; simplify_eq; done.
    + rewrite bool_decide_eq_false_2 by done. split; [done | tauto].
  - rewrite <- lookup_ge_None.
    destruct (decide (find_index kDomains domain ≠ length kDomains)) as [Hi|Hi].
    + rewrite bool_decide_eq_true_2 by done.
      destruct (_ !! _); split; [done | by intros [_ [=]] | done | done].
    + rewrite bool_decide_eq_false_2 by done. split; [done | tauto].
  - intros cfh Hres. apply resolves_lookup in Hres as [_ Hres].
    by eapply list_elem_of_lookup_2.
  - intros Hnd other cfh Hres Hres'. by eapply router_injective.
Qed.

Lemma find_last_of_snoc (a : string) (c : ascii) :
  Str.find_last_of (a +:+ String c "") c = Some (String.length a).
Proof.
  induction a as [|x a IH].
  - rewrite app_empty. simpl. by rewrite Ascii.eqb_refl.
  - rewrite app_String. simpl. by rewrite IH.
Qed.

Lemma append_assoc (a b c : string) : (a +:+ b) +:+ c = a +:+ (b +:+ c).
Proof. induction a as [|x a IH]; [by rewrite !app_empty |]. by rewrite !app_String, IH. Qed.

Lemma length_append (a b : string) :
  String.length (a +:+ b) = String.length a + String.length b.
Proof. induction a as [|x a IH]; [by rewrite app_empty |]. rewrite app_String. simpl. by rewrite IH. Qed.

(** X19. A write commit that fails with an I/O error is answered by
    [putBatch] with the code 5 and "IOError: " followed by what comes two
    characters after the last colon of the engine's text, which has no
    colon of its own; the commit has been issued once. When the text ends
    at that colon, [substr] throws [std::out_of_range] instead. *)
Theorem putBatch_trims_an_io_error (s : Sys W) (db : rocksdb.DB) (domain : string)
        (cfh : rocksdb.ColumnFamilyHandle) (data : list (string * string)) :
  writable s db →
  resolves s domain cfh →
  rocksdb.code (rocksdb.medium db) = rocksdb.kIOError →
  let text := rocksdb.ToString (rocksdb.medium db) in
  ∃ error_pos s',
    Str.find_last_of text ":"%char = Some error_pos
    ∧ added s s' [EvWrite (rocksdb.mkWriteOptions (bool_decide (kEvents ≠ domain))
                                                 (bool_decide (kEvents = domain)))
                          ((λ p, rocksdb.mkPut cfh (fst p) (snd p)) <$> data)]
    ∧ if decide (error_pos + 2 ≤ String.length text) then
        putBatch domain data s
        = Ret (mkStatus 5 ("IOError: " +:+ Str.drop (error_pos + 2) text)) s'
        ∧ Str.find_last_of (Str.drop (error_pos + 2) text) ":"%char = None
      else putBatch domain data s = Crash ThrowOutOfRange s'.
Proof. apply putBatch_io_error. Qed.

(** X20. When the text of the I/O error ends in a colon, [putBatch] does
    not return: the position two past the last colon is beyond the end of
    the text and [substr] throws [std::out_of_range]. *)
Theorem putBatch_throws_on_a_trailing_colon (s : Sys W) (db : rocksdb.DB)
        (domain reason : string) (cfh : rocksdb.ColumnFamilyHandle)
        (data : list (string * string)) :
  writable s db →
  resolves s domain cfh →
  rocksdb.code (rocksdb.medium db) = rocksdb.kIOError →
  rocksdb.state (rocksdb.medium db) = reason +:+ ":" →
  ∃ s', putBatch domain data s = Crash ThrowOutOfRange s'.
Proof.
  intros Hw Hres Hcode Hstate.
  destruct (putBatch_io_error s db domain cfh data Hw Hres Hcode)
    as (error_pos & s' & Hpos & _ & Hrun).
  assert (rocksdb.ToString (rocksdb.medium db) = ("IO error: " +:+ reason) +:+ ":") as Htext.
  { unfold rocksdb.ToString. rewrite Hcode, Hstate. simpl. by rewrite append_assoc. }
  rewrite Htext in Hpos, Hrun. rewrite find_last_of_snoc in Hpos. injection Hpos as <-.
  rewrite decide_False in Hrun; [by exists s' |].
  rewrite (length_append _ ":"). simpl. lia.
Qed.

(** X21. Failures of a write commit that are not I/O errors, and every
    failure of a delete commit, are answered with the code and the full
    text of the engine. *)
Theorem other_failures_are_passed_on (s : Sys W) (db : rocksdb.DB)
        (domain key : string) (cfh : rocksdb.ColumnFamilyHandle)
        (data : list (string * string)) :
  writable s db →
  resolves s domain cfh →
  rocksdb.ok (rocksdb.medium db) = false →
  let passed_on := mkStatus (rocksdb.code_num (rocksdb.code (rocksdb.medium db)))
                            (rocksdb.ToString (rocksdb.medium db)) in
  (rocksdb.code (rocksdb.medium db) ≠ rocksdb.kIOError →
   ∃ s', putBatch domain data s = Ret passed_on s')
  ∧ ∃ s', remove domain key s = Ret passed_on s'.
Proof.
  intros Hw Hres Hfail passed_on. split.
  - intros Hcode. by apply (putBatch_other_failure s db domain cfh).
  - rewrite (remove_commit s db domain key cfh) by done.
    unfold rocksdb.Delete. rewrite commit_failed by done. simpl. eauto.
Qed.

End RouterAndFailures.

(** ** Batches and integers *)

Section StoreComposition.

Context {W : Type} `{!Host W} `{!Domains}.

Lemma apply_batch_medium (batch : rocksdb.WriteBatch) (db : rocksdb.DB) :
  rocksdb.medium (rocksdb.apply_batch batch db) = rocksdb.medium db.
Proof.
  unfold rocksdb.apply_batch. revert db.
  induction batch as [|p batch IH]; intros db; [done |]. simpl. by rewrite IH.
Qed.

(** X22. A batch stores what its pairs, put one after the other in the
    order of the batch, would store: on a writable engine whose commits go
    through, [putBatch] of a batch leaves the plugin as [putBatch] of its
    first part followed by [putBatch] of the rest does. Of two pairs with
    the same key the later one wins. *)
Theorem putBatch_is_its_puts_in_order (s : Sys W) (db : rocksdb.DB) (domain : string)
        (cfh : rocksdb.ColumnFamilyHandle) (first rest : list (string * string)) :
  writable s db →
  resolves s domain cfh →
  rocksdb.ok (rocksdb.medium db) = true →
  ∃ s1 s2 s12,
    putBatch domain first s = Ret (mkStatus 0 "OK") s1
    ∧ putBatch domain rest s1 = Ret (mkStatus 0 "OK") s2
    ∧ putBatch domain (first ++ rest) s = Ret (mkStatus 0 "OK") s12
    ∧ self s12 = self s2
    ∧ ∀ key v1 v2 v0,
        first = [(key, v1)] → rest = [(key, v2)] →
        get domain key v0 s12 = Ret (mkStatus 0 "OK", v2) s12.
Proof.
  intros Hw Hres Hok.
  rewrite (putBatch_ok s db domain cfh first) by done.
  rewrite (putBatch_ok s db domain cfh (first ++ rest)) by done.
  eexists _, _, _. split; [reflexivity |].
  split.
  { erewrite putBatch_ok; [reflexivity | | by eapply resolves_handles; [| exact Hres] |].
    - split; [reflexivity | apply Hw].
    - by rewrite apply_batch_medium. }
  split; [reflexivity |]. split.
  { simpl. unfold rocksdb.apply_batch. by rewrite fmap_app, foldl_app. }
  intros key v1 v2 v0 -> ->.
  erewrite get_lookup; [| reflexivity | by eapply resolves_handles; [| exact Hres]].
  simpl. unfold rocksdb.apply_batch. simpl.
  by rewrite table_of_update, decide_True, table_get_put_eq.
Qed.

(** X23. [put] of an [int] stores its decimal numeral, which the string
    [get] of the key reads back; the numerals of two integers are equal
    only when the integers are. *)
Theorem put_int_stores_the_numeral (s : Sys W) (db : rocksdb.DB) (domain key : string)
        (value : Z) (cfh : rocksdb.ColumnFamilyHandle) :
  writable s db →
  resolves s domain cfh →
  rocksdb.ok (rocksdb.medium db) = true →
  ∃ s', put_int domain key value s = Ret (mkStatus 0 "OK") s'
        ∧ (∀ v0, get domain key v0 s' = Ret (mkStatus 0 "OK", pretty value) s')
        ∧ ∀ other : Z, pretty other = pretty value → other = value.
Proof.
  intros Hw Hres Hok. unfold put_int.
  rewrite (putBatch_ok s db domain cfh) by done.
  eexists. split; [reflexivity |]. split.
  - intros v0.
    erewrite get_lookup; [| reflexivity | by eapply resolves_handles; [| exact Hres]].
    simpl. by rewrite table_of_update, decide_True, table_get_put_eq.
  - intros other Heq. by apply (inj pretty).
Qed.

End StoreComposition.

(** * The further properties at work

    Each further property that has premises, applied on the sample host. *)

Section FurtherAtWork.

Import Sample.

Ltac decided := refine (bool_decide_unpack _ _); vm_compute; exact I.

Lemma put_then_get_witness :
  writable opened opened_db
  ∧ resolves opened "logs" logs_handle
  ∧ rocksdb.ok (rocksdb.medium opened_db) = true
  ∧ ∃ s', put "logs" "k" "v" opened = Ret (mkStatus 0 "OK") s'
          ∧ ∀ v0, get "logs" "k" v0 s' = Ret (mkStatus 0 "OK", "v") s'.
Proof.
  assert (writable opened opened_db) as H1 by (split; vm_compute; reflexivity).
  assert (resolves opened "logs" logs_handle) as H2 by (vm_compute; reflexivity).
  assert (rocksdb.ok (rocksdb.medium opened_db) = true) as H3 by (vm_compute; reflexivity).
  split; [exact H1 |]. split; [exact H2 |]. split; [exact H3 |].
  exact (put_then_get opened opened_db "logs" "k" "v" logs_handle H1 H2 H3).
Defined.

Lemma put_twice_keeps_the_last_witness :
  writable opened opened_db
  ∧ resolves opened "logs" logs_handle
  ∧ rocksdb.ok (rocksdb.medium opened_db) = true
  ∧ ∃ s1 s2, put "logs" "k" "old" opened = Ret (mkStatus 0 "OK") s1
             ∧ put "logs" "k" "new" s1 = Ret (mkStatus 0 "OK") s2
             ∧ ∀ v0, get "logs" "k" v0 s2 = Ret (mkStatus 0 "OK", "new") s2.
Proof.
  assert (writable opened opened_db) as H1 by (split; vm_compute; reflexivity).
  assert (resolves opened "logs" logs_handle) as H2 by (vm_compute; reflexivity).
  assert (rocksdb.ok (rocksdb.medium opened_db) = true) as H3 by (vm_compute; reflexivity).
  split; [exact H1 |]. split; [exact H2 |]. split; [exact H3 |].
  exact (put_twice_keeps_the_last opened opened_db "logs" "k" "old" "new" logs_handle
           H1 H2 H3).
Defined.

Lemma put_then_scan_witness :
  writable abcd abcd_db
  ∧ resolves abcd "logs" logs_handle
  ∧ rocksdb.ok (rocksdb.medium abcd_db) = true
  ∧ rocksdb.wf abcd_db
  ∧ ∃ s' listed,
      put "logs" "b" "22" abcd = Ret (mkStatus 0 "OK") s'
      ∧ scan "logs" [] "" 0 s' = Ret (mkStatus 0 "OK", listed) s'
      ∧ NoDup listed
      ∧ ∀ k, k ∈ listed ↔ k = "b" ∨ k ∈ rocksdb.keys (rocksdb.table_of abcd_db logs_handle).
Proof.
  assert (writable abcd abcd_db) as H1 by (split; vm_compute; reflexivity).
  assert (resolves abcd "logs" logs_handle) as H2 by (vm_compute; reflexivity).
  assert (rocksdb.ok (rocksdb.medium abcd_db) = true) as H3 by (vm_compute; reflexivity).
  assert (rocksdb.wf abcd_db) as H4 by decided.
  split; [exact H1 |]. split; [exact H2 |]. split; [exact H3 |]. split; [exact H4 |].
  exact (put_then_scan abcd abcd_db "logs" "b" "22" logs_handle H1 H2 H3 H4).
Defined.

Lemma get_of_a_missing_key_witness :
  db_ (self abcd) = Some abcd_db
  ∧ resolves abcd "logs" logs_handle
  ∧ ("e" ∉ rocksdb.keys (rocksdb.table_of abcd_db logs_handle))
  ∧ get "logs" "e" "before" abcd = Ret (mkStatus 1 "NotFound: ", "before") abcd.
Proof.
  assert (db_ (self abcd) = Some abcd_db) as H1 by (vm_compute; reflexivity).
  assert (resolves abcd "logs" logs_handle) as H2 by (vm_compute; reflexivity).
  assert ("e" ∉ rocksdb.keys (rocksdb.table_of abcd_db logs_handle)) as H3 by decided.
  split; [exact H1 |]. split; [exact H2 |]. split; [exact H3 |].
  exact (get_of_a_missing_key abcd abcd_db "logs" "e" "before" logs_handle H1 H2 H3).
Defined.

Lemma put_leaves_the_other_records_witness :
  writable abcd abcd_db
  ∧ resolves abcd "logs" logs_handle
  ∧ resolves abcd "events" events_handle
  ∧ rocksdb.ok (rocksdb.medium abcd_db) = true
  ∧ (rocksdb.cfh_name events_handle ≠ rocksdb.cfh_name logs_handle ∨ "a" ≠ "a")
  ∧ ∃ s', put "logs" "a" "changed" abcd = Ret (mkStatus 0 "OK") s'
          ∧ returned (get "events" "a" "" s') = returned (get "events" "a" "" abcd).
Proof.
  assert (writable abcd abcd_db) as H1 by (split; vm_compute; reflexivity).
  assert (resolves abcd "logs" logs_handle) as H2 by (vm_compute; reflexivity).
  assert (resolves abcd "events" events_handle) as H3 by (vm_compute; reflexivity).
  assert (rocksdb.ok (rocksdb.medium abcd_db) = true) as H4 by (vm_compute; reflexivity).
  assert (rocksdb.cfh_name events_handle ≠ rocksdb.cfh_name logs_handle ∨ "a" ≠ "a") as H5
    by (left; decided).
  split; [exact H1 |]. split; [exact H2 |]. split; [exact H3 |]. split; [exact H4 |].
  split; [exact H5 |].
  exact (put_leaves_the_other_records abcd abcd_db "logs" "a" "changed" "events" "a" ""
           logs_handle events_handle H1 H2 H3 H4 H5).
Defined.

Lemma remove_then_get_witness :
  writable abcd abcd_db
  ∧ resolves abcd "logs" logs_handle
  ∧ rocksdb.ok (rocksdb.medium abcd_db) = true
  ∧ ∃ s', remove "logs" "b" abcd = Ret (mkStatus 0 "OK") s'
          ∧ get "logs" "b" "" s' = Ret (mkStatus 1 "NotFound: ", "") s'
          ∧ ("c" ≠ "b" → returned (get "logs" "c" "" s') = returned (get "logs" "c" "" abcd)).
Proof.
  assert (writable abcd abcd_db) as H1 by (split; vm_compute; reflexivity).
  assert (resolves abcd "logs" logs_handle) as H2 by (vm_compute; reflexivity).
  assert (rocksdb.ok (rocksdb.medium abcd_db) = true) as H3 by (vm_compute; reflexivity).
  split; [exact H1 |]. split; [exact H2 |]. split; [exact H3 |].
  exact (remove_then_get abcd abcd_db "logs" "b" "c" "" logs_handle H1 H2 H3).
Defined.

Lemma unknown_domain_is_an_error_witness :
  ("nowhere" ∉ kDomains)
  ∧ (read_only_ (self opened) = false →
     putBatch "nowhere" [("k", "v")] opened
     = Ret (mkStatus 1 "Could not get column family for nowhere") opened
     ∧ remove "nowhere" "k" opened
       = Ret (mkStatus 1 "Could not get column family for nowhere") opened
     ∧ removeRange "nowhere" "a" "z" opened
       = Ret (mkStatus 1 "Could not get column family for nowhere") opened)
  ∧ (is_Some (db_ (self opened)) →
     get "nowhere" "k" "" opened
     = Ret (mkStatus 1 "Could not get column family for nowhere", "") opened
     ∧ scan "nowhere" [] "" 0 opened
       = Ret (mkStatus 1 "Could not get column family for nowhere", []) opened).
Proof.
  assert ("nowhere" ∉ kDomains) as H1 by decided.
  split; [exact H1 |].
  exact (unknown_domain_is_an_error opened "nowhere" "k" "" "a" "z" ""
           [("k", "v")] [] 0 H1).
Defined.

Lemma putBatch_of_nothing_witness :
  writable opened opened_db
  ∧ resolves opened "logs" logs_handle
  ∧ rocksdb.ok (rocksdb.medium opened_db) = true
  ∧ ∃ s', putBatch "logs" [] opened = Ret (mkStatus 0 "OK") s'
          ∧ self s' = self opened
          ∧ added opened s' [EvWrite (rocksdb.mkWriteOptions true false) []].
Proof.
  assert (writable opened opened_db) as H1 by (split; vm_compute; reflexivity).
  assert (resolves opened "logs" logs_handle) as H2 by (vm_compute; reflexivity).
  assert (rocksdb.ok (rocksdb.medium opened_db) = true) as H3 by (vm_compute; reflexivity).
  split; [exact H1 |]. split; [exact H2 |]. split; [exact H3 |].
  exact (putBatch_of_nothing opened opened_db "logs" logs_handle H1 H2 H3).
Defined.

Lemma setUp_on_an_unreadable_path_witness :
  pathExists store_path (host (world (start unreadable false))) = true
  ∧ isReadable store_path (host (world (start unreadable false))) = false
  ∧ ∃ s', setUp (start unreadable false)
          = Ret (mkStatus 1 "Cannot read RocksDB path: /var/osquery/osquery.db") s'
          ∧ handles_ (self s') = []
          ∧ db_ (self s') = None
          ∧ trace (world s') = [].
Proof.
  assert (pathExists store_path (host (world (start unreadable false))) = true) as H1
    by (vm_compute; reflexivity).
  assert (isReadable store_path (host (world (start unreadable false))) = false) as H2
    by (vm_compute; reflexivity).
  split; [exact H1 |]. split; [exact H2 |].
  destruct (setUp_on_an_unreadable_path (start unreadable false) H1 H2)
    as (s' & Hrun & _ & _ & Hhandles & Hdb & _ & Hworld).
  exists s'. split; [exact Hrun |]. split; [exact Hhandles |]. split; [exact Hdb |].
  rewrite Hworld. reflexivity.
Defined.

Lemma setUp_warns_and_opens_when_not_allowed_witness :
  kDBAllowOpen (world not_allowed) = false
  ∧ pathExists store_path (host (world not_allowed))
    && negb (isReadable store_path (host (world not_allowed))) = false
  ∧ ∃ status s' rest,
      setUp not_allowed = Ret status s'
      ∧ added not_allowed s'
              (EvLog WARNING "[Ref #1629] Not allowed to set up database plugin" :: rest)
      ∧ ∃ cfs st, EvOpen store_path cfs st ∈ rest.
Proof.
  assert (kDBAllowOpen (world not_allowed) = false) as H1 by reflexivity.
  assert (pathExists store_path (host (world not_allowed))
          && negb (isReadable store_path (host (world not_allowed))) = false) as H2
    by (vm_compute; reflexivity).
  split; [exact H1 |]. split; [exact H2 |].
  exact (setUp_warns_and_opens_when_not_allowed not_allowed H1 H2).
Defined.

Lemma putBatch_trims_an_io_error_witness :
  writable on_full_disk on_full_disk_db
  ∧ resolves on_full_disk "logs" logs_handle
  ∧ rocksdb.code (rocksdb.medium on_full_disk_db) = rocksdb.kIOError
  ∧ ∃ s', putBatch "logs" [("k", "v")] on_full_disk
          = Ret (mkStatus 5 "IOError: No space left on device") s'.
Proof.
  assert (writable on_full_disk on_full_disk_db) as H1 by (split; vm_compute; reflexivity).
  assert (resolves on_full_disk "logs" logs_handle) as H2 by (vm_compute; reflexivity).
  assert (rocksdb.code (rocksdb.medium on_full_disk_db) = rocksdb.kIOError) as H3
    by (vm_compute; reflexivity).
  split; [exact H1 |]. split; [exact H2 |]. split; [exact H3 |].
  destruct (putBatch_trims_an_io_error on_full_disk on_full_disk_db "logs" logs_handle
              [("k", "v")] H1 H2 H3) as (error_pos & s' & Hpos & _ & Hrun).
  vm_compute in Hpos. injection Hpos as <-.
  exists s'. destruct (decide _) as [_|Hshort] in Hrun.
  - destruct Hrun as [Hrun _]. rewrite Hrun. vm_compute. reflexivity.
  - exfalso. apply Hshort. vm_compute. lia.
Defined.

Lemma putBatch_throws_on_a_trailing_colon_witness :
  writable on_truncated on_truncated_db
  ∧ resolves on_truncated "logs" logs_handle
  ∧ rocksdb.code (rocksdb.medium on_truncated_db) = rocksdb.kIOError
  ∧ rocksdb.state (rocksdb.medium on_truncated_db)
    = "While appending to file: /var/osquery/osquery.db/000003.log" +:+ ":"
  ∧ ∃ s', putBatch "logs" [("k", "v")] on_truncated = Crash ThrowOutOfRange s'.
Proof.
  assert (writable on_truncated on_truncated_db) as H1 by (split; vm_compute; reflexivity).
  assert (resolves on_truncated "logs" logs_handle) as H2 by (vm_compute; reflexivity).
  assert (rocksdb.code (rocksdb.medium on_truncated_db) = rocksdb.kIOError) as H3
    by (vm_compute; reflexivity).
  assert (rocksdb.state (rocksdb.medium on_truncated_db)
          = "While appending to file: /var/osquery/osquery.db/000003.log" +:+ ":") as H4
    by (vm_compute; reflexivity).
  split; [exact H1 |]. split; [exact H2 |]. split; [exact H3 |]. split; [exact H4 |].
  exact (putBatch_throws_on_a_trailing_colon on_truncated on_truncated_db "logs" _
           logs_handle [("k", "v")] H1 H2 H3 H4).
Defined.

Lemma other_failures_are_passed_on_witness :
  writable on_locked on_locked_db
  ∧ resolves on_locked "logs" logs_handle
  ∧ rocksdb.ok (rocksdb.medium on_locked_db) = false
  ∧ rocksdb.code (rocksdb.medium on_locked_db) ≠ rocksdb.kIOError
  ∧ (∃ s', putBatch "logs" [("k", "v")] on_locked
           = Ret (mkStatus 11 (rocksdb.ToString busy)) s')
  ∧ (∃ s', remove "logs" "k" on_locked = Ret (mkStatus 11 (rocksdb.ToString busy)) s').
Proof.
  assert (writable on_locked on_locked_db) as H1 by (split; vm_compute; reflexivity).
  assert (resolves on_locked "logs" logs_handle) as H2 by (vm_compute; reflexivity).
  assert (rocksdb.ok (rocksdb.medium on_locked_db) = false) as H3 by (vm_compute; reflexivity).
  assert (rocksdb.code (rocksdb.medium on_locked_db) ≠ rocksdb.kIOError) as H4 by decided.
  split; [exact H1 |]. split; [exact H2 |]. split; [exact H3 |]. split; [exact H4 |].
  destruct (other_failures_are_passed_on on_locked on_locked_db "logs" "k" logs_handle
              [("k", "v")] H1 H2 H3) as [Hput Hremove].
  split; [exact (Hput H4) | exact Hremove].
Defined.

Lemma putBatch_is_its_puts_in_order_witness :
  writable opened opened_db
  ∧ resolves opened "logs" logs_handle
  ∧ rocksdb.ok (rocksdb.medium opened_db) = true
  ∧ ∃ s12, putBatch "logs" [("k", "old"); ("k", "new")] opened = Ret (mkStatus 0 "OK") s12
           ∧ get "logs" "k" "" s12 = Ret (mkStatus 0 "OK", "new") s12.
Proof.
  assert (writable opened opened_db) as H1 by (split; vm_compute; reflexivity).
  assert (resolves opened "logs" logs_handle) as H2 by (vm_compute; reflexivity).
  assert (rocksdb.ok (rocksdb.medium opened_db) = true) as H3 by (vm_compute; reflexivity).
  split; [exact H1 |]. split; [exact H2 |]. split; [exact H3 |].
  destruct (putBatch_is_its_puts_in_order opened opened_db "logs" logs_handle
              [("k", "old")] [("k", "new")] H1 H2 H3)
    as (s1 & s2 & s12 & _ & _ & Hrun & _ & Hlast).
  exists s12. split; [exact Hrun |]. exact (Hlast "k" "old" "new" "" eq_refl eq_refl).
Defined.

Lemma put_int_stores_the_numeral_witness :
  writable opened opened_db
  ∧ resolves opened "logs" logs_handle
  ∧ rocksdb.ok (rocksdb.medium opened_db) = true
  ∧ ∃ s', put_int "logs" "count" (-42) opened = Ret (mkStatus 0 "OK") s'
          ∧ get "logs" "count" "" s' = Ret (mkStatus 0 "OK", "-42") s'.
Proof.
  assert (writable opened opened_db) as H1 by (split; vm_compute; reflexivity).
  assert (resolves opened "logs" logs_handle) as H2 by (vm_compute; reflexivity).
  assert (rocksdb.ok (rocksdb.medium opened_db) = true) as H3 by (vm_compute; reflexivity).
  split; [exact H1 |]. split; [exact H2 |]. split; [exact H3 |].
  destruct (put_int_stores_the_numeral opened opened_db "logs" "count" (-42) logs_handle
              H1 H2 H3) as (s' & Hrun & Hget & _).
  exists s'. split; [exact Hrun |]. exact (Hget "").
Defined.

End FurtherAtWork.
